(** * GoogleAPIChecker: probing pipeline and report synthesis

    A shallow embedding of [checker.go] and [report.go].

    - Go [string] is [string] (a byte sequence; [<] on strings is the
      bytewise lexicographic order, [String.ltb]).
    - Go [float64] is the primitive binary64 [float]; [a > b] is
      [PrimFloat.ltb b a], [a == b] is [PrimFloat.eqb a b].
    - Go [int] is [Z]; every [int] below is a slice length or a counter
      bounded by one, so no wrap-around occurs.
    - Go [error] is [option string]: [None] is [nil], [Some m] is a non-nil
      error whose [Error()] method returns [m].
    - [time.Time] is [Z] (an instant read from the clock).
    - Go maps are [gmap]s.
    - Names are those of the source, but for three fields whose name is
      also that of a type: [CostInfo] of [APIResult] is [CostInfoOf],
      [CostAnalysis] of [Report] is [CostAnalysisOf], and [Currency] of
      [SummaryInfo] is [SummaryCurrency]. *)

From Stdlib Require Import ZArith Floats Sorted Permutation.
From stdpp Require Import base tactics option list relations gmap gmultiset strings pretty.

Local Open Scope Z_scope.

(** ** Data model ([checker.go], lines 13-39) *)

Definition error := option string.
Definition float64 := float.
Definition Time := Z.

Record CostInfo := mkCostInfo {
  HasPricing : bool;
  UnlimitedCost : bool;
  EstimatedCost : float64;
  Currency : string;
  PricingDetails : string
}.

Record APIResult := mkAPIResult {
  Name : string;
  DisplayName : string;
  Status : string;
  Enabled : bool;
  CostInfoOf : CostInfo;
  CheckedAt : Time;
  Error : string
}.

(** Go zero values of the two structs. *)
Definition zero_CostInfo : CostInfo := mkCostInfo false false 0%float "" "".
Definition zero_APIResult : APIResult :=
  mkAPIResult "" "" "" false zero_CostInfo 0 "".

(** Field assignments [result.F = v]. *)
Definition set_Name (v : string) (r : APIResult) : APIResult :=
  mkAPIResult v (DisplayName r) (Status r) (Enabled r) (CostInfoOf r) (CheckedAt r) (Error r).
Definition set_DisplayName (v : string) (r : APIResult) : APIResult :=
  mkAPIResult (Name r) v (Status r) (Enabled r) (CostInfoOf r) (CheckedAt r) (Error r).
Definition set_Status (v : string) (r : APIResult) : APIResult :=
  mkAPIResult (Name r) (DisplayName r) v (Enabled r) (CostInfoOf r) (CheckedAt r) (Error r).
Definition set_Enabled (v : bool) (r : APIResult) : APIResult :=
  mkAPIResult (Name r) (DisplayName r) (Status r) v (CostInfoOf r) (CheckedAt r) (Error r).
Definition set_CostInfo (v : CostInfo) (r : APIResult) : APIResult :=
  mkAPIResult (Name r) (DisplayName r) (Status r) (Enabled r) v (CheckedAt r) (Error r).
Definition set_CheckedAt (v : Time) (r : APIResult) : APIResult :=
  mkAPIResult (Name r) (DisplayName r) (Status r) (Enabled r) (CostInfoOf r) v (Error r).
Definition set_Error (v : string) (r : APIResult) : APIResult :=
  mkAPIResult (Name r) (DisplayName r) (Status r) (Enabled r) (CostInfoOf r) (CheckedAt r) v.

(** The fields of [GoogleAPIChecker] that the pipeline reads. *)
Record GoogleAPIChecker := mkChecker {
  token : string;
  threads : Z
}.

Definition NewGoogleAPIChecker (tok : string) (n : Z) : GoogleAPIChecker :=
  mkChecker tok n.

(** Lookup in a Go map literal, [v, exists := m[k]]. *)
Definition map_literal {V} (kvs : list (string * V)) : gmap string V :=
  list_to_map kvs.

(** ** The probe of one item ([checker.go], lines 114-150)

    The three calls [c.isAPIEnabled], [c.getAPIDisplayName] and
    [c.getCostInfo] go to the probe source; [checkSingleAPI] is written over
    any source of that interface, and [now] is the instant [time.Now()]
    returns. *)

Section Probe.
Variable isAPIEnabled : string -> bool * error.
Variable getAPIDisplayName : string -> string.
Variable getCostInfo : string -> CostInfo * error.

Definition checkSingleAPI (now : Time) (apiName : string) : APIResult :=
  let result := set_CheckedAt now (set_Name apiName zero_APIResult) in
  let '(enabled, err) := isAPIEnabled apiName in
  match err with
  | Some e =>
      let result := set_Error e result in
      let result := set_Status "ERROR" result in
      result
  | None =>
      let result := set_Enabled enabled result in
      let result :=
        if enabled then set_Status "ENABLED" result
        else set_Status "DISABLED" result in
      let result := set_DisplayName (getAPIDisplayName apiName) result in
      let '(costInfo, err) := getCostInfo apiName in
      let result :=
        match err with
        | Some _ => set_CostInfo (mkCostInfo false false 0%float "" "") result
        | None => set_CostInfo costInfo result
        end in
      result
  end.
End Probe.

(** ** The simulated probe source of [checker.go] (lines 152-487) *)

Module Static.

Definition getAvailableAPIs : list string * error :=
  let apis := [
    "compute.googleapis.com";
    "storage.googleapis.com";
    "bigquery.googleapis.com";
    "pubsub.googleapis.com";
    "cloudfunctions.googleapis.com";
    "cloudrun.googleapis.com";
    "container.googleapis.com";
    "datastore.googleapis.com";
    "firestore.googleapis.com";
    "cloudsql.googleapis.com";
    "cloudbuild.googleapis.com";
    "cloudtasks.googleapis.com";
    "cloudscheduler.googleapis.com";
    "cloudkms.googleapis.com";
    "cloudiot.googleapis.com";
    "cloudtrace.googleapis.com";
    "clouddebugger.googleapis.com";
    "cloudprofiler.googleapis.com";
    "cloudmonitoring.googleapis.com";
    "cloudlogging.googleapis.com";
    "translate.googleapis.com";
    "vision.googleapis.com";
    "speech.googleapis.com";
    "language.googleapis.com";
    "ml.googleapis.com";
    "automl.googleapis.com";
    "dataflow.googleapis.com";
    "dataproc.googleapis.com";
    "dataprep.googleapis.com";
    "datalab.googleapis.com";
    "datacatalog.googleapis.com";
    "datastudio.googleapis.com";
    "analytics.googleapis.com";
    "analyticsadmin.googleapis.com";
    "searchconsole.googleapis.com";
    "webmasters.googleapis.com";
    "indexing.googleapis.com";
    "customsearch.googleapis.com";
    "pagespeedonline.googleapis.com";
    "siteverification.googleapis.com";
    "websecurityscanner.googleapis.com";
    "clouderrorreporting.googleapis.com";
    "cloudresourcemanager.googleapis.com";
    "iam.googleapis.com";
    "serviceusage.googleapis.com";
    "cloudbilling.googleapis.com";
    "billingbudgets.googleapis.com";
    "recommender.googleapis.com";
    "recommendationengine.googleapis.com";
    "retail.googleapis.com";
    "documentai.googleapis.com";
    "videointelligence.googleapis.com";
    "videointelligence.googleapis.com";
    "gameservices.googleapis.com";
    "playablelocations.googleapis.com";
    "places.googleapis.com";
    "geocoding.googleapis.com";
    "geolocation.googleapis.com";
    "maps.googleapis.com";
    "directions.googleapis.com";
    "distancematrix.googleapis.com";
    "elevation.googleapis.com";
    "timezone.googleapis.com";
    "staticmap.googleapis.com";
    "streetview.googleapis.com";
    "roads.googleapis.com";
    "fcm.googleapis.com";
    "firebase.googleapis.com";
    "firebaseappcheck.googleapis.com";
    "firebaseauth.googleapis.com";
    "firebasehosting.googleapis.com";
    "firebaseml.googleapis.com";
    "firebaserules.googleapis.com";
    "firebasestorage.googleapis.com";
    "identitytoolkit.googleapis.com";
    "securetoken.googleapis.com";
    "appengine.googleapis.com";
    "cloudapis.googleapis.com";
    "cloudtrace.googleapis.com";
    "clouddebugger.googleapis.com";
    "cloudprofiler.googleapis.com";
    "cloudmonitoring.googleapis.com";
    "cloudlogging.googleapis.com";
    "cloudbuild.googleapis.com";
    "cloudtasks.googleapis.com";
    "cloudscheduler.googleapis.com";
    "cloudkms.googleapis.com";
    "cloudiot.googleapis.com";
    "cloudtrace.googleapis.com";
    "clouddebugger.googleapis.com";
    "cloudprofiler.googleapis.com";
    "cloudmonitoring.googleapis.com";
    "cloudlogging.googleapis.com"
  ] in
  (apis, None).

Definition enabledAPIs : list (string * bool) := [
  ("compute.googleapis.com", true);
  ("storage.googleapis.com", true);
  ("bigquery.googleapis.com", true);
  ("pubsub.googleapis.com", false);
  ("cloudfunctions.googleapis.com", true);
  ("cloudrun.googleapis.com", false);
  ("container.googleapis.com", true);
  ("datastore.googleapis.com", false);
  ("firestore.googleapis.com", true);
  ("cloudsql.googleapis.com", true)
].

Definition isAPIEnabled (apiName : string) : bool * error :=
  match map_literal enabledAPIs !! apiName with
  | Some enabled => (enabled, None)
  | None => (true, None)
  end.

Definition displayNames : list (string * string) := [
  ("compute.googleapis.com", "Compute Engine API");
  ("storage.googleapis.com", "Cloud Storage API");
  ("bigquery.googleapis.com", "BigQuery API");
  ("pubsub.googleapis.com", "Cloud Pub/Sub API");
  ("cloudfunctions.googleapis.com", "Cloud Functions API");
  ("cloudrun.googleapis.com", "Cloud Run API");
  ("container.googleapis.com", "Kubernetes Engine API");
  ("datastore.googleapis.com", "Cloud Datastore API");
  ("firestore.googleapis.com", "Cloud Firestore API");
  ("cloudsql.googleapis.com", "Cloud SQL API");
  ("cloudbuild.googleapis.com", "Cloud Build API");
  ("cloudtasks.googleapis.com", "Cloud Tasks API");
  ("cloudscheduler.googleapis.com", "Cloud Scheduler API");
  ("cloudkms.googleapis.com", "Cloud KMS API");
  ("cloudiot.googleapis.com", "Cloud IoT API");
  ("translate.googleapis.com", "Cloud Translation API");
  ("vision.googleapis.com", "Cloud Vision API");
  ("speech.googleapis.com", "Cloud Speech API");
  ("language.googleapis.com", "Natural Language API");
  ("ml.googleapis.com", "Machine Learning API");
  ("automl.googleapis.com", "AutoML API");
  ("dataflow.googleapis.com", "Dataflow API");
  ("dataproc.googleapis.com", "Dataproc API");
  ("analytics.googleapis.com", "Google Analytics API");
  ("maps.googleapis.com", "Maps JavaScript API");
  ("firebase.googleapis.com", "Firebase API");
  ("appengine.googleapis.com", "App Engine API")
].

Definition getAPIDisplayName (apiName : string) : string :=
  match map_literal displayNames !! apiName with
  | Some displayName => displayName
  | None => apiName
  end.

Definition unlimited_warning : string :=
  "⚠️ WARNING: No usage limits - potential unlimited costs".

Definition costData : list (string * CostInfo) := [
  ("compute.googleapis.com",
    mkCostInfo true false 150%float "USD"
      "Pay per use - $0.05 per hour for standard instances");
  ("storage.googleapis.com",
    mkCostInfo true false 25%float "USD"
      "Pay per use - $0.02 per GB per month");
  ("bigquery.googleapis.com",
    mkCostInfo true true 0%float "USD" unlimited_warning);
  ("pubsub.googleapis.com",
    mkCostInfo true false 10%float "USD"
      "Pay per use - $0.40 per million messages");
  ("cloudfunctions.googleapis.com",
    mkCostInfo true false 5%float "USD"
      "Pay per use - $0.40 per million invocations");
  ("firestore.googleapis.com",
    mkCostInfo true true 0%float "USD" unlimited_warning);
  ("maps.googleapis.com",
    mkCostInfo true false 100%float "USD"
      "Pay per use - $5.00 per 1000 requests");
  ("datastore.googleapis.com",
    mkCostInfo true true 0%float "USD" unlimited_warning);
  ("cloudsql.googleapis.com",
    mkCostInfo true false 75%float "USD"
      "Pay per use - $0.10 per hour for standard instances");
  ("container.googleapis.com",
    mkCostInfo true false 50%float "USD"
      "Pay per use - $0.10 per hour for standard clusters");
  ("vision.googleapis.com",
    mkCostInfo true false 30%float "USD"
      "Pay per use - $1.50 per 1000 requests");
  ("speech.googleapis.com",
    mkCostInfo true false 20%float "USD"
      "Pay per use - $0.006 per 15 seconds");
  ("translate.googleapis.com",
    mkCostInfo true false 15%float "USD"
      "Pay per use - $20 per million characters");
  ("ml.googleapis.com",
    mkCostInfo true true 0%float "USD" unlimited_warning);
  ("automl.googleapis.com",
    mkCostInfo true true 0%float "USD" unlimited_warning);
  ("dataflow.googleapis.com",
    mkCostInfo true false 200%float "USD"
      "Pay per use - $0.06 per vCPU per hour");
  ("dataproc.googleapis.com",
    mkCostInfo true false 120%float "USD"
      "Pay per use - $0.10 per vCPU per hour");
  ("analytics.googleapis.com",
    mkCostInfo true false 8%float "USD"
      "Pay per use - $0.50 per 1000 requests");
  ("firebase.googleapis.com",
    mkCostInfo true true 0%float "USD" unlimited_warning);
  ("appengine.googleapis.com",
    mkCostInfo true false 40%float "USD"
      "Pay per use - $0.05 per instance hour")
].

(** The value returned for an identifier that is not in [costData]. *)
Definition default_CostInfo : CostInfo :=
  mkCostInfo false false 0%float "USD" "No pricing information available".

Definition getCostInfo (apiName : string) : CostInfo * error :=
  match map_literal costData !! apiName with
  | Some costInfo => (costInfo, None)
  | None => (default_CostInfo, None)
  end.

Definition checkSingleAPI : Time -> string -> APIResult :=
  checkSingleAPI isAPIEnabled getAPIDisplayName getCostInfo.

End Static.

(** ** The worker pool of [CheckAllAPIs] ([checker.go], lines 51-112)

    The goroutines of one call are interleaved by a step relation. A [pool]
    is the shared state after the [for i := 0; i < c.threads; i++] loop has
    started the workers:
    - the producer goroutine still has [unsent] to send on [jobs];
    - [jobs] and [results] are the two channel buffers, oldest value first,
      both made with capacity [len(apis)];
    - each worker is either at the head of [for apiName := range jobs], or
      at [results <- result] with its result in hand, or has left the loop
      and run [wg.Done()];
    - the main goroutine appends to [allResults] and counts in
      [progress.current] until [results] is closed and drained. *)

Inductive worker_state :=
| AtRange
| Sending (result : APIResult)
| Exited.

Record pool := mkPool {
  capacity : nat;
  unsent : list string;
  jobs : list string;
  jobs_closed : bool;
  workers : list worker_state;
  results : list APIResult;
  results_closed : bool;
  allResults : list APIResult;
  current : Z;
  returned : bool
}.

Definition init_pool (apis : list string) (n : Z) : pool :=
  mkPool (length apis) apis [] false (replicate (Z.to_nat n) AtRange)
    [] false [] 0 false.

(** What [CheckAllAPIs] is doing: it has returned [nil] and an error, or
    its pool is running. *)
Inductive run :=
| Failed (err : string)
| Running (p : pool).

Section Pool.
Variable getAvailableAPIs : list string * error.
Variable isAPIEnabled : string -> bool * error.
Variable getAPIDisplayName : string -> string.
Variable getCostInfo : string -> CostInfo * error.

Let probe := checkSingleAPI isAPIEnabled getAPIDisplayName getCostInfo.

(** A send on a buffered channel proceeds while the buffer is not full.
    With [len(apis) = 0] the channels are unbuffered, and nothing is ever
    sent on them. *)
Inductive step : pool -> pool -> Prop :=
(* line 78: [jobs <- api] *)
| step_send_job cap api us js ws rs rc all cur ret :
    (length js < cap)%nat ->
    step (mkPool cap (api :: us) js false ws rs rc all cur ret)
         (mkPool cap us (js ++ [api]) false ws rs rc all cur ret)
(* line 76: [defer close(jobs)], once the loop over [apis] is done *)
| step_close_jobs cap js ws rs rc all cur ret :
    step (mkPool cap [] js false ws rs rc all cur ret)
         (mkPool cap [] js true ws rs rc all cur ret)
(* lines 108-109: worker [i] receives [apiName] and probes it *)
| step_worker_receive cap us apiName js jc ws i now rs rc all cur ret :
    ws !! i = Some AtRange ->
    step (mkPool cap us (apiName :: js) jc ws rs rc all cur ret)
         (mkPool cap us js jc (<[i := Sending (probe now apiName)]> ws)
            rs rc all cur ret)
(* line 110: [results <- result] *)
| step_worker_send cap us js jc ws i result rs rc all cur ret :
    ws !! i = Some (Sending result) ->
    (length rs < cap)%nat ->
    step (mkPool cap us js jc ws rs rc all cur ret)
         (mkPool cap us js jc (<[i := AtRange]> ws) (rs ++ [result])
            rc all cur ret)
(* lines 106-108: [jobs] is closed and empty, the loop of worker [i]
   ends and [wg.Done()] runs *)
| step_worker_exit cap us ws i rs rc all cur ret :
    ws !! i = Some AtRange ->
    step (mkPool cap us [] true ws rs rc all cur ret)
         (mkPool cap us [] true (<[i := Exited]> ws) rs rc all cur ret)
(* lines 84-85: [wg.Wait()] returns and [close(results)] runs *)
| step_close_results cap us js jc ws rs all cur ret :
    Forall (fun w => w = Exited) ws ->
    step (mkPool cap us js jc ws rs false all cur ret)
         (mkPool cap us js jc ws rs true all cur ret)
(* lines 93-95: the main goroutine receives, appends and calls
   [progress.Update()] *)
| step_collect cap us js jc ws result rs rc all cur :
    step (mkPool cap us js jc ws (result :: rs) rc all cur false)
         (mkPool cap us js jc ws rs rc (all ++ [result]) (cur + 1) false)
(* lines 99-101: [results] is closed and empty; [return allResults, nil] *)
| step_return cap us js jc ws all cur :
    step (mkPool cap us js jc ws [] true all cur false)
         (mkPool cap us js jc ws [] true all cur true).

Definition CheckAllAPIs_start (c : GoogleAPIChecker) : run :=
  let '(apis, err) := getAvailableAPIs in
  match err with
  | Some e => Failed ("failed to get available APIs: " +:+ e)
  | None => Running (init_pool apis (threads c))
  end.

Inductive run_step : run -> run -> Prop :=
| run_pool p p' : step p p' -> run_step (Running p) (Running p').

(** The pair [CheckAllAPIs] has returned, if it has. *)
Definition returns (r : run) : option (list APIResult * error) :=
  match r with
  | Failed e => Some ([], Some e)
  | Running p =>
      if returned p then Some (allResults p, None) else None
  end.
End Pool.

(** A bound on the steps that remain from a pool: every step lowers
    [pool_measure]. *)
Definition worker_measure (w : worker_state) : nat :=
  match w with
  | AtRange => 1
  | Sending _ => 4
  | Exited => 0
  end.

Definition pool_measure (p : pool) : nat :=
  5 * length (unsent p) + 4 * length (jobs p)
  + sum_list (worker_measure <$> workers p)
  + 2 * length (results p)
  + (if jobs_closed p then 0 else 1)
  + (if results_closed p then 0 else 1)
  + (if returned p then 0 else 1).

Definition run_measure (r : run) : nat :=
  match r with
  | Failed _ => 0
  | Running p => pool_measure p
  end.

(** The identifier a worker holds between its receive and its send. *)
Definition in_hand (w : worker_state) : list string :=
  match w with
  | Sending result => [Name result]
  | _ => []
  end.

(** ** Report synthesis ([report.go], lines 12-164) *)

Record SummaryInfo := mkSummaryInfo {
  TotalAPIs : Z;
  EnabledCount : Z;
  DisabledCount : Z;
  ErrorCount : Z;
  TotalCost : float64;
  SummaryCurrency : string
}.

Record CostAnalysis := mkCostAnalysis {
  TotalEstimatedCost : float64;
  UnlimitedCostAPIs : list APIResult;
  HighCostAPIs : list APIResult;
  CostBreakdown : gmap string float64
}.

Record Report := mkReport {
  Summary : SummaryInfo;
  EnabledAPIs : list APIResult;
  DisabledAPIs : list APIResult;
  CostAnalysisOf : CostAnalysis;
  Recommendations : list string;
  GeneratedAt : Time
}.

Definition len {A} (l : list A) : Z := Z.of_nat (length l).

Definition cost (r : APIResult) : float64 := EstimatedCost (CostInfoOf r).

(** The local variables of [GenerateReport] that its loop updates. *)
Record tally := mkTally {
  enabledAPIs : list APIResult;
  disabledAPIs : list APIResult;
  errorCount : Z;
  totalCost : float64;
  unlimitedCostAPIs : list APIResult;
  highCostAPIs : list APIResult;
  costBreakdown : gmap string float64
}.

Definition empty_tally : tally := mkTally [] [] 0 0%float [] [] ∅.

(** One iteration of [for _, result := range results] (lines 53-80). *)
Definition tally_result (t : tally) (result : APIResult) : tally :=
  if negb (String.eqb (Error result) "") then
    mkTally (enabledAPIs t) (disabledAPIs t) (errorCount t + 1) (totalCost t)
      (unlimitedCostAPIs t) (highCostAPIs t) (costBreakdown t)
  else if Enabled result then
    let enabled := enabledAPIs t ++ [result] in
    if HasPricing (CostInfoOf result) then
      let total := PrimFloat.add (totalCost t) (cost result) in
      let breakdown := <[DisplayName result := cost result]> (costBreakdown t) in
      let unlimited :=
        if UnlimitedCost (CostInfoOf result)
        then unlimitedCostAPIs t ++ [result] else unlimitedCostAPIs t in
      let high :=
        if PrimFloat.ltb 50%float (cost result)
        then highCostAPIs t ++ [result] else highCostAPIs t in
      mkTally enabled (disabledAPIs t) (errorCount t) total unlimited high
        breakdown
    else
      mkTally enabled (disabledAPIs t) (errorCount t) (totalCost t)
        (unlimitedCostAPIs t) (highCostAPIs t) (costBreakdown t)
  else
    mkTally (enabledAPIs t) (disabledAPIs t ++ [result]) (errorCount t)
      (totalCost t) (unlimitedCostAPIs t) (highCostAPIs t) (costBreakdown t).

(** The two [less] closures handed to [sort.Slice] (lines 83-90). *)
Definition by_cost_descending (a b : APIResult) : bool :=
  PrimFloat.ltb (cost b) (cost a).

Definition by_display_name (a b : APIResult) : bool :=
  String.ltb (DisplayName a) (DisplayName b).

(** The three general recommendations (lines 156-161). *)
Definition general_recommendations : list string := [
  "📊 Set up billing alerts and budget limits in Google Cloud Console";
  "🔍 Regularly monitor API usage and costs";
  "⚡ Consider using quotas and rate limiting for high-cost APIs"
].

Section Synthesis.
(** [sort.Slice] of the Go library, on slices of [APIResult]. *)
Variable sort_Slice :
  (APIResult -> APIResult -> bool) -> list APIResult -> list APIResult.
(** The verb [%.2f] of [fmt.Sprintf]; the verb [%d] is [pretty]. *)
Variable Sprintf_2f : float64 -> string.

Definition unlimited_line (api : APIResult) : string :=
  "   - " +:+ DisplayName api +:+ ": " +:+ PricingDetails (CostInfoOf api).

Definition high_cost_line (api : APIResult) : string :=
  "   - " +:+ DisplayName api +:+ ": $" +:+ Sprintf_2f (cost api) +:+ "/month".

Definition unlimited_header (n : Z) : string :=
  "⚠️  CRITICAL: Found " +:+ pretty n +:+
  " APIs with unlimited cost potential. Review and set usage limits immediately:".

Definition high_cost_header (n : Z) : string :=
  "💰 High cost APIs detected (" +:+ pretty n +:+
  " APIs with >$50 estimated cost):".

Definition total_cost_line (total : float64) : string :=
  "💸 Total estimated monthly cost is high: $" +:+ Sprintf_2f total +:+
  ". Consider reviewing usage patterns.".

Definition disabled_line (n : Z) : string :=
  "🔒 " +:+ pretty n +:+
  " APIs are currently disabled. Review if any are needed for your application.".

(** [report.go], lines 117-164; every [append] is [++ [_]] and every
    [for ... range] is a [fold_left]. *)
Definition generateRecommendations (report : Report) : list string :=
  let recommendations : list string := [] in
  let recommendations :=
    if 0 <? len (UnlimitedCostAPIs (CostAnalysisOf report)) then
      let recommendations :=
        recommendations ++
        [unlimited_header (len (UnlimitedCostAPIs (CostAnalysisOf report)))] in
      fold_left (fun recs api => recs ++ [unlimited_line api])
        (UnlimitedCostAPIs (CostAnalysisOf report)) recommendations
    else recommendations in
  let recommendations :=
    if 0 <? len (HighCostAPIs (CostAnalysisOf report)) then
      let recommendations :=
        recommendations ++
        [high_cost_header (len (HighCostAPIs (CostAnalysisOf report)))] in
      fold_left (fun recs api => recs ++ [high_cost_line api])
        (HighCostAPIs (CostAnalysisOf report)) recommendations
    else recommendations in
  let recommendations :=
    if PrimFloat.ltb 500%float (TotalCost (Summary report)) then
      recommendations ++ [total_cost_line (TotalCost (Summary report))]
    else recommendations in
  let recommendations :=
    if 0 <? len (DisabledAPIs report) then
      recommendations ++ [disabled_line (len (DisabledAPIs report))]
    else recommendations in
  let recommendations :=
    recommendations ++
    ["📊 Set up billing alerts and budget limits in Google Cloud Console"] in
  let recommendations :=
    recommendations ++ ["🔍 Regularly monitor API usage and costs"] in
  let recommendations :=
    recommendations ++
    ["⚡ Consider using quotas and rate limiting for high-cost APIs"] in
  recommendations.

(** [report.go], lines 40-115; [now] is what [time.Now()] returns. *)
Definition GenerateReport (now : Time) (results : list APIResult) : Report :=
  let t := fold_left tally_result results empty_tally in
  let highCostAPIs := sort_Slice by_cost_descending (highCostAPIs t) in
  let unlimitedCostAPIs := sort_Slice by_display_name (unlimitedCostAPIs t) in
  let summary :=
    mkSummaryInfo (len results) (len (enabledAPIs t)) (len (disabledAPIs t))
      (errorCount t) (totalCost t) "USD" in
  let analysis :=
    mkCostAnalysis (totalCost t) unlimitedCostAPIs highCostAPIs
      (costBreakdown t) in
  let report :=
    mkReport summary (enabledAPIs t) (disabledAPIs t) analysis [] now in
  mkReport (Summary report) (EnabledAPIs report) (DisabledAPIs report)
    (CostAnalysisOf report) (generateRecommendations report)
    (GeneratedAt report).
End Synthesis.

(** ** What [sort.Slice] promises

    [sort.Slice] belongs to the Go library, not to this program, so
    [GenerateReport] takes it as a parameter. Its documentation reads:
    "Slice sorts the slice x given the provided less function. [...] The
    sort is not guaranteed to be stable: equal elements may be reversed
    from their original order. For a stable sort, use SliceStable"; and
    [less] "must describe a transitive ordering": if [less a b] and
    [less b c] then [less a c], and if neither [less a b] nor [less b c]
    then not [less a c]. An element does not sort before itself. *)

Definition transitive_ordering {A} (less : A -> A -> bool) (xs : list A) : Prop :=
  (forall a, a ∈ xs -> less a a = false) /\
  (forall a b c, a ∈ xs -> b ∈ xs -> c ∈ xs ->
     less a b = true -> less b c = true -> less a c = true) /\
  (forall a b c, a ∈ xs -> b ∈ xs -> c ∈ xs ->
     less a b = false -> less b c = false -> less a c = false).

(** No element must sort before an element that precedes it. *)
Definition in_order {A} (less : A -> A -> bool) (ys : list A) : Prop :=
  StronglySorted (fun a b => less b a = false) ys.

Definition sort_Slice_contract {A}
    (sort : (A -> A -> bool) -> list A -> list A) : Prop :=
  forall less xs,
    xs ≡ₚ sort less xs /\
    (transitive_ordering less xs -> in_order less (sort less xs)).

(** A sort that keeps the promise: [insertion_sort] places an element
    before its equals, and taking the slice from its end keeps equal
    elements in their input order. *)
Fixpoint insert_before {A} (less : A -> A -> bool) (x : A) (ys : list A) : list A :=
  match ys with
  | [] => [x]
  | y :: ys' =>
      if less y x then y :: insert_before less x ys' else x :: y :: ys'
  end.

Definition insertion_sort {A} (less : A -> A -> bool) (xs : list A) : list A :=
  foldr (insert_before less) [] xs.

(** ** [sort.Slice] as the Go library runs it

    The toolchain that the repository asks for (Go 1.21 or later) sorts
    with pattern-defeating quicksort: [sort.Slice] of [sort/slice.go]
    calls [pdqsort_func] on the whole slice with the limit
    [bits.Len(length)]. The functions below follow [sort/zsortfunc.go] of
    the library one for one, under its names; a Go loop is a function
    that takes one turn for each unit of its bound.
    The slice is a list, an index is an [int], and the variables that Go
    updates in place are passed along. The pseudo-random generator that
    [breakPatterns] draws from is a parameter. *)

Module GoSort.

Inductive sortedHint := unknownHint | increasingHint | decreasingHint.

Section Sort.
Context {A : Type}.
(** [less] on two elements: the closure given to [sort.Slice] compares
    the elements that the slice holds at the two indices at the time of
    the call. *)
Variable less : A -> A -> bool.
(** One step of the generator [xorshift] of the library. *)
Variable xorshift_Next : Z -> Z.
(** The bound on the iterations of each loop. *)
Variable n : nat.

(** A computation on the slice: [None] when an index is out of range or a
    loop has used up its bound. *)
Definition M (X : Type) : Type := list A -> option (X * list A).

#[local] Instance M_ret : MRet M := fun X x data => Some (x, data).
#[local] Instance M_bind : MBind M := fun X Y f m data =>
  match m data with
  | Some (x, data) => f x data
  | None => None
  end.

Definition stop {X} : M X := fun _ => None.

Definition at_index (data : list A) (i : Z) : option A :=
  if 0 <=? i then data !! Z.to_nat i else None.

(** [data.Less(i, j)] and [data.Swap(i, j)]. *)
Definition Less (i j : Z) : M bool := fun data =>
  match at_index data i, at_index data j with
  | Some x, Some y => Some (less x y, data)
  | _, _ => None
  end.

Definition Swap (i j : Z) : M unit := fun data =>
  match at_index data i, at_index data j with
  | Some x, Some y =>
      Some (tt, <[Z.to_nat j := x]> (<[Z.to_nat i := y]> data))
  | _, _ => None
  end.

(** [for j := i; j > a && data.Less(j, j-1); j-- { data.Swap(j, j-1) }] *)
Fixpoint insertion_shift (fuel : nat) (a j : Z) : M unit :=
  match fuel with
  | O => stop
  | S fuel =>
      if a <? j then
        b ← Less j (j - 1);
        if b : bool then Swap j (j - 1);; insertion_shift fuel a (j - 1)
        else mret tt
      else mret tt
  end.

(** [for i := a + 1; i < b; i++ { ... }] *)
Fixpoint insertion_from (fuel : nat) (a b i : Z) : M unit :=
  match fuel with
  | O => stop
  | S fuel =>
      if i <? b then
        insertion_shift n a i;; insertion_from fuel a b (i + 1)
      else mret tt
  end.

Definition insertionSort_func (a b : Z) : M unit :=
  insertion_from n a b (a + 1).

(** The loop of [siftDown_func], from [root]. *)
Fixpoint siftDown_from (fuel : nat) (hi first root : Z) : M unit :=
  match fuel with
  | O => stop
  | S fuel =>
      let child := 2 * root + 1 in
      if hi <=? child then mret tt
      else
        right ← (if child + 1 <? hi
                 then Less (first + child) (first + child + 1)
                 else mret false);
        let child := if right : bool then child + 1 else child in
        b ← Less (first + root) (first + child);
        if negb b then mret tt
        else Swap (first + root) (first + child);;
             siftDown_from fuel hi first child
  end.

Definition siftDown_func (lo hi first : Z) : M unit :=
  siftDown_from n hi first lo.

(** [for i := (hi - 1) / 2; i >= 0; i-- { siftDown(data, i, hi, first) }] *)
Fixpoint heap_build (fuel : nat) (hi first i : Z) : M unit :=
  match fuel with
  | O => stop
  | S fuel =>
      if 0 <=? i then
        siftDown_func i hi first;; heap_build fuel hi first (i - 1)
      else mret tt
  end.

(** [for i := hi - 1; i >= 0; i-- { data.Swap(first, first+i);
    siftDown(data, lo, i, first) }] *)
Fixpoint heap_pop (fuel : nat) (lo first i : Z) : M unit :=
  match fuel with
  | O => stop
  | S fuel =>
      if 0 <=? i then
        Swap first (first + i);; siftDown_func lo i first;;
        heap_pop fuel lo first (i - 1)
      else mret tt
  end.

Definition heapSort_func (a b : Z) : M unit :=
  let first := a in
  let lo := 0 in
  let hi := b - a in
  heap_build n hi first (Z.quot (hi - 1) 2);;
  heap_pop n lo first (hi - 1).

(** [for i <= j && data.Less(i, a) { i++ }] *)
Fixpoint partition_up (fuel : nat) (a i j : Z) : M Z :=
  match fuel with
  | O => stop
  | S fuel =>
      if i <=? j then
        b ← Less i a;
        if b : bool then partition_up fuel a (i + 1) j else mret i
      else mret i
  end.

(** [for i <= j && !data.Less(j, a) { j-- }] *)
Fixpoint partition_down (fuel : nat) (a i j : Z) : M Z :=
  match fuel with
  | O => stop
  | S fuel =>
      if i <=? j then
        b ← Less j a;
        if negb b then partition_down fuel a i (j - 1) else mret j
      else mret j
  end.

(** The second loop of [partition_func]; it returns [j] at the
    [break]. *)
Fixpoint partition_loop (fuel : nat) (a i j : Z) : M Z :=
  match fuel with
  | O => stop
  | S fuel =>
      i ← partition_up n a i j;
      j ← partition_down n a i j;
      if j <? i then mret j
      else Swap i j;; partition_loop fuel a (i + 1) (j - 1)
  end.

Definition partition_func (a b pivot : Z) : M (Z * bool) :=
  Swap a pivot;;
  let i := a + 1 in
  let j := b - 1 in
  i ← partition_up n a i j;
  j ← partition_down n a i j;
  if j <? i then Swap j a;; mret (j, true)
  else
    Swap i j;;
    j ← partition_loop n a (i + 1) (j - 1);
    Swap j a;; mret (j, false).

(** [for i <= j && !data.Less(a, i) { i++ }] *)
Fixpoint equal_up (fuel : nat) (a i j : Z) : M Z :=
  match fuel with
  | O => stop
  | S fuel =>
      if i <=? j then
        b ← Less a i;
        if negb b then equal_up fuel a (i + 1) j else mret i
      else mret i
  end.

(** [for i <= j && data.Less(a, j) { j-- }] *)
Fixpoint equal_down (fuel : nat) (a i j : Z) : M Z :=
  match fuel with
  | O => stop
  | S fuel =>
      if i <=? j then
        b ← Less a j;
        if b : bool then equal_down fuel a i (j - 1) else mret j
      else mret j
  end.

(** The loop of [partitionEqual_func]; it returns [i] at the
    [break]. *)
Fixpoint equal_loop (fuel : nat) (a i j : Z) : M Z :=
  match fuel with
  | O => stop
  | S fuel =>
      i ← equal_up n a i j;
      j ← equal_down n a i j;
      if j <? i then mret i
      else Swap i j;; equal_loop fuel a (i + 1) (j - 1)
  end.

Definition partitionEqual_func (a b pivot : Z) : M Z :=
  Swap a pivot;;
  equal_loop n a (a + 1) (b - 1).

(** [for i < b && !data.Less(i, i-1) { i++ }] *)
Fixpoint sorted_upto (fuel : nat) (b i : Z) : M Z :=
  match fuel with
  | O => stop
  | S fuel =>
      if i <? b then
        c ← Less i (i - 1);
        if negb c then sorted_upto fuel b (i + 1) else mret i
      else mret i
  end.

(** [for j := i - 1; j >= 1; j-- { if !data.Less(j, j-1) { break };
    data.Swap(j, j-1) }] *)
Fixpoint shift_left (fuel : nat) (j : Z) : M unit :=
  match fuel with
  | O => stop
  | S fuel =>
      if 1 <=? j then
        c ← Less j (j - 1);
        if negb c then mret tt
        else Swap j (j - 1);; shift_left fuel (j - 1)
      else mret tt
  end.

(** [for j := i + 1; j < b; j++ { if !data.Less(j, j-1) { break };
    data.Swap(j, j-1) }] *)
Fixpoint shift_right (fuel : nat) (b j : Z) : M unit :=
  match fuel with
  | O => stop
  | S fuel =>
      if j <? b then
        c ← Less j (j - 1);
        if negb c then mret tt
        else Swap j (j - 1);; shift_right fuel b (j + 1)
      else mret tt
  end.

Definition maxSteps : nat := 5.
Definition shortestShifting : Z := 50.

(** The loop [for j := 0; j < maxSteps; j++] of
    [partialInsertionSort_func], with [steps] iterations left. *)
Fixpoint partial_steps (steps : nat) (a b i : Z) : M bool :=
  match steps with
  | O => mret false
  | S steps =>
      i ← sorted_upto n b i;
      if i =? b then mret true
      else if b - a <? shortestShifting then mret false
      else
        Swap i (i - 1);;
        (if 2 <=? i - a then shift_left n (i - 1) else mret tt);;
        (if 2 <=? b - i then shift_right n b (i + 1) else mret tt);;
        partial_steps steps a b i
  end.

Definition partialInsertionSort_func (a b : Z) : M bool :=
  partial_steps maxSteps a b (a + 1).

(** [bits.Len]. *)
Definition bits_Len (x : Z) : Z := if x <=? 0 then 0 else Z.log2 x + 1.

Definition nextPowerOfTwo (length : Z) : Z := Z.shiftl 1 (bits_Len length).

(** [for i := 0; i < 3; i++] of [breakPatterns_func], with [steps]
    iterations left and [random] the state of the generator. *)
Fixpoint break_steps (steps : nat) (a length modulus idx i random : Z)
    : M unit :=
  match steps with
  | O => mret tt
  | S steps =>
      let random := xorshift_Next random in
      let other := Z.land random (modulus - 1) in
      let other := if length <=? other then other - length else other in
      Swap (idx - 1 + i) (a + other);;
      break_steps steps a length modulus idx (i + 1) random
  end.

Definition breakPatterns_func (a b : Z) : M unit :=
  let length := b - a in
  if 8 <=? length then
    let random := length in
    let modulus := nextPowerOfTwo length in
    let idx := a + Z.quot length 4 * 2 - 1 in
    break_steps 3 a length modulus idx 0 random
  else mret tt.

(** [order2_func], [median_func] and [medianAdjacent_func]; the
    counter behind [swaps *int] is passed along. *)
Definition order2_func (a b swaps : Z) : M (Z * Z * Z) :=
  c ← Less b a;
  if c : bool then mret (b, a, swaps + 1) else mret (a, b, swaps).

Definition median_func (a b c swaps : Z) : M (Z * Z) :=
  '(a, b, swaps) ← order2_func a b swaps;
  '(b, c, swaps) ← order2_func b c swaps;
  '(a, b, swaps) ← order2_func a b swaps;
  mret (b, swaps).

Definition medianAdjacent_func (a swaps : Z) : M (Z * Z) :=
  median_func (a - 1) a (a + 1) swaps.

Definition shortestNinther : Z := 50.
Definition maxSwaps : Z := 4 * 3.

Definition choosePivot_func (a b : Z) : M (Z * sortedHint) :=
  let l := b - a in
  let swaps := 0 in
  let i := a + Z.quot l 4 * 1 in
  let j := a + Z.quot l 4 * 2 in
  let k := a + Z.quot l 4 * 3 in
  '(j, swaps) ←
    (if 8 <=? l then
       '(i, j, k, swaps) ←
         (if shortestNinther <=? l then
            '(i, swaps) ← medianAdjacent_func i swaps;
            '(j, swaps) ← medianAdjacent_func j swaps;
            '(k, swaps) ← medianAdjacent_func k swaps;
            mret (i, j, k, swaps)
          else mret (i, j, k, swaps));
       median_func i j k swaps
     else mret (j, swaps));
  if swaps =? 0 then mret (j, increasingHint)
  else if swaps =? maxSwaps then mret (j, decreasingHint)
  else mret (j, unknownHint).

(** [for i < j { data.Swap(i, j); i++; j-- }] *)
Fixpoint reverse_from (fuel : nat) (i j : Z) : M unit :=
  match fuel with
  | O => stop
  | S fuel =>
      if i <? j then Swap i j;; reverse_from fuel (i + 1) (j - 1)
      else mret tt
  end.

Definition reverseRange_func (a b : Z) : M unit :=
  reverse_from n a (b - 1).

Definition maxInsertion : Z := 12.

Definition is_increasing (hint : sortedHint) : bool :=
  match hint with increasingHint => true | _ => false end.

Definition is_decreasing (hint : sortedHint) : bool :=
  match hint with decreasingHint => true | _ => false end.

(** [pdqsort_func]: one turn of its loop for each unit of [fuel]. A
    call of the function starts with [wasBalanced] and [wasPartitioned]
    true; the loop goes on with the values it has set. *)
Fixpoint pdqsort_loop (fuel : nat) (a b limit : Z)
    (wasBalanced wasPartitioned : bool) : M unit :=
  match fuel with
  | O => stop
  | S fuel =>
      let length := b - a in
      if length <=? maxInsertion then insertionSort_func a b
      else if limit =? 0 then heapSort_func a b
      else
        limit ← (if negb wasBalanced
                 then breakPatterns_func a b;; mret (limit - 1)
                 else mret limit);
        '(pivot, hint) ← choosePivot_func a b;
        '(pivot, hint) ←
          (if is_decreasing hint then
             reverseRange_func a b;;
             mret ((b - 1) - (pivot - a), increasingHint)
           else mret (pivot, hint));
        sorted ←
          (if wasBalanced && wasPartitioned && is_increasing hint
           then partialInsertionSort_func a b
           else mret false);
        if sorted : bool then mret tt
        else
          equal ← (if 0 <? a
                   then c ← Less (a - 1) pivot; mret (negb c)
                   else mret false);
          if equal : bool then
            mid ← partitionEqual_func a b pivot;
            pdqsort_loop fuel mid b limit wasBalanced wasPartitioned
          else
            '(mid, alreadyPartitioned) ← partition_func a b pivot;
            let wasPartitioned := alreadyPartitioned in
            let leftLen := mid - a in
            let rightLen := b - mid in
            let balanceThreshold := Z.quot length 8 in
            if leftLen <? rightLen then
              let wasBalanced := balanceThreshold <=? leftLen in
              pdqsort_loop fuel a mid limit true true;;
              pdqsort_loop fuel (mid + 1) b limit wasBalanced wasPartitioned
            else
              let wasBalanced := balanceThreshold <=? rightLen in
              pdqsort_loop fuel (mid + 1) b limit true true;;
              pdqsort_loop fuel a mid limit wasBalanced wasPartitioned
  end.

Definition pdqsort_func (a b limit : Z) : M unit :=
  pdqsort_loop n a b limit true true.
End Sort.

(** [sort.Slice]: the slice after the call, if the call returns. No loop
    of a call runs more often than the slice is long, plus once for the
    test that ends it. *)
Definition Slice {A} (xorshift_Next : Z -> Z) (less : A -> A -> bool)
    (x : list A) : option (list A) :=
  let length := Z.of_nat (List.length x) in
  let limit := bits_Len length in
  snd <$> pdqsort_func less xorshift_Next (S (S (List.length x)))
            0 length limit x.

(** The sort as [GenerateReport] takes it; the slice is left as it was
    where [Slice] gives nothing. *)
Definition sort_Slice {A} (xorshift_Next : Z -> Z) (less : A -> A -> bool)
    (x : list A) : list A :=
  default x (Slice xorshift_Next less x).

End GoSort.

(** Thirteen enabled results with pricing and the unlimited-cost risk.
    Eight of them are "Alpha API" at a cost of 200 and five are "Beta
    API" at a cost of 100; the first "Beta API" stands seventh. *)
Definition tied (name displayName : string) (estimatedCost : float64)
    : APIResult :=
  mkAPIResult name displayName "ENABLED" true
    (mkCostInfo true true estimatedCost "USD" "Pay per use") 0 "".

Definition thirteen_results : list APIResult := [
  tied "r00" "Alpha API" 200%float;
  tied "r01" "Alpha API" 200%float;
  tied "r02" "Alpha API" 200%float;
  tied "r03" "Alpha API" 200%float;
  tied "r04" "Alpha API" 200%float;
  tied "r05" "Alpha API" 200%float;
  tied "r06" "Beta API" 100%float;
  tied "r07" "Alpha API" 200%float;
  tied "r08" "Alpha API" 200%float;
  tied "r09" "Beta API" 100%float;
  tied "r10" "Beta API" 100%float;
  tied "r11" "Beta API" 100%float;
  tied "r12" "Beta API" 100%float
].

(** ** How the report classifies a result (lines 54-79) *)

Inductive state := StateEnabled | StateDisabled | StateErrored.

Definition state_of (r : APIResult) : state :=
  if negb (String.eqb (Error r) "") then StateErrored
  else if Enabled r then StateEnabled else StateDisabled.

Definition is_enabled (r : APIResult) : bool :=
  match state_of r with StateEnabled => true | _ => false end.

Definition enabled_with_pricing (r : APIResult) : bool :=
  is_enabled r && HasPricing (CostInfoOf r).

Definition is_high_cost (r : APIResult) : bool :=
  enabled_with_pricing r && PrimFloat.ltb 50%float (cost r).

Definition is_unlimited_risk (r : APIResult) : bool :=
  enabled_with_pricing r && UnlimitedCost (CostInfoOf r).

(** The identifiers a pool accounts for, wherever they are. *)
Definition accounted (p : pool) : list string :=
  unsent p ++ jobs p ++ (workers p ≫= in_hand) ++
  (Name <$> results p) ++ (Name <$> allResults p).

(** ** What every reachable pool satisfies *)

Section PoolInvariant.
Variable isAPIEnabled : string -> bool * error.
Variable getAPIDisplayName : string -> string.
Variable getCostInfo : string -> CostInfo * error.

(** A result is probed when it is what [checkSingleAPI] returns for its
    own identifier at some instant. *)
Definition probed (r : APIResult) : Prop :=
  exists now,
    r = checkSingleAPI isAPIEnabled getAPIDisplayName getCostInfo now (Name r).

Definition worker_probed (w : worker_state) : Prop :=
  match w with
  | Sending r => probed r
  | _ => True
  end.

Record pool_inv (apis : list string) (n : Z) (p : pool) : Prop := {
  inv_capacity : capacity p = length apis;
  inv_accounted : accounted p ≡ₚ apis;
  inv_jobs_closed : jobs_closed p = true -> unsent p = [];
  inv_exited : Exited ∈ workers p -> jobs_closed p = true /\ jobs p = [];
  inv_results_closed :
    results_closed p = true -> Forall (fun w => w = Exited) (workers p);
  inv_returned :
    returned p = true -> results_closed p = true /\ results p = [];
  inv_workers : length (workers p) = Z.to_nat n;
  inv_results_probed : Forall probed (results p);
  inv_all_probed : Forall probed (allResults p);
  inv_workers_probed : Forall worker_probed (workers p);
  inv_current : current p = len (allResults p)
}.

End PoolInvariant.

(** The cost the breakdown holds for a display name: that of the last
    enabled result with pricing that bears the name. *)
Fixpoint last_priced (k : string) (rs : list APIResult) : option float64 :=
  match rs with
  | [] => None
  | r :: rs' =>
      match last_priced k rs' with
      | Some c => Some c
      | None =>
          if enabled_with_pricing r && String.eqb (DisplayName r) k
          then Some (cost r) else None
      end
  end.

(** A block of recommendation lines that is present under a condition. *)
Definition block (present : bool) (lines : list string) : list string :=
  if present then lines else [].

(** ** The order of [float64]

    [SFkey] sends a number to a triple of integers whose lexicographic
    order is the order of the numbers; a NaN compares with nothing. *)

Definition SFkey (x : spec_float) : Z * Z * Z :=
  match x with
  | S754_zero _ => (0, 0, 0)
  | S754_infinity s => (if s then -2 else 2, 0, 0)
  | S754_nan => (0, 0, 0)
  | S754_finite s m e =>
      if s then (-1, - e, - Z.pos m) else (1, e, Z.pos m)
  end.

Definition lex_lt (a b : Z * Z * Z) : Prop :=
  a.1.1 < b.1.1 \/
  (a.1.1 = b.1.1 /\ (a.1.2 < b.1.2 \/ (a.1.2 = b.1.2 /\ a.2 < b.2))).

Definition is_number (x : float64) : Prop := Prim2SF x <> S754_nan.

(** What "zero/default" means for the cost fields: the Go zero value of the
    field, or the value [getCostInfo] gives an unknown identifier. *)
Definition cost_fields_default (c : CostInfo) : Prop :=
  PrimFloat.eqb (EstimatedCost c) 0%float = true /\
  (Currency c = "" \/ Currency c = "USD") /\
  (PricingDetails c = "" \/
   PricingDetails c = "No pricing information available").

(** ** Fixtures *)

(** A probe source whose enable check fails for every identifier, as the
    HTTP transport of a live source does when the service cannot be
    reached. *)
Definition unreachable_isAPIEnabled (apiName : string) : bool * error :=
  (false, Some "failed to make API request: connection refused").

(** A catalogue of two identifiers probed by two workers, and the pool
    after the second worker delivered first. *)
Definition two_apis : list string * error :=
  (["compute.googleapis.com"; "pubsub.googleapis.com"], None).

Definition two_workers_done : pool :=
  mkPool 2 [] [] true [Exited; Exited] [] true
    [Static.checkSingleAPI 2 "pubsub.googleapis.com";
     Static.checkSingleAPI 1 "compute.googleapis.com"] 2 true.

(** The pool of one worker over [two_apis] after both probes failed. *)
Definition both_failed : pool :=
  mkPool 2 [] [] true [Exited] [] true
    [mkAPIResult "compute.googleapis.com" "" "ERROR" false zero_CostInfo 1
       "failed to make API request: connection refused";
     mkAPIResult "pubsub.googleapis.com" "" "ERROR" false zero_CostInfo 2
       "failed to make API request: connection refused"] 2 true.

(** A stand-in for the verb [%.2f]. *)
Definition Sprintf_2f_fixture (x : float64) : string :=
  if PrimFloat.eqb x 100%float then "100.00" else "0.00".

(** The results of the simulated source for five identifiers; the cost of
    the second is exactly 50. *)
Definition sample_results : list APIResult :=
  Static.checkSingleAPI 0 <$>
    ["compute.googleapis.com"; "container.googleapis.com";
     "firestore.googleapis.com"; "dataflow.googleapis.com";
     "bigquery.googleapis.com"].

(** The scenario of one enabled item of cost 10, one disabled item, one
    enabled item of unlimited cost and one errored item. *)
Definition scenario : list APIResult := [
  mkAPIResult "a" "a" "ENABLED" true
    (mkCostInfo true false 10%float "USD" "Pay per use") 0 "";
  mkAPIResult "b" "b" "DISABLED" false Static.default_CostInfo 0 "";
  mkAPIResult "c" "c" "ENABLED" true
    (mkCostInfo true true 0%float "USD" "No usage limits") 0 "";
  mkAPIResult "d" "" "ERROR" false zero_CostInfo 0
    "API request failed with status: 500"
].

(** ** The other two classes of a result, and the sum of costs *)

Definition is_disabled (r : APIResult) : bool :=
  match state_of r with StateDisabled => true | _ => false end.

Definition is_errored (r : APIResult) : bool :=
  match state_of r with StateErrored => true | _ => false end.

(** [totalCost += c] over a slice of costs, from the left. *)
Definition add_costs (total : float64) (costs : list float64) : float64 :=
  fold_left PrimFloat.add costs total.

(** ** The statistics of [generateHTMLReport] (lines 293-307 of the file
    that holds the HTML report) *)

Module HTML.
Record statistics := mkStatistics {
  enabledCount : Z;
  disabledCount : Z;
  errorCount : Z;
  totalCost : float64
}.

(** One iteration of [for _, result := range results]. *)
Definition count_result (s : statistics) (result : APIResult) : statistics :=
  if negb (String.eqb (Error result) "") then
    mkStatistics (enabledCount s) (disabledCount s) (errorCount s + 1)
      (totalCost s)
  else if Enabled result then
    let s := mkStatistics (enabledCount s + 1) (disabledCount s)
               (errorCount s) (totalCost s) in
    if HasPricing (CostInfoOf result) then
      mkStatistics (enabledCount s) (disabledCount s) (errorCount s)
        (PrimFloat.add (totalCost s) (EstimatedCost (CostInfoOf result)))
    else s
  else
    mkStatistics (enabledCount s) (disabledCount s + 1) (errorCount s)
      (totalCost s).

Definition calculate_statistics (results : list APIResult) : statistics :=
  fold_left count_result results (mkStatistics 0 0 0 0%float).
End HTML.

(** Three enabled results with pricing whose costs do not add up to the
    same [float64] in every order. *)
Definition priced (name : string) (c : float64) : APIResult :=
  mkAPIResult name name "ENABLED" true (mkCostInfo true false c "USD" "") 0 "".

Definition large_first : list APIResult :=
  [priced "x" 1e16%float; priced "y" 1%float; priced "z" 1%float].

Definition large_last : list APIResult :=
  [priced "y" 1%float; priced "z" 1%float; priced "x" 1e16%float].

(** What the simulated source answers for an identifier: whether it is
    enabled, and whether it is enabled and has pricing. *)
Definition static_enabled (a : string) : bool := (Static.isAPIEnabled a).1.

Definition static_priced (a : string) : bool :=
  static_enabled a && HasPricing (Static.getCostInfo a).1.

(** The identifiers of a pool from the newest result back to the unsent
    ones: with a single worker this is the catalogue in its order. *)
Definition in_sequence (p : pool) : list string :=
  (Name <$> allResults p) ++ (Name <$> results p) ++
  (workers p ≫= in_hand) ++ jobs p ++ unsent p.

(** The pool of one worker that probed the whole catalogue in its order,
    each identifier at the instant 0. *)
Definition one_worker_done (probe : Time -> string -> APIResult)
    (apis : list string) : pool :=
  mkPool (length apis) [] [] true [Exited] [] true (probe 0 <$> apis)
    (len apis) true.

(** ** The rows of the exports ([export.go]) *)

(** [strconv.FormatBool]. *)
Definition FormatBool (b : bool) : string := if b then "true" else "false".

(** Lines 55-67. *)
Definition csv_header : list string := [
  "API Name"; "Display Name"; "Status"; "Enabled"; "Has Pricing";
  "Unlimited Cost"; "Estimated Cost (USD)"; "Currency"; "Pricing Details";
  "Checked At"; "Error"
].

(** Lines 174-175. *)
Definition pdf_headers : list string :=
  ["API Name"; "Status"; "Enabled"; "Cost"; "Unlimited"].

Definition pdf_widths : list float64 :=
  [60%float; 25%float; 20%float; 25%float; 25%float].

(** Lines 197-201: [len] counts bytes and [apiName[:22]] is the first 22
    bytes. *)
Definition truncate_name (apiName : string) : string :=
  if 25 <? Z.of_nat (String.length apiName)
  then String.substring 0 22 apiName +:+ "..."
  else apiName.

(** What a function does to its [csv.Writer] and its file, call by call.
    The writer buffers: a record that [writer.Write] has accepted reaches
    the file when the buffer fills or is flushed. [writer.Flush] returns
    nothing; whether a write to the file failed is what [writer.Error]
    tells. *)
Inductive csv_call :=
| CallWrite (record : list string)
| CallFlush
| CallError
| CallClose.

Section ExportRows.
(** The verb [%.2f], and [Format("2006-01-02 15:04:05")] of a time. *)
Variable Sprintf_2f : float64 -> string.
Variable Format : Time -> string.
(** What [writer.Write] returns for a record, given the records handed to
    it before. *)
Variable write_error : list (list string) -> list string -> error.

(** Lines 74-86. *)
Definition csv_row (result : APIResult) : list string := [
  Name result;
  DisplayName result;
  Status result;
  FormatBool (Enabled result);
  FormatBool (HasPricing (CostInfoOf result));
  FormatBool (UnlimitedCost (CostInfoOf result));
  Sprintf_2f (EstimatedCost (CostInfoOf result));
  Currency (CostInfoOf result);
  PricingDetails (CostInfoOf result);
  Format (CheckedAt result);
  Error result
].

(** Lines 73-90: the loop over the results, with the records handed to
    [writer.Write] so far; it returns at the first record that
    [writer.Write] refuses. What it gives is the error and all the
    records handed over, a refused one included. *)
Fixpoint write_rows (handed : list (list string)) (results : list APIResult)
    : error * list (list string) :=
  match results with
  | [] => (None, handed)
  | result :: rest =>
      let row := csv_row result in
      match write_error handed row with
      | Some e => (Some ("failed to write CSV row: " +:+ e), handed ++ [row])
      | None => write_rows (handed ++ [row]) rest
      end
  end.

(** Lines 42-95: the error that [exportToCSV] returns and the calls it has
    made on the writer and the file when it returns; [create_error] is
    what [os.Create] returns. The two deferred calls run at every return
    that follows them, the later one first: [writer.Flush()] and then
    [file.Close()]. *)
Definition exportToCSV (create_error : error) (results : list APIResult)
    : error * list csv_call :=
  match create_error with
  | Some e => (Some ("failed to create CSV file: " +:+ e), [])
  | None =>
      let '(err, handed) :=
        match write_error [] csv_header with
        | Some e => (Some ("failed to write CSV header: " +:+ e), [csv_header])
        | None => write_rows [csv_header] results
        end in
      (err, (CallWrite <$> handed) ++ [CallFlush; CallClose])
  end.

(** Lines 196-215: the cells of one row of the table of the PDF. *)
Definition pdf_row (result : APIResult) : list string :=
  let apiName := truncate_name (DisplayName result) in
  let enabled := if Enabled result then "Yes" else "No" in
  let unlimited := if UnlimitedCost (CostInfoOf result) then "Yes" else "No" in
  let cost := "$" +:+ Sprintf_2f (EstimatedCost (CostInfoOf result)) in
  [apiName; Status result; enabled; cost; unlimited].
End ExportRows.

(** ** The names of the output files ([runChecker])

    [strings.Replace(s, old, new, 1)] of the Go library replaces the first
    occurrence of [old] in [s], if there is one. [Cut] splits a string at
    the first occurrence of a separator. *)

Fixpoint strip_prefix (p s : string) : option string :=
  match p, s with
  | EmptyString, _ => Some s
  | String a p', String b s' =>
      if Ascii.eqb a b then strip_prefix p' s' else None
  | String _ _, EmptyString => None
  end.

Fixpoint Cut (s sep : string) : option (string * string) :=
  match strip_prefix sep s with
  | Some after => Some (EmptyString, after)
  | None =>
      match s with
      | EmptyString => None
      | String c s' =>
          match Cut s' sep with
          | Some (before, after) => Some (String c before, after)
          | None => None
          end
      end
  end.

Definition Replace_first (s old new : string) : string :=
  match Cut s old with
  | Some (before, after) => before +:+ new +:+ after
  | None => s
  end.

Definition reportFile (output : string) : string :=
  Replace_first output ".json" "_report.json".

Definition htmlFile (output : string) : string :=
  Replace_first output ".json" "_report.html".

(** The files after [SaveResults], [SaveReport] and [generateHTMLReport]
    each created and wrote its file; [os.Create] truncates a file that
    exists. *)
Definition write_outputs (output results_json report_json html : string)
    (files : gmap string string) : gmap string string :=
  let files := <[output := results_json]> files in
  let files := <[reportFile output := report_json]> files in
  let files := <[htmlFile output := html]> files in
  files.

(** ** The live probe source (the [checker.go] that calls the Google
    services)

    This version of the file keeps [CheckAllAPIs], [worker] and
    [checkSingleAPI] as they are above and puts an HTTP client behind
    [getAvailableAPIs] and [isAPIEnabled]. The transport is not part of the
    program: [http.NewRequest], [client.Do] and the JSON decoder are
    parameters, and what is proved holds whatever they answer. *)

Module Live.

(** What [encoding/json] decodes into an [interface{}]. *)
#[warnings="-register-all"]
Inductive json :=
| JNull
| JBool (b : bool)
| JNumber (x : float64)
| JString (s : string)
| JArray (xs : list json)
| JObject (m : gmap string json).

Record Request := mkRequest {
  Method : string;
  URL : string;
  Header : list (string * string)
}.

Record Response := mkResponse {
  StatusCode : Z;
  Body : string
}.

(** Lines 35-42, without the client and the context. *)
Record GoogleAPIChecker := mkGoogleAPIChecker {
  token : string;
  projectID : string;
  threads : Z;
  useRealAPI : bool
}.

(** Lines 45-59. *)
Definition NewGoogleAPIChecker (token projectID : string) (threads : Z)
    : GoogleAPIChecker :=
  let useRealAPI := negb (String.eqb token "") in
  mkGoogleAPIChecker token projectID threads useRealAPI.

(** [strings.HasSuffix] and [strings.TrimSuffix] of the Go library. *)
Definition HasSuffix (s suffix : string) : bool :=
  (String.length suffix <=? String.length s)%nat &&
  String.eqb
    (String.substring (String.length s - String.length suffix)
       (String.length suffix) s)
    suffix.

Definition TrimSuffix (s suffix : string) : string :=
  if HasSuffix s suffix
  then String.substring 0 (String.length s - String.length suffix) s
  else s.

(** Lines 177-183. *)
Definition list_url (c : GoogleAPIChecker) : string :=
  if negb (String.eqb (projectID c) "") then
    "https://serviceusage.googleapis.com/v1/projects/" +:+ projectID c +:+
    "/services"
  else "https://www.googleapis.com/discovery/v1/apis".

(** Lines 337-343. *)
Definition check_url (c : GoogleAPIChecker) (apiName : string) : string :=
  if negb (String.eqb (projectID c) "") then
    "https://serviceusage.googleapis.com/v1/projects/" +:+ projectID c +:+
    "/services/" +:+ apiName
  else
    "https://www.googleapis.com/discovery/v1/apis/" +:+
    TrimSuffix apiName ".googleapis.com" +:+ "/v1".

(** The request after the two calls of [req.Header.Add]. *)
Definition request (c : GoogleAPIChecker) (url : string) : Request :=
  mkRequest "GET" url
    [("X-Goog-Api-Key", token c); ("Content-Type", "application/json")].

(** [name, ok := m["name"].(string)] on a decoded element that is a map. *)
Definition name_of (x : json) : option string :=
  match x with
  | JObject m =>
      match m !! "name" with
      | Some (JString name) => Some name
      | _ => None
      end
  | _ => None
  end.

(** Lines 210-218 and 221-229: the names of the elements of the array
    under [key], in its order; nothing when [key] holds no array. *)
Definition names_in (key : string) (result : gmap string json) : list string :=
  match result !! key with
  | Some (JArray xs) => omap name_of xs
  | _ => []
  end.

(** Lines 238-322. *)
Definition getAvailableAPIsStatic : list string * error :=
  let apis := [
    "compute.googleapis.com";
    "storage.googleapis.com";
    "bigquery.googleapis.com";
    "pubsub.googleapis.com";
    "cloudfunctions.googleapis.com";
    "cloudrun.googleapis.com";
    "container.googleapis.com";
    "datastore.googleapis.com";
    "firestore.googleapis.com";
    "cloudsql.googleapis.com";
    "cloudbuild.googleapis.com";
    "cloudtasks.googleapis.com";
    "cloudscheduler.googleapis.com";
    "cloudkms.googleapis.com";
    "cloudiot.googleapis.com";
    "cloudtrace.googleapis.com";
    "clouddebugger.googleapis.com";
    "cloudprofiler.googleapis.com";
    "cloudmonitoring.googleapis.com";
    "cloudlogging.googleapis.com";
    "translate.googleapis.com";
    "vision.googleapis.com";
    "speech.googleapis.com";
    "language.googleapis.com";
    "ml.googleapis.com";
    "automl.googleapis.com";
    "dataflow.googleapis.com";
    "dataproc.googleapis.com";
    "dataprep.googleapis.com";
    "datalab.googleapis.com";
    "datacatalog.googleapis.com";
    "datastudio.googleapis.com";
    "analytics.googleapis.com";
    "analyticsadmin.googleapis.com";
    "searchconsole.googleapis.com";
    "webmasters.googleapis.com";
    "indexing.googleapis.com";
    "customsearch.googleapis.com";
    "pagespeedonline.googleapis.com";
    "siteverification.googleapis.com";
    "websecurityscanner.googleapis.com";
    "clouderrorreporting.googleapis.com";
    "cloudresourcemanager.googleapis.com";
    "iam.googleapis.com";
    "serviceusage.googleapis.com";
    "cloudbilling.googleapis.com";
    "billingbudgets.googleapis.com";
    "recommender.googleapis.com";
    "recommendationengine.googleapis.com";
    "retail.googleapis.com";
    "documentai.googleapis.com";
    "videointelligence.googleapis.com";
    "gameservices.googleapis.com";
    "playablelocations.googleapis.com";
    "places.googleapis.com";
    "geocoding.googleapis.com";
    "geolocation.googleapis.com";
    "maps.googleapis.com";
    "directions.googleapis.com";
    "distancematrix.googleapis.com";
    "elevation.googleapis.com";
    "timezone.googleapis.com";
    "staticmap.googleapis.com";
    "streetview.googleapis.com";
    "roads.googleapis.com";
    "fcm.googleapis.com";
    "firebase.googleapis.com";
    "firebaseappcheck.googleapis.com";
    "firebaseauth.googleapis.com";
    "firebasehosting.googleapis.com";
    "firebaseml.googleapis.com";
    "firebaserules.googleapis.com";
    "firebasestorage.googleapis.com";
    "identitytoolkit.googleapis.com";
    "securetoken.googleapis.com";
    "appengine.googleapis.com";
    "cloudapis.googleapis.com"
  ] in
  (apis, None).

(** Lines 397-420: the body is that of [isAPIEnabled] of the simulated
    source, line for line. *)
Definition checkAPIEnabledSimulated (apiName : string) : bool * error :=
  Static.isAPIEnabled apiName.

Section Transport.
(** The error of [http.NewRequest("GET", url, nil)]. *)
Variable NewRequest_error : string -> error.
(** [c.client.Do]. *)
Variable Do : Request -> Response * error.
(** [json.NewDecoder(resp.Body).Decode(&result)]. *)
Variable Decode : string -> gmap string json * error.

(** Lines 174-235. *)
Definition getAvailableAPIsReal (c : GoogleAPIChecker) : list string * error :=
  let url := list_url c in
  match NewRequest_error url with
  | Some err => ([], Some ("failed to create request: " +:+ err))
  | None =>
      match Do (request c url) with
      | (_, Some err) => ([], Some ("failed to get API list: " +:+ err))
      | (resp, None) =>
          if negb (StatusCode resp =? 200) then
            ([], Some ("failed to get API list, status: " +:+
                       pretty (StatusCode resp)))
          else
            match Decode (Body resp) with
            | (_, Some err) =>
                ([], Some ("failed to parse API list response: " +:+ err))
            | (result, None) =>
                if negb (String.eqb (projectID c) "") then
                  (names_in "services" result, None)
                else
                  ((fun name => name +:+ ".googleapis.com") <$>
                     names_in "items" result, None)
            end
      end
  end.

(** Lines 163-171. *)
Definition getAvailableAPIs (c : GoogleAPIChecker) : list string * error :=
  if useRealAPI c then getAvailableAPIsReal c else getAvailableAPIsStatic.

(** Lines 334-394. *)
Definition checkAPIEnabledReal (c : GoogleAPIChecker) (apiName : string)
    : bool * error :=
  let url := check_url c apiName in
  match NewRequest_error url with
  | Some err => (false, Some ("failed to create request: " +:+ err))
  | None =>
      match Do (request c url) with
      | (_, Some err) => (false, Some ("failed to make API request: " +:+ err))
      | (resp, None) =>
          if negb (String.eqb (projectID c) "") then
            if StatusCode resp =? 200 then
              match Decode (Body resp) with
              | (_, Some err) =>
                  (false, Some ("failed to parse response: " +:+ err))
              | (result, None) =>
                  match result !! "state" with
                  | Some (JString state) => (String.eqb state "ENABLED", None)
                  | _ => (true, None)
                  end
              end
            else if StatusCode resp =? 404 then (false, None)
            else
              (false, Some ("API request failed with status: " +:+
                            pretty (StatusCode resp)))
          else
            if StatusCode resp =? 200 then (false, None)
            else if StatusCode resp =? 404 then (false, None)
            else
              (false, Some ("API request failed with status: " +:+
                            pretty (StatusCode resp)))
      end
  end.

(** Lines 323-331. *)
Definition isAPIEnabled (c : GoogleAPIChecker) (apiName : string)
    : bool * error :=
  if useRealAPI c then checkAPIEnabledReal c apiName
  else checkAPIEnabledSimulated apiName.
End Transport.

End Live.

(** The fields of a live checker that [CheckAllAPIs] reads. *)
Definition pool_checker (c : Live.GoogleAPIChecker) : GoogleAPIChecker :=
  mkChecker (Live.token c) (Live.threads c).

(** A transport for the examples: the Discovery service lists two items
    and a third element without a name, and answers 200 for the first
    item, 404 for the second and 500 for anything else; with a project,
    the Service Usage service reports a state for [compute] alone. *)
Definition discovery_items : gmap string Live.json :=
  {[ "kind" := Live.JString "discovery#directoryList";
     "items" := Live.JArray [
        Live.JObject {[ "name" := Live.JString "compute" ]};
        Live.JObject {[ "id" := Live.JString "nameless:v1" ]};
        Live.JObject {[ "name" := Live.JString "storage" ]} ] ]}.

Definition fixture_Do (req : Live.Request) : Live.Response * error :=
  let url := Live.URL req in
  if String.eqb url "https://www.googleapis.com/discovery/v1/apis"
  then (Live.mkResponse 200 "list", None)
  else if String.eqb url
            "https://www.googleapis.com/discovery/v1/apis/compute/v1"
  then (Live.mkResponse 200 "rest", None)
  else if String.eqb url
            "https://www.googleapis.com/discovery/v1/apis/storage/v1"
  then (Live.mkResponse 404 "", None)
  else if String.eqb url
            "https://serviceusage.googleapis.com/v1/projects/p1/services/compute.googleapis.com"
  then (Live.mkResponse 200 "state", None)
  else (Live.mkResponse 500 "", None).

Definition fixture_Decode (body : string) : gmap string Live.json * error :=
  if String.eqb body "list" then (discovery_items, None)
  else if String.eqb body "state"
  then ({[ "state" := Live.JString "ENABLED" ]}, None)
  else (∅, Some "unexpected end of JSON input").

Definition fixture_NewRequest_error (url : string) : error := None.

Definition no_project : Live.GoogleAPIChecker :=
  Live.NewGoogleAPIChecker "key" "" 1.

Definition with_project : Live.GoogleAPIChecker :=
  Live.NewGoogleAPIChecker "key" "p1" 1.

Definition simulated : Live.GoogleAPIChecker :=
  Live.NewGoogleAPIChecker "" "" 1.

Definition fixture_probe (c : Live.GoogleAPIChecker)
    : Time -> string -> APIResult :=
  checkSingleAPI
    (Live.isAPIEnabled fixture_NewRequest_error fixture_Do fixture_Decode c)
    Static.getAPIDisplayName Static.getCostInfo.

(** * Properties *)

Example probe_compute :
  Static.checkSingleAPI 7 "compute.googleapis.com" =
  mkAPIResult "compute.googleapis.com" "Compute Engine API" "ENABLED" true
    (mkCostInfo true false 150%float "USD"
       "Pay per use - $0.05 per hour for standard instances") 7 "".
Proof. vm_compute. reflexivity. Qed.

(** ** One probe *)

Section ProbeFacts.
Variable isAPIEnabled : string -> bool * error.
Variable getAPIDisplayName : string -> string.
Variable getCostInfo : string -> CostInfo * error.

Local Abbreviation probe :=
  (checkSingleAPI isAPIEnabled getAPIDisplayName getCostInfo).

Lemma checkSingleAPI_failure now a b e :
  isAPIEnabled a = (b, Some e) ->
  probe now a = mkAPIResult a "" "ERROR" false zero_CostInfo now e.
Proof. intros H. unfold checkSingleAPI. rewrite H. reflexivity. Qed.

Lemma checkSingleAPI_success now a b :
  isAPIEnabled a = (b, None) ->
  probe now a =
    mkAPIResult a (getAPIDisplayName a)
      (if b then "ENABLED" else "DISABLED") b
      (match getCostInfo a with
       | (_, Some _) => zero_CostInfo
       | (c, None) => c
       end) now "".
Proof.
  intros H. unfold checkSingleAPI. rewrite H.
  destruct (getCostInfo a) as [c [e|]]; destruct b; reflexivity.
Qed.

Lemma checkSingleAPI_cases now a :
  (exists b e, isAPIEnabled a = (b, Some e) /\
     probe now a = mkAPIResult a "" "ERROR" false zero_CostInfo now e) \/
  (exists b, isAPIEnabled a = (b, None) /\
     probe now a =
       mkAPIResult a (getAPIDisplayName a)
         (if b then "ENABLED" else "DISABLED") b
         (match getCostInfo a with
          | (_, Some _) => zero_CostInfo
          | (c, None) => c
          end) now "").
Proof.
  destruct (isAPIEnabled a) as [b [e|]] eqn:H.
  - left. exists b, e. split; [reflexivity|].
    exact (checkSingleAPI_failure now a b e H).
  - right. exists b. split; [reflexivity|].
    exact (checkSingleAPI_success now a b H).
Qed.

Lemma checkSingleAPI_Name now a : Name (probe now a) = a.
Proof.
  destruct (checkSingleAPI_cases now a) as [(b & e & _ & ->)|(b & _ & ->)];
    reflexivity.
Qed.

Lemma checkSingleAPI_status_iff :
  (forall a b e, isAPIEnabled a = (b, Some e) -> e <> "") ->
  forall now a, Status (probe now a) = "ERROR" <-> Error (probe now a) <> "".
Proof.
  intros Hmsg now a.
  destruct (checkSingleAPI_cases now a) as [(b & e & H & ->)|(b & H & ->)];
    cbn.
  - apply Hmsg in H. by split.
  - destruct b; by split.
Qed.

(** C10. The status fields of a probe result agree with one another:
    [Status] is one of "ENABLED", "DISABLED" and "ERROR"; it is "ERROR"
    exactly when [Error] is non-empty; and when [Error] is empty,
    [Enabled] is true exactly when [Status] is "ENABLED". The messages of
    the probe source's errors are non-empty (each is built by
    [fmt.Errorf] from a non-empty format). *)
Theorem checkSingleAPI_status_coherent :
  (forall a b e, isAPIEnabled a = (b, Some e) -> e <> "") ->
  forall now a,
    (Status (probe now a) = "ENABLED" \/
     Status (probe now a) = "DISABLED" \/
     Status (probe now a) = "ERROR") /\
    (Status (probe now a) = "ERROR" <-> Error (probe now a) <> "") /\
    (Error (probe now a) = "" ->
     (Enabled (probe now a) = true <-> Status (probe now a) = "ENABLED")).
Proof.
  intros Hmsg now a.
  destruct (checkSingleAPI_cases now a) as [(b & e & H & ->)|(b & H & ->)];
    simpl.
  - apply Hmsg in H. repeat split; auto; try done.
  - destruct b; repeat split; auto; try done.
Qed.
End ProbeFacts.

(** The coherence of the status fields, on a source that fails and on the
    simulated source. *)
Lemma checkSingleAPI_status_coherent_witness :
  Status (checkSingleAPI unreachable_isAPIEnabled Static.getAPIDisplayName
            Static.getCostInfo 0 "compute.googleapis.com") = "ERROR" <->
  Error (checkSingleAPI unreachable_isAPIEnabled Static.getAPIDisplayName
            Static.getCostInfo 0 "compute.googleapis.com") <> "".
Proof.
  apply (checkSingleAPI_status_coherent unreachable_isAPIEnabled
           Static.getAPIDisplayName Static.getCostInfo).
  intros a b e H. unfold unreachable_isAPIEnabled in H.
  inversion H. discriminate.
Defined.

(** ** The simulated source *)

Lemma map_literal_Some {V} (kvs : list (string * V)) k v :
  map_literal kvs !! k = Some v -> (k, v) ∈ kvs.
Proof. apply elem_of_list_to_map_2. Qed.

Lemma costData_priced :
  Forall (fun kc : string * CostInfo =>
            HasPricing kc.2 = true /\ PricingDetails kc.2 <> "" /\
            PricingDetails kc.2 <> "No pricing information available")
    Static.costData.
Proof. unfold Static.costData. repeat constructor; simpl; discriminate. Qed.

Lemma getCostInfo_cases a :
  Static.getCostInfo a = (Static.default_CostInfo, None) \/
  exists c, Static.getCostInfo a = (c, None) /\ HasPricing c = true /\
    PricingDetails c <> "" /\
    PricingDetails c <> "No pricing information available".
Proof.
  unfold Static.getCostInfo.
  destruct (map_literal Static.costData !! a) as [c|] eqn:H; [right|by left].
  exists c. split; [reflexivity|].
  apply map_literal_Some in H.
  pose proof costData_priced as Hall. rewrite Forall_forall in Hall.
  apply (Hall (a, c)), H.
Qed.

(** C8. A probe result has no pricing exactly when its other cost fields
    hold their zero or default values and it carries no unlimited-cost
    risk. *)
Theorem probe_no_pricing_iff_default
    (isAPIEnabled : string -> bool * error)
    (getAPIDisplayName : string -> string) (now : Time) (a : string) :
  let c := CostInfoOf (checkSingleAPI isAPIEnabled getAPIDisplayName
                         Static.getCostInfo now a) in
  HasPricing c = false <->
  (cost_fields_default c /\ UnlimitedCost c = false).
Proof.
  intros c. subst c.
  destruct (checkSingleAPI_cases isAPIEnabled getAPIDisplayName
              Static.getCostInfo now a) as [(b & e & _ & ->)|(b & _ & ->)];
    cbn [CostInfoOf].
  - unfold cost_fields_default; cbn. repeat split; auto.
  - destruct (getCostInfo_cases a) as [->|(c & -> & Hp & Hd1 & Hd2)].
    + unfold cost_fields_default; cbn. repeat split; auto.
    + rewrite Hp. split; [discriminate|].
      intros [(_ & _ & [Hd|Hd]) _]; contradiction.
Qed.

(** C9. When the enable check of an identifier fails, the result carries
    an empty [DisplayName], though the identifier has the display name
    "Compute Engine API". *)
Theorem checkSingleAPI_errored_has_no_display_name :
  Static.getAPIDisplayName "compute.googleapis.com" = "Compute Engine API" /\
  checkSingleAPI unreachable_isAPIEnabled Static.getAPIDisplayName
    Static.getCostInfo 0 "compute.googleapis.com" =
  mkAPIResult "compute.googleapis.com" "" "ERROR" false zero_CostInfo 0
    "failed to make API request: connection refused".
Proof. split; vm_compute; reflexivity. Qed.

(** On the path without a failure the display name is the mapped name when
    the identifier has one, and the identifier otherwise. *)
Lemma checkSingleAPI_display_name_success isAPIEnabled getCostInfo now a b :
  isAPIEnabled a = (b, None) ->
  DisplayName (checkSingleAPI isAPIEnabled Static.getAPIDisplayName
                 getCostInfo now a) =
  default a (map_literal Static.displayNames !! a).
Proof.
  intros H. erewrite checkSingleAPI_success by eassumption.
  cbn [DisplayName].
  unfold Static.getAPIDisplayName.
  by destruct (map_literal Static.displayNames !! a).
Qed.

(** ** The worker pool *)

Lemma worker_measure_insert ws i w w' :
  ws !! i = Some w ->
  (sum_list (worker_measure <$> <[i := w']> ws) + worker_measure w =
   sum_list (worker_measure <$> ws) + worker_measure w')%nat.
Proof.
  revert i. induction ws as [|x ws IH]; intros [|i] H; simplify_eq/=.
  - lia.
  - specialize (IH i H). lia.
Qed.

Lemma in_hand_insert ws i w w' :
  ws !! i = Some w ->
  in_hand w ++ (<[i := w']> ws ≫= in_hand) ≡ₚ in_hand w' ++ (ws ≫= in_hand).
Proof.
  revert i. induction ws as [|x ws IH]; intros [|i] H; simplify_eq/=.
  - solve_Permutation.
  - specialize (IH i H).
    change (in_hand w ++ (in_hand x ++ (<[i := w']> ws ≫= in_hand)) ≡ₚ
            in_hand w' ++ (in_hand x ++ (ws ≫= in_hand))).
    rewrite (Permutation_app_swap_app (in_hand w)), IH.
    solve_Permutation.
Qed.

Lemma in_hand_exited ws :
  Forall (fun w => w = Exited) ws -> ws ≫= in_hand = [].
Proof. induction 1 as [|w ws -> _ IH]; [reflexivity|exact IH]. Qed.

Lemma in_hand_replicate n : replicate n AtRange ≫= in_hand = [].
Proof. induction n; [reflexivity|assumption]. Qed.

Lemma elem_of_insert_inv {A} (l : list A) i x y :
  y ∈ <[i := x]> l -> y = x \/ y ∈ l.
Proof.
  revert i. induction l as [|a l IH]; intros [|i] H; simpl in H.
  - by right.
  - by right.
  - apply elem_of_cons in H as [->|H]; [by left|].
    right. by apply elem_of_cons; right.
  - apply elem_of_cons in H as [->|H].
    + right. by apply elem_of_cons; left.
    + destruct (IH i H) as [->|H']; [by left|].
      right. by apply elem_of_cons; right.
Qed.

Lemma worker_cases ws :
  (exists i result, ws !! i = Some (Sending result)) \/
  (exists i, ws !! i = Some AtRange) \/
  Forall (fun w => w = Exited) ws.
Proof.
  induction ws as [|w ws IH]; [by right; right|].
  destruct w as [|result|].
  - right; left. by exists 0%nat.
  - left. by exists 0%nat, result.
  - destruct IH as [(i & r & H)|[(i & H)|H]].
    + left. by exists (S i), r.
    + right; left. by exists (S i).
    + right; right. by constructor.
Qed.

Section PoolFacts.
Variable isAPIEnabled : string -> bool * error.
Variable getAPIDisplayName : string -> string.
Variable getCostInfo : string -> CostInfo * error.

Local Abbreviation probe :=
  (checkSingleAPI isAPIEnabled getAPIDisplayName getCostInfo).
Local Abbreviation pstep :=
  (step isAPIEnabled getAPIDisplayName getCostInfo).
Local Abbreviation probed :=
  (probed isAPIEnabled getAPIDisplayName getCostInfo).
Local Abbreviation worker_probed :=
  (worker_probed isAPIEnabled getAPIDisplayName getCostInfo).
Local Abbreviation pool_inv :=
  (pool_inv isAPIEnabled getAPIDisplayName getCostInfo).

Lemma probed_probe now a : probed (probe now a).
Proof. exists now. by rewrite checkSingleAPI_Name. Qed.

Lemma step_measure p p' :
  pstep p p' -> (pool_measure p' < pool_measure p)%nat.
Proof.
  destruct 1; unfold pool_measure; cbn [unsent jobs workers results
    jobs_closed results_closed returned];
    rewrite ?length_app; cbn [length];
    try match goal with
        | H : ?ws !! ?i = Some ?w |- context [<[?i := ?w']> ?ws] =>
            pose proof (worker_measure_insert ws i w w' H);
            cbn [worker_measure] in *
        end;
    repeat case_match; lia.
Qed.

Lemma nsteps_measure n p p' :
  nsteps pstep n p p' -> (n + pool_measure p' <= pool_measure p)%nat.
Proof.
  induction 1 as [|n p q r Hstep _ IH]; [lia|].
  apply step_measure in Hstep. lia.
Qed.

Lemma init_pool_inv apis n : pool_inv apis n (init_pool apis n).
Proof.
  split; cbn; try done.
  - unfold accounted; cbn. rewrite in_hand_replicate. cbn.
    by rewrite app_nil_r.
  - intros H. by apply elem_of_replicate_inv in H.
  - by rewrite length_replicate.
  - apply Forall_replicate. exact I.
Qed.

Lemma step_inv apis n p p' :
  pool_inv apis n p -> pstep p p' -> pool_inv apis n p'.
Proof.
  intros [Hcap Hacc Hjc Hex Hrc Hret Hlen Hrs Hall Hws Hcur] Hstep.
  destruct Hstep; cbn in *; (split; cbn; auto; try done).
  - (* the producer sends *)
    rewrite <- Hacc. solve_Permutation.
  - intros Hx. by destruct (Hex Hx).
  - (* the producer closes jobs *)
    intros Hx. by destruct (Hex Hx).
  - (* a worker receives *)
    rewrite <- Hacc.
    pose proof (in_hand_insert ws i AtRange
                  (Sending (probe now apiName)) H) as Hin.
    cbn in Hin. rewrite Hin, checkSingleAPI_Name. solve_Permutation.
  - intros Hin. apply elem_of_insert_inv in Hin as [?|Hin]; [done|].
    by destruct (Hex Hin).
  - intros Hc. specialize (Hrc Hc).
    by pose proof (Forall_lookup_1 _ _ _ _ Hrc H).
  - by rewrite length_insert.
  - apply Forall_insert; [done|]. apply probed_probe.
  - (* a worker sends *)
    rewrite <- Hacc.
    pose proof (in_hand_insert ws i (Sending result) AtRange H) as Hin.
    cbn in Hin. rewrite fmap_app. cbn. rewrite <- Hin. solve_Permutation.
  - intros Hin. apply elem_of_insert_inv in Hin as [?|Hin]; [done|].
    by apply Hex.
  - intros Hc. specialize (Hrc Hc).
    by pose proof (Forall_lookup_1 _ _ _ _ Hrc H).
  - intros Hr. destruct (Hret Hr) as [Hc _]. specialize (Hrc Hc).
    by pose proof (Forall_lookup_1 _ _ _ _ Hrc H).
  - by rewrite length_insert.
  - apply Forall_app; split; [done|]. constructor; [|done].
    exact (Forall_lookup_1 _ _ _ _ Hws H).
  - by apply Forall_insert.
  - (* a worker leaves its loop *)
    rewrite <- Hacc.
    pose proof (in_hand_insert ws i AtRange Exited H) as Hin.
    cbn in Hin. by rewrite Hin.
  - intros Hc. specialize (Hrc Hc). by apply Forall_insert.
  - by rewrite length_insert.
  - by apply Forall_insert.
  - (* results is closed *)
    intros Hr. by destruct (Hret Hr).
  - (* the collector receives *)
    rewrite <- Hacc. rewrite fmap_app. cbn. solve_Permutation.
  - by inversion Hrs.
  - apply Forall_app; split; [done|]. constructor; [|done].
    by inversion Hrs.
  - unfold len in *. rewrite length_app. cbn. lia.
Qed.

Lemma reachable_inv apis n p :
  rtc pstep (init_pool apis n) p -> pool_inv apis n p.
Proof.
  revert p. apply rtc_ind_r.
  - apply init_pool_inv.
  - intros p q _ Hstep Hinv. exact (step_inv apis n p q Hinv Hstep).
Qed.

Lemma inv_lengths apis n p :
  pool_inv apis n p ->
  (length (unsent p) + length (jobs p) + length (workers p ≫= in_hand)
   + length (results p) + length (allResults p) = length apis)%nat.
Proof.
  intros Hinv. rewrite <- (Permutation_length (inv_accounted _ _ _ _ _ _ Hinv)).
  unfold accounted. rewrite !length_app, !length_fmap. lia.
Qed.

Lemma in_hand_sending ws i result :
  ws !! i = Some (Sending result) -> (1 <= length (ws ≫= in_hand))%nat.
Proof.
  intros H. pose proof (in_hand_insert ws i _ Exited H) as Hin.
  apply Permutation_length in Hin. cbn in Hin. lia.
Qed.

(** A pool whose collector has not returned can take a step. *)
Lemma pool_progress apis n p :
  pool_inv apis n p -> returned p = false -> exists p', pstep p p'.
Proof.
  intros Hinv Hret. pose proof (inv_lengths apis n p Hinv) as Hlen.
  pose proof (inv_capacity _ _ _ _ _ _ Hinv) as Hcap.
  pose proof (inv_jobs_closed _ _ _ _ _ _ Hinv) as Hjc.
  destruct p as [cap us js jc ws rs rc all cur ret]; cbn in *; subst ret.
  destruct us as [|api us].
  - destruct jc; [|eexists; apply step_close_jobs].
    destruct (worker_cases ws) as [(i & result & Hi)|[(i & Hi)|Hex]].
    + apply in_hand_sending in Hi as Hone.
      eexists. eapply step_worker_send; [exact Hi|lia].
    + destruct js as [|apiName js].
      * eexists. eapply step_worker_exit. exact Hi.
      * eexists. eapply (step_worker_receive _ _ _ _ _ _ _ _ _ _ 0).
        exact Hi.
    + destruct rc; [|eexists; by apply step_close_results].
      destruct rs as [|result rs].
      * eexists. apply step_return.
      * eexists. apply step_collect.
  - destruct jc; [by specialize (Hjc eq_refl)|].
    eexists. apply step_send_job. cbn in Hlen. lia.
Qed.

(** Every reachable pool runs on to the return of the collector. *)
Lemma pool_completes apis n p :
  pool_inv apis n p -> exists p', rtc pstep p p' /\ returned p' = true.
Proof.
  remember (pool_measure p) as m eqn:Hm. revert p Hm.
  induction m as [m IH] using lt_wf_ind. intros p -> Hinv.
  destruct (returned p) eqn:Hret.
  - exists p. split; [apply rtc_refl|exact Hret].
  - destruct (pool_progress apis n p Hinv Hret) as [q Hstep].
    destruct (IH (pool_measure q) (step_measure p q Hstep) q eq_refl
                (step_inv apis n p q Hinv Hstep)) as (p' & Hrun & Hdone).
    exists p'. split; [|exact Hdone]. by eapply rtc_l.
Qed.

(** With one worker or more, the returned slice holds one result for
    each entry of the catalogue. *)
Lemma pool_returned apis n p :
  pool_inv apis n p -> 1 <= n -> returned p = true ->
  Name <$> allResults p ≡ₚ apis /\
  length (allResults p) = length apis /\
  Forall probed (allResults p) /\
  current p = len apis.
Proof.
  intros Hinv Hn Hret.
  destruct (inv_returned _ _ _ _ _ _ Hinv Hret) as [Hrc Hrs].
  pose proof (inv_results_closed _ _ _ _ _ _ Hinv Hrc) as Hex.
  assert (Exited ∈ workers p) as Hin.
  { pose proof (inv_workers _ _ _ _ _ _ Hinv) as Hlen.
    destruct (workers p) as [|w ws]; [cbn in Hlen; lia|].
    inversion Hex; subst. apply elem_of_cons. by left. }
  destruct (inv_exited _ _ _ _ _ _ Hinv Hin) as [Hjc Hjs].
  pose proof (inv_jobs_closed _ _ _ _ _ _ Hinv Hjc) as Hus.
  pose proof (inv_accounted _ _ _ _ _ _ Hinv) as Hacc.
  unfold accounted in Hacc.
  rewrite Hus, Hjs, Hrs, (in_hand_exited _ Hex) in Hacc. cbn in Hacc.
  assert (length (allResults p) = length apis) as Hlen.
  { rewrite <- (Permutation_length Hacc). by rewrite length_fmap. }
  repeat split; [exact Hacc|exact Hlen|exact (inv_all_probed _ _ _ _ _ _ Hinv)|].
  rewrite (inv_current _ _ _ _ _ _ Hinv). unfold len. by rewrite Hlen.
Qed.
End PoolFacts.

(** ** One call of [CheckAllAPIs] *)

Section RunFacts.
Variable getAvailableAPIs : list string * error.
Variable isAPIEnabled : string -> bool * error.
Variable getAPIDisplayName : string -> string.
Variable getCostInfo : string -> CostInfo * error.

Local Abbreviation probe :=
  (checkSingleAPI isAPIEnabled getAPIDisplayName getCostInfo).
Local Abbreviation pstep :=
  (step isAPIEnabled getAPIDisplayName getCostInfo).
Local Abbreviation rstep :=
  (run_step isAPIEnabled getAPIDisplayName getCostInfo).
Local Abbreviation probed :=
  (probed isAPIEnabled getAPIDisplayName getCostInfo).
Local Abbreviation start := (CheckAllAPIs_start getAvailableAPIs).

Lemma run_of_pool p p' : rtc pstep p p' -> rtc rstep (Running p) (Running p').
Proof.
  induction 1 as [|p q r Hstep _ IH]; [apply rtc_refl|].
  eapply rtc_l; [apply run_pool, Hstep|exact IH].
Qed.

Lemma pool_of_run p r :
  rtc rstep (Running p) r -> exists p', r = Running p' /\ rtc pstep p p'.
Proof.
  revert r. apply rtc_ind_r.
  - exists p. split; [reflexivity|apply rtc_refl].
  - intros r r' _ Hstep (q & -> & Hrun). inversion Hstep; subst.
    eexists. split; [reflexivity|]. by eapply rtc_r.
Qed.

Lemma failed_is_final e r : rtc rstep (Failed e) r -> r = Failed e.
Proof. intros H. inversion H as [|? ? ? Hstep]; [done|inversion Hstep]. Qed.

Lemma run_nsteps_measure k r r' :
  nsteps rstep k r r' -> (k + run_measure r' <= run_measure r)%nat.
Proof.
  induction 1 as [|k r q r' Hstep _ IH]; [lia|].
  destruct Hstep as [p p' Hstep]. apply step_measure in Hstep.
  cbn in *. lia.
Qed.

Lemma start_cases c :
  (exists apis e, getAvailableAPIs = (apis, Some e) /\
     start c = Failed ("failed to get available APIs: " +:+ e)) \/
  (exists apis, getAvailableAPIs = (apis, None) /\
     start c = Running (init_pool apis (threads c))).
Proof.
  unfold CheckAllAPIs_start. destruct getAvailableAPIs as [apis [e|]].
  - left. by exists apis, e.
  - right. by exists apis.
Qed.

(** When the listing succeeded, a call runs on to a return without an
    error, whatever the probes answered. *)
Lemma run_completes c r :
  getAvailableAPIs.2 = None -> rtc rstep (start c) r ->
  exists r' rs, rtc rstep r r' /\ returns r' = Some (rs, None).
Proof.
  intros Hok Hrun.
  destruct (start_cases c) as [(apis & e & Hget & _)|(apis & _ & Hstart)].
  { rewrite Hget in Hok. discriminate. }
  rewrite Hstart in Hrun.
  apply pool_of_run in Hrun as (p & -> & Hrun).
  apply reachable_inv in Hrun.
  destruct (pool_completes _ _ _ _ _ _ Hrun) as (p' & Hp' & Hdone).
  exists (Running p'), (allResults p'). split; [by apply run_of_pool|].
  cbn. by rewrite Hdone.
Qed.

(** With one worker or more, what a call returns is [nil] for the error
    and one probed result for each entry of the catalogue. *)
Lemma run_returned c apis r rs err :
  getAvailableAPIs = (apis, None) -> 1 <= threads c ->
  rtc rstep (start c) r -> returns r = Some (rs, err) ->
  err = None /\ Name <$> rs ≡ₚ apis /\ length rs = length apis /\
  Forall probed rs.
Proof.
  intros Hget Hn Hrun Hret.
  unfold CheckAllAPIs_start in Hrun. rewrite Hget in Hrun.
  apply pool_of_run in Hrun as (p & -> & Hrun).
  apply reachable_inv in Hrun. cbn in Hret.
  destruct (returned p) eqn:Hdone; [|discriminate].
  injection Hret as <- <-.
  destruct (pool_returned _ _ _ _ _ _ Hrun Hn Hdone)
    as (Hperm & Hlen & Hprobed & _).
  by repeat split.
Qed.

(** C1. Whatever the catalogue of [M] identifiers and the number [N] of
    workers with [1 <= N <= M], and however the goroutines interleave: a
    call of [CheckAllAPIs] can always run on to its return, no run takes
    more than [run_measure] steps, and what it returns is [nil] for the
    error and [M] results, one for each entry of the catalogue, each the
    probe of its identifier. *)
Theorem CheckAllAPIs_exactly_once c apis :
  getAvailableAPIs = (apis, None) ->
  1 <= threads c <= len apis ->
  forall r, rtc rstep (start c) r ->
    (exists r' rs, rtc rstep r r' /\ returns r' = Some (rs, None)) /\
    (forall k r', nsteps rstep k r r' -> (k <= run_measure r)%nat) /\
    (forall rs err, returns r = Some (rs, err) ->
       err = None /\
       Name <$> rs ≡ₚ apis /\
       length rs = length apis /\
       (NoDup apis -> NoDup (Name <$> rs)) /\
       Forall probed rs).
Proof.
  intros Hget [Hn _] r Hrun. split; [|split].
  - apply (run_completes c r); [by rewrite Hget|exact Hrun].
  - intros k r' Hk. apply run_nsteps_measure in Hk. lia.
  - intros rs err Hret.
    destruct (run_returned c apis r rs err Hget Hn Hrun Hret)
      as (Herr & Hperm & Hlen & Hprobed).
    repeat split; try done.
    intros Hnd. by rewrite Hperm.
Qed.

(** C6. A failure of the enable check of one item becomes a result with
    the status "ERROR" that carries the message, and the call goes on:
    [CheckAllAPIs] returns an error only when the listing of the
    catalogue failed, and then it has made no pool and taken no step;
    when the listing succeeded it runs on to a return without an error.
    In every result it returns, the status is "ERROR" exactly when
    [Error] is non-empty, the messages of the probe source's errors being
    non-empty. *)
Theorem probe_failure_is_local :
  (forall now a b e, isAPIEnabled a = (b, Some e) ->
     probe now a = mkAPIResult a "" "ERROR" false zero_CostInfo now e) /\
  (forall c r rs e, rtc rstep (start c) r ->
     returns r = Some (rs, Some e) ->
     (exists e0, getAvailableAPIs.2 = Some e0) /\ r = start c /\ rs = []) /\
  (forall c r, getAvailableAPIs.2 = None -> rtc rstep (start c) r ->
     exists r' rs, rtc rstep r r' /\ returns r' = Some (rs, None)) /\
  ((forall a b e, isAPIEnabled a = (b, Some e) -> e <> "") ->
   (forall now a,
      Status (probe now a) = "ERROR" <-> Error (probe now a) <> "") /\
   (forall c r rs err, rtc rstep (start c) r ->
      returns r = Some (rs, err) ->
      Forall (fun x => Status x = "ERROR" <-> Error x <> "") rs)).
Proof.
  split; [|split; [|split]].
  - intros now a b e. apply checkSingleAPI_failure.
  - intros c r rs e Hrun Hret.
    destruct (start_cases c) as [(apis & e0 & Hget & Hstart)|(apis & _ & Hstart)].
    + rewrite Hstart in Hrun. apply failed_is_final in Hrun as ->.
      cbn in Hret. injection Hret as <- _.
      split; [exists e0; by rewrite Hget|]. by split.
    + rewrite Hstart in Hrun. apply pool_of_run in Hrun as (p & -> & _).
      cbn in Hret. destruct (returned p); discriminate.
  - intros c r. apply run_completes.
  - intros Hmsg.
    assert (forall now a,
              Status (probe now a) = "ERROR" <-> Error (probe now a) <> "")
      as Hiff.
    { intros now a.
      apply (checkSingleAPI_status_iff isAPIEnabled getAPIDisplayName
               getCostInfo Hmsg). }
    split; [exact Hiff|].
    intros c r rs err Hrun Hret.
    destruct (start_cases c) as [(apis & e0 & _ & Hstart)|(apis & _ & Hstart)];
      rewrite Hstart in Hrun.
    + apply failed_is_final in Hrun as ->. cbn in Hret.
      injection Hret as <- _. constructor.
    + apply pool_of_run in Hrun as (p & -> & Hrun).
      apply reachable_inv in Hrun. cbn in Hret.
      destruct (returned p); [|discriminate]. injection Hret as <- _.
      eapply Forall_impl; [exact (inv_all_probed _ _ _ _ _ _ Hrun)|].
      intros x [now ->]. apply Hiff.
Qed.
End RunFacts.

(** ** The catalogue of the simulated source *)

(** C7. The catalogue of [getAvailableAPIs] lists
    "videointelligence.googleapis.com" at the indices 51 and 52, so its
    identifiers are not pairwise distinct, and with one worker or more the
    result set of every call has an identifier twice. *)
Theorem getAvailableAPIs_repeats :
  Static.getAvailableAPIs.1 !! 51%nat = Some "videointelligence.googleapis.com" /\
  Static.getAvailableAPIs.1 !! 52%nat = Some "videointelligence.googleapis.com" /\
  ~ NoDup Static.getAvailableAPIs.1 /\
  (forall c r rs err, 1 <= threads c ->
     rtc (run_step Static.isAPIEnabled Static.getAPIDisplayName
            Static.getCostInfo)
       (CheckAllAPIs_start Static.getAvailableAPIs c) r ->
     returns r = Some (rs, err) -> ~ NoDup (Name <$> rs)).
Proof.
  assert (~ NoDup Static.getAvailableAPIs.1) as Hdup.
  { intros Hnd. rewrite NoDup_alt in Hnd.
    specialize (Hnd 51%nat 52%nat "videointelligence.googleapis.com"
                  eq_refl eq_refl).
    discriminate. }
  split; [reflexivity|]. split; [reflexivity|]. split; [exact Hdup|].
  intros c r rs err Hn Hrun Hret Hnd. apply Hdup.
  destruct (run_returned Static.getAvailableAPIs Static.isAPIEnabled
              Static.getAPIDisplayName Static.getCostInfo c
              Static.getAvailableAPIs.1 r rs err eq_refl Hn Hrun Hret)
    as (_ & Hperm & _).
  by rewrite <- Hperm.
Qed.

(** Without a worker the call returns an empty slice and leaves the
    catalogue unsent: the bound [1 <= N] of C1 is needed. *)
Example no_worker_no_result :
  rtc (run_step Static.isAPIEnabled Static.getAPIDisplayName Static.getCostInfo)
    (CheckAllAPIs_start two_apis (NewGoogleAPIChecker "" 0))
    (Running (mkPool 2 ["compute.googleapis.com"; "pubsub.googleapis.com"] []
                false [] [] true [] 0 true)).
Proof.
  apply run_of_pool.
  change (init_pool two_apis.1 (threads (NewGoogleAPIChecker "" 0)))
    with (mkPool 2 ["compute.googleapis.com"; "pubsub.googleapis.com"] []
            false [] [] false [] 0 false).
  eapply rtc_l; [apply step_close_results; constructor|].
  eapply rtc_l; [apply step_return|].
  apply rtc_refl.
Qed.

(** A run of two workers over two identifiers in which the second worker
    delivers before the first. *)
Lemma two_workers_run :
  rtc (run_step Static.isAPIEnabled Static.getAPIDisplayName Static.getCostInfo)
    (CheckAllAPIs_start two_apis (NewGoogleAPIChecker "" 2))
    (Running two_workers_done).
Proof.
  apply run_of_pool. unfold two_workers_done, Static.checkSingleAPI.
  change (init_pool two_apis.1 (threads (NewGoogleAPIChecker "" 2)))
    with (mkPool 2 ["compute.googleapis.com"; "pubsub.googleapis.com"] []
            false [AtRange; AtRange] [] false [] 0 false).
  eapply rtc_l; [apply step_send_job; cbn; lia|].
  eapply rtc_l; [apply step_send_job; cbn; lia|].
  eapply rtc_l; [apply step_close_jobs|].
  eapply rtc_l; [apply (step_worker_receive _ _ _ _ _ _ _ _ _ 0%nat 1);
                 reflexivity|].
  eapply rtc_l; [apply (step_worker_receive _ _ _ _ _ _ _ _ _ 1%nat 2);
                 reflexivity|].
  eapply rtc_l; [apply (step_worker_send _ _ _ _ _ _ _ _ 1%nat);
                 [reflexivity|cbn; lia]|].
  eapply rtc_l; [apply (step_worker_send _ _ _ _ _ _ _ _ 0%nat);
                 [reflexivity|cbn; lia]|].
  eapply rtc_l; [apply (step_worker_exit _ _ _ _ _ _ 0%nat); reflexivity|].
  eapply rtc_l; [apply (step_worker_exit _ _ _ _ _ _ 1%nat); reflexivity|].
  eapply rtc_l; [apply step_close_results; by repeat constructor|].
  eapply rtc_l; [apply step_collect|].
  eapply rtc_l; [apply step_collect|].
  eapply rtc_l; [apply step_return|].
  apply rtc_refl.
Qed.

(** The run above returns one result for each of the two identifiers. *)
Lemma CheckAllAPIs_exactly_once_witness :
  Name <$> allResults two_workers_done ≡ₚ two_apis.1.
Proof.
  destruct (CheckAllAPIs_exactly_once two_apis Static.isAPIEnabled
              Static.getAPIDisplayName Static.getCostInfo
              (NewGoogleAPIChecker "" 2) two_apis.1 eq_refl
              ltac:(unfold len; cbn; lia)
              (Running two_workers_done) two_workers_run) as (_ & _ & H).
  destruct (H (allResults two_workers_done) None eq_refl) as (_ & Hperm & _).
  exact Hperm.
Defined.

(** With a source whose every enable check fails, the call still returns
    one result for each identifier, and no error. *)
Example failing_probes_run :
  rtc (run_step unreachable_isAPIEnabled Static.getAPIDisplayName
         Static.getCostInfo)
    (CheckAllAPIs_start two_apis (NewGoogleAPIChecker "" 1))
    (Running both_failed) /\
  returns (Running both_failed) = Some (allResults both_failed, None).
Proof.
  split; [|reflexivity].
  apply run_of_pool. unfold both_failed.
  change (init_pool two_apis.1 (threads (NewGoogleAPIChecker "" 1)))
    with (mkPool 2 ["compute.googleapis.com"; "pubsub.googleapis.com"] []
            false [AtRange] [] false [] 0 false).
  eapply rtc_l; [apply step_send_job; cbn; lia|].
  eapply rtc_l; [apply step_send_job; cbn; lia|].
  eapply rtc_l; [apply step_close_jobs|].
  eapply rtc_l; [apply (step_worker_receive _ _ _ _ _ _ _ _ _ 0%nat 1);
                 reflexivity|].
  eapply rtc_l; [apply (step_worker_send _ _ _ _ _ _ _ _ 0%nat);
                 [reflexivity|cbn; lia]|].
  eapply rtc_l; [apply (step_worker_receive _ _ _ _ _ _ _ _ _ 0%nat 2);
                 reflexivity|].
  eapply rtc_l; [apply (step_worker_send _ _ _ _ _ _ _ _ 0%nat);
                 [reflexivity|cbn; lia]|].
  eapply rtc_l; [apply (step_worker_exit _ _ _ _ _ _ 0%nat); reflexivity|].
  eapply rtc_l; [apply step_close_results; by repeat constructor|].
  eapply rtc_l; [apply step_collect|].
  eapply rtc_l; [apply step_collect|].
  eapply rtc_l; [apply step_return|].
  apply rtc_refl.
Qed.

(** ** The order of [float64] and of [string] *)

Lemma SFltb_lex a b :
  a <> S754_nan -> b <> S754_nan ->
  (SFltb a b = true <-> lex_lt (SFkey a) (SFkey b)).
Proof.
  intros Ha Hb. unfold SFltb, lex_lt.
  destruct a as [sa|sa| |sa ma ea], b as [sb|sb| |sb mb eb]; try done;
    try destruct sa; try destruct sb; cbn; try (split; [done|lia]);
    try (split; [lia|done]).
  all: destruct (Z.compare_spec ea eb); cbn;
       try (split; [done|lia]); try (split; [lia|done]).
  all: change (Pos.compare_cont Eq ma mb) with (Pos.compare ma mb);
       destruct (Pos.compare_spec ma mb); cbn;
       try (split; [done|lia]); try (split; [lia|done]).
Qed.

Lemma SFleb_lex a b :
  a <> S754_nan -> b <> S754_nan ->
  (SFleb a b = true <-> ~ lex_lt (SFkey b) (SFkey a)).
Proof.
  intros Ha Hb. unfold SFleb, lex_lt.
  destruct a as [sa|sa| |sa ma ea], b as [sb|sb| |sb mb eb]; try done;
    try destruct sa; try destruct sb; cbn; try (split; [lia|done]);
    try (split; [done|lia]).
  all: destruct (Z.compare_spec ea eb); cbn;
       try (split; [done|lia]); try (split; [lia|done]).
  all: change (Pos.compare_cont Eq ma mb) with (Pos.compare ma mb);
       destruct (Pos.compare_spec ma mb); cbn;
       try (split; [done|lia]); try (split; [lia|done]).
Qed.

Lemma ltb_is_number x y :
  PrimFloat.ltb x y = true -> is_number x /\ is_number y.
Proof.
  rewrite ltb_spec. unfold is_number, SFltb.
  destruct (Prim2SF x), (Prim2SF y); cbn; try done.
Qed.

Lemma ltb_lex x y :
  is_number x -> is_number y ->
  (PrimFloat.ltb x y = true <-> lex_lt (SFkey (Prim2SF x)) (SFkey (Prim2SF y))).
Proof. intros Hx Hy. rewrite ltb_spec. by apply SFltb_lex. Qed.

Lemma ltb_irrefl x : PrimFloat.ltb x x = false.
Proof.
  destruct (PrimFloat.ltb x x) eqn:H; [|done].
  destruct (ltb_is_number _ _ H) as [Hx _].
  apply ltb_lex in H; [|done..]. unfold lex_lt in H. lia.
Qed.

Lemma ltb_trans x y z :
  PrimFloat.ltb x y = true -> PrimFloat.ltb y z = true ->
  PrimFloat.ltb x z = true.
Proof.
  intros Hxy Hyz.
  destruct (ltb_is_number _ _ Hxy) as [Hx Hy].
  destruct (ltb_is_number _ _ Hyz) as [_ Hz].
  apply ltb_lex in Hxy, Hyz; [|done..]. apply ltb_lex; [done..|].
  unfold lex_lt in *. lia.
Qed.

Lemma ltb_neg_trans x y z :
  is_number x -> is_number y -> is_number z ->
  PrimFloat.ltb x y = false -> PrimFloat.ltb y z = false ->
  PrimFloat.ltb x z = false.
Proof.
  intros Hx Hy Hz Hxy Hyz.
  apply not_true_iff_false. apply not_true_iff_false in Hxy, Hyz.
  rewrite ltb_lex in * by done. unfold lex_lt in *. lia.
Qed.

Lemma ltb_false_leb x y :
  is_number x -> is_number y ->
  PrimFloat.ltb y x = false -> PrimFloat.leb x y = true.
Proof.
  intros Hx Hy H. apply not_true_iff_false in H.
  rewrite ltb_lex in H by done. rewrite leb_spec. by apply SFleb_lex.
Qed.

Lemma string_ltb_leb a b : String.ltb a b = negb (String.leb b a).
Proof.
  unfold String.ltb, String.leb. rewrite (String.compare_antisym b a).
  by destruct (String.compare a b).
Qed.

Lemma string_leb_refl a : String.leb a a = true.
Proof. apply Is_true_true. exact (reflexivity (R := String.le) a). Qed.

Lemma string_leb_trans a b c :
  String.leb a b = true -> String.leb b c = true -> String.leb a c = true.
Proof.
  intros H1%Is_true_true H2%Is_true_true. apply Is_true_true.
  exact (transitivity (R := String.le) H1 H2).
Qed.

Lemma string_leb_total a b : String.leb a b = true \/ String.leb b a = true.
Proof. destruct (String.leb_total a b) as [->| ->]; auto. Qed.

Lemma string_ltb_irrefl a : String.ltb a a = false.
Proof. by rewrite string_ltb_leb, string_leb_refl. Qed.

Lemma string_ltb_trans a b c :
  String.ltb a b = true -> String.ltb b c = true -> String.ltb a c = true.
Proof.
  rewrite !string_ltb_leb, !negb_true_iff. intros Hba Hcb.
  destruct (String.leb c a) eqn:Hca; [|done].
  destruct (string_leb_total a b) as [Hab|Hab]; [|congruence].
  by rewrite (string_leb_trans c a b Hca Hab) in Hcb.
Qed.

Lemma string_ltb_neg_trans a b c :
  String.ltb a b = false -> String.ltb b c = false -> String.ltb a c = false.
Proof.
  rewrite !string_ltb_leb, !negb_false_iff. intros Hba Hcb.
  exact (string_leb_trans c b a Hcb Hba).
Qed.

(** ** Sorting *)

Section InsertionSort.
Context {A : Type} (less : A -> A -> bool) (P : A -> Prop).
Hypothesis less_irrefl : forall a, P a -> less a a = false.
Hypothesis less_trans : forall a b c, P a -> P b -> P c ->
  less a b = true -> less b c = true -> less a c = true.
Hypothesis less_neg_trans : forall a b c, P a -> P b -> P c ->
  less a b = false -> less b c = false -> less a c = false.

Lemma less_asym a b : P a -> P b -> less a b = true -> less b a = false.
Proof.
  intros Ha Hb Hab. destruct (less b a) eqn:Hba; [|done].
  by rewrite <- (less_irrefl a Ha), <- (less_trans a b a Ha Hb Ha Hab Hba).
Qed.

Lemma insert_before_perm x ys : insert_before less x ys ≡ₚ x :: ys.
Proof.
  induction ys as [|y ys IH]; cbn; [done|].
  destruct (less y x); [|done]. rewrite IH. apply perm_swap.
Qed.

Lemma insert_before_in_order x ys :
  P x -> Forall P ys -> in_order less ys ->
  in_order less (insert_before less x ys).
Proof.
  unfold in_order. intros Hx HP Hs.
  induction Hs as [|y ys Hs IH Hy]; cbn.
  - repeat constructor.
  - inversion HP as [|? ? HPy HPys]; subst.
    destruct (less y x) eqn:Hyx.
    + constructor; [by apply IH|].
      rewrite insert_before_perm. constructor; [|done].
      by apply less_asym.
    + constructor; [by constructor|]. constructor; [done|].
      rewrite Forall_forall in Hy, HPys. apply Forall_forall. intros z Hz.
      apply (less_neg_trans z y x); auto.
Qed.

Lemma insertion_sort_perm xs : xs ≡ₚ insertion_sort less xs.
Proof.
  induction xs as [|x xs IH]; [done|].
  change (x :: xs ≡ₚ insert_before less x (insertion_sort less xs)).
  by rewrite insert_before_perm, <- IH.
Qed.

Lemma insertion_sort_in_order xs :
  Forall P xs -> in_order less (insertion_sort less xs).
Proof.
  induction 1 as [|x xs Hx Hxs IH]; [constructor|].
  change (in_order less (insert_before less x (insertion_sort less xs))).
  apply insert_before_in_order; [done| |done].
  by rewrite <- insertion_sort_perm.
Qed.

End InsertionSort.

Lemma insertion_sort_contract {A} : sort_Slice_contract (@insertion_sort A).
Proof.
  intros less xs. split; [apply insertion_sort_perm|].
  intros (Hirr & Htr & Hneg).
  apply (insertion_sort_in_order less (fun a => a ∈ xs)); auto.
  by apply Forall_forall.
Qed.

Lemma StronglySorted_weaken {A} (P : A -> Prop) (R R' : A -> A -> Prop) l :
  Forall P l -> (forall a b, P a -> P b -> R a b -> R' a b) ->
  StronglySorted R l -> StronglySorted R' l.
Proof.
  intros HP Himp Hs. induction Hs as [|x l Hs IH Hx]; [constructor|].
  inversion HP as [|? ? HPx HPl]; subst.
  constructor; [by apply IH|].
  rewrite Forall_forall in Hx, HPl. apply Forall_forall. intros y Hy.
  apply Himp; auto.
Qed.

Lemma by_cost_descending_ordering xs :
  Forall (fun r => is_number (cost r)) xs ->
  transitive_ordering by_cost_descending xs.
Proof.
  rewrite Forall_forall. intros Hnum. unfold by_cost_descending.
  split; [|split].
  - intros a _. apply ltb_irrefl.
  - intros a b c _ _ _ Hab Hbc. by apply (ltb_trans _ (cost b)).
  - intros a b c Ha Hb Hc Hab Hbc.
    apply (ltb_neg_trans _ (cost b)); auto.
Qed.

Lemma by_display_name_ordering xs : transitive_ordering by_display_name xs.
Proof.
  unfold by_display_name. split; [|split].
  - intros a _. apply string_ltb_irrefl.
  - intros a b c _ _ _. apply string_ltb_trans.
  - intros a b c _ _ _. apply string_ltb_neg_trans.
Qed.

(** ** The loop of [GenerateReport] *)

Lemma tally_result_high t r :
  highCostAPIs (tally_result t r) =
  highCostAPIs t ++ (if is_high_cost r then [r] else []).
Proof.
  unfold tally_result, is_high_cost, enabled_with_pricing, is_enabled,
    state_of.
  destruct (String.eqb (Error r) ""), (Enabled r),
    (HasPricing (CostInfoOf r)), (PrimFloat.ltb 50 (cost r));
    cbn; by rewrite ?app_nil_r.
Qed.

Lemma tally_result_unlimited t r :
  unlimitedCostAPIs (tally_result t r) =
  unlimitedCostAPIs t ++ (if is_unlimited_risk r then [r] else []).
Proof.
  unfold tally_result, is_unlimited_risk, enabled_with_pricing, is_enabled,
    state_of.
  destruct (String.eqb (Error r) ""), (Enabled r),
    (HasPricing (CostInfoOf r)), (UnlimitedCost (CostInfoOf r));
    cbn; by rewrite ?app_nil_r.
Qed.

Lemma tally_result_breakdown t r :
  costBreakdown (tally_result t r) =
  if enabled_with_pricing r
  then <[DisplayName r := cost r]> (costBreakdown t) else costBreakdown t.
Proof.
  unfold tally_result, enabled_with_pricing, is_enabled, state_of.
  by destruct (String.eqb (Error r) ""), (Enabled r),
    (HasPricing (CostInfoOf r)).
Qed.

Lemma tally_high rs t :
  highCostAPIs (fold_left tally_result rs t) =
  highCostAPIs t ++ List.filter is_high_cost rs.
Proof.
  revert t. induction rs as [|r rs IH]; intros t; cbn.
  - by rewrite app_nil_r.
  - rewrite IH, tally_result_high.
    destruct (is_high_cost r); by rewrite <- app_assoc.
Qed.

Lemma tally_unlimited rs t :
  unlimitedCostAPIs (fold_left tally_result rs t) =
  unlimitedCostAPIs t ++ List.filter is_unlimited_risk rs.
Proof.
  revert t. induction rs as [|r rs IH]; intros t; cbn.
  - by rewrite app_nil_r.
  - rewrite IH, tally_result_unlimited.
    destruct (is_unlimited_risk r); by rewrite <- app_assoc.
Qed.

Lemma tally_breakdown rs t k :
  costBreakdown (fold_left tally_result rs t) !! k =
  match last_priced k rs with
  | Some c => Some c
  | None => costBreakdown t !! k
  end.
Proof.
  revert t. induction rs as [|r rs IH]; intros t; cbn; [done|].
  rewrite IH. destruct (last_priced k rs); [done|].
  rewrite tally_result_breakdown.
  destruct (enabled_with_pricing r); cbn; [|done].
  destruct (String.eqb_spec (DisplayName r) k) as [->|Hne].
  - by rewrite lookup_insert_eq.
  - by rewrite lookup_insert_ne.
Qed.

Lemma last_priced_Some k rs :
  is_Some (last_priced k rs) <->
  exists r, r ∈ rs /\ enabled_with_pricing r = true /\ DisplayName r = k.
Proof.
  induction rs as [|r rs IH]; cbn.
  - split; [by intros [? ?]|]. intros (r & Hr & _). by apply elem_of_nil in Hr.
  - destruct (last_priced k rs) as [c|].
    + split; [|by eexists]. intros _.
      destruct (proj1 IH) as (r' & Hr' & Hq); [by eexists|].
      exists r'. split; [by apply elem_of_cons; right|done].
    + destruct (enabled_with_pricing r) eqn:Hq; cbn.
      * destruct (String.eqb_spec (DisplayName r) k) as [Hk|Hk].
        -- split; [|by eexists]. intros _. exists r.
           split; [by apply elem_of_cons; left|done].
        -- split; [by intros [? ?]|]. intros (r' & Hr' & Hq' & Hk').
           apply elem_of_cons in Hr' as [->|Hr']; [done|].
           apply IH. by exists r'.
      * split; [by intros [? ?]|]. intros (r' & Hr' & Hq' & Hk').
        apply elem_of_cons in Hr' as [->|Hr']; [congruence|].
        apply IH. by exists r'.
Qed.

Lemma last_priced_app k l1 l2 :
  last_priced k (l1 ++ l2) =
  match last_priced k l2 with
  | Some c => Some c
  | None => last_priced k l1
  end.
Proof.
  induction l1 as [|r l1 IH]; cbn.
  - by destruct (last_priced k l2).
  - rewrite IH. by destruct (last_priced k l2).
Qed.

Lemma fold_left_append {A} (f : A -> string) l acc :
  fold_left (fun recs api => recs ++ [f api]) l acc = acc ++ map f l.
Proof.
  revert acc. induction l as [|x l IH]; intros acc; cbn.
  - by rewrite app_nil_r.
  - by rewrite IH, <- app_assoc.
Qed.

Lemma len_positive {A} (l : list A) : (0 <? len l) = true <-> l <> [].
Proof.
  unfold len. destruct l; cbn; [by split|]. split; [done|]. intros _.
  apply Z.ltb_lt. lia.
Qed.

(** ** The report *)

(** C4. The cost breakdown has an entry for a display name exactly when an
    enabled result with pricing bears that name, and the entry holds the
    cost of the last such result of the input. *)
Theorem costBreakdown_entries
    (sort_Slice : (APIResult -> APIResult -> bool) ->
                  list APIResult -> list APIResult)
    (Sprintf_2f : float64 -> string) (now : Time) (results : list APIResult) :
  let breakdown :=
    CostBreakdown (CostAnalysisOf
      (GenerateReport sort_Slice Sprintf_2f now results)) in
  (forall k, is_Some (breakdown !! k) <->
     exists r, r ∈ results /\ enabled_with_pricing r = true /\
               DisplayName r = k) /\
  (forall before r after, results = before ++ r :: after ->
     enabled_with_pricing r = true ->
     (forall r', r' ∈ after -> enabled_with_pricing r' = true ->
                 DisplayName r' <> DisplayName r) ->
     breakdown !! DisplayName r = Some (cost r)).
Proof.
  cbn. split.
  - intros k. rewrite tally_breakdown, <- last_priced_Some. cbn.
    rewrite lookup_empty. destruct (last_priced k results); [done|].
    split; by intros [? ?].
  - intros before r after -> Hq Hlast.
    rewrite tally_breakdown, last_priced_app. cbn.
    destruct (last_priced (DisplayName r) after) as [c|] eqn:Hafter.
    + destruct (proj1 (last_priced_Some (DisplayName r) after))
        as (r' & Hr' & Hq' & Hk'); [by eexists|].
      by destruct (Hlast r' Hr' Hq').
    + by rewrite Hq, String.eqb_refl.
Qed.

(** C5. The recommendations are, in this order: the block of unlimited
    cost (a count line, then a line for each item) when that list is not
    empty; the block of high cost (a count line, then a line for each
    item) when that list is not empty; the line of the total cost when the
    total exceeds 500; the line of the disabled count when there are
    disabled items; and the three general lines. *)
Theorem generateRecommendations_order
    (Sprintf_2f : float64 -> string) (report : Report) :
  let unlimited := UnlimitedCostAPIs (CostAnalysisOf report) in
  let high := HighCostAPIs (CostAnalysisOf report) in
  let total := TotalCost (Summary report) in
  let disabled := DisabledAPIs report in
  generateRecommendations Sprintf_2f report =
    block (0 <? len unlimited)
      (unlimited_header (len unlimited) :: map unlimited_line unlimited) ++
    block (0 <? len high)
      (high_cost_header (len high) :: map (high_cost_line Sprintf_2f) high) ++
    block (PrimFloat.ltb 500 total) [total_cost_line Sprintf_2f total] ++
    block (0 <? len disabled) [disabled_line (len disabled)] ++
    general_recommendations /\
  ((0 <? len unlimited) = true <-> unlimited <> []) /\
  ((0 <? len high) = true <-> high <> []) /\
  ((0 <? len disabled) = true <-> 0 < len disabled) /\
  length general_recommendations = 3%nat.
Proof.
  cbn zeta. split; [|repeat split; try apply len_positive;
                      try apply Z.ltb_lt; done].
  unfold generateRecommendations, block, general_recommendations.
  rewrite !fold_left_append.
  destruct (0 <? len (UnlimitedCostAPIs (CostAnalysisOf report)));
    destruct (0 <? len (HighCostAPIs (CostAnalysisOf report)));
    destruct (PrimFloat.ltb 500 (TotalCost (Summary report)));
    destruct (0 <? len (DisabledAPIs report));
    cbn [app]; by rewrite <- ?app_assoc.
Qed.

(** C2. Whatever [sort.Slice] does within what it promises, the high-cost
    list of the report holds exactly the results that are enabled, have
    pricing and cost more than 50 (a cost of exactly 50 is left out), each
    as often as the input has it, and it is sorted by cost, highest
    first. *)
Theorem highCostAPIs_sorted
    (sort_Slice : (APIResult -> APIResult -> bool) ->
                  list APIResult -> list APIResult)
    (Sprintf_2f : float64 -> string) :
  sort_Slice_contract sort_Slice ->
  forall (now : Time) (results : list APIResult),
    let high :=
      HighCostAPIs (CostAnalysisOf
        (GenerateReport sort_Slice Sprintf_2f now results)) in
    high ≡ₚ List.filter is_high_cost results /\
    StronglySorted (fun a b => PrimFloat.leb (cost b) (cost a) = true) high.
Proof.
  intros Hsort now results. cbn. rewrite tally_high. cbn [highCostAPIs empty_tally app].
  destruct (Hsort by_cost_descending (List.filter is_high_cost results))
    as [Hperm Hsorted].
  split; [by symmetry|].
  assert (Forall (fun r => is_number (cost r))
            (List.filter is_high_cost results)) as Hnum.
  { apply Forall_forall. intros r Hr%list_elem_of_In%filter_In.
    destruct Hr as [_ Hr]. unfold is_high_cost in Hr.
    apply andb_true_iff in Hr as [_ Hr].
    by destruct (ltb_is_number _ _ Hr). }
  specialize (Hsorted (by_cost_descending_ordering _ Hnum)).
  eapply (StronglySorted_weaken (fun r => is_number (cost r)));
    [by rewrite <- Hperm| |exact Hsorted].
  intros a b Ha Hb Hab. by apply ltb_false_leb.
Qed.

Lemma highCostAPIs_sorted_witness :
  HighCostAPIs (CostAnalysisOf
    (GenerateReport insertion_sort Sprintf_2f_fixture 0 sample_results))
  ≡ₚ List.filter is_high_cost sample_results /\
  StronglySorted (fun a b => PrimFloat.leb (cost b) (cost a) = true)
    (HighCostAPIs (CostAnalysisOf
       (GenerateReport insertion_sort Sprintf_2f_fixture 0 sample_results))).
Proof.
  exact (highCostAPIs_sorted insertion_sort Sprintf_2f_fixture
           insertion_sort_contract 0 sample_results).
Defined.

(** On the sample the list is Dataflow (200) and then Compute Engine
    (150); Kubernetes Engine, at exactly 50, is left out. *)
Example highCostAPIs_sample :
  Name <$> HighCostAPIs (CostAnalysisOf
    (GenerateReport insertion_sort Sprintf_2f_fixture 0 sample_results)) =
  ["dataflow.googleapis.com"; "compute.googleapis.com"].
Proof. vm_compute. reflexivity. Qed.

(** Run with the [sort.Slice] of the Go library on the thirteen results,
    whatever its generator: the call returns; [r00] stands before [r08]
    in the input and both cost 200; in the high-cost list [r08] is first
    and [r00] seventh. The pivot is the seventh result, [r06]: the
    partition swaps it with [r00] and then swaps [r00]'s place with
    [r08], and the insertion sort of the eight results of cost 200 moves
    nothing. *)
Lemma highCostAPIs_ties_reordered :
  Name <$> thirteen_results =
    ["r00"; "r01"; "r02"; "r03"; "r04"; "r05"; "r06"; "r07"; "r08"; "r09";
     "r10"; "r11"; "r12"] /\
  List.filter is_high_cost thirteen_results = thirteen_results /\
  cost <$> thirteen_results !! 0%nat = Some 200%float /\
  cost <$> thirteen_results !! 8%nat = Some 200%float /\
  forall xorshift_Next : Z -> Z,
    GoSort.Slice xorshift_Next by_cost_descending thirteen_results <> None /\
    Name <$> HighCostAPIs (CostAnalysisOf
      (GenerateReport (GoSort.sort_Slice xorshift_Next) Sprintf_2f_fixture 0
         thirteen_results)) =
    ["r08"; "r01"; "r02"; "r03"; "r04"; "r05"; "r00"; "r07"; "r06"; "r09";
     "r10"; "r11"; "r12"].
Proof.
  split; [reflexivity|]. split; [reflexivity|].
  split; [reflexivity|]. split; [reflexivity|].
  intros xorshift_Next. split; [vm_compute; discriminate|].
  vm_compute. reflexivity.
Qed.

(** Twelve results or fewer are sorted by insertion, which moves a result
    only before one that it sorts before: without [r12] the results of
    equal cost and of equal name keep their input order. *)
Example twelve_results_keep_input_order (xorshift_Next : Z -> Z) :
  Name <$> GoSort.sort_Slice xorshift_Next by_cost_descending
             (take 12 thirteen_results) =
    ["r00"; "r01"; "r02"; "r03"; "r04"; "r05"; "r07"; "r08"; "r06"; "r09";
     "r10"; "r11"] /\
  Name <$> GoSort.sort_Slice xorshift_Next by_display_name
             (take 12 thirteen_results) =
    ["r00"; "r01"; "r02"; "r03"; "r04"; "r05"; "r07"; "r08"; "r06"; "r09";
     "r10"; "r11"].
Proof. split; vm_compute; reflexivity. Qed.

(** C3. Whatever [sort.Slice] does within what it promises, the
    unlimited-cost list of the report holds exactly the results that are
    enabled, have pricing and carry the unlimited-cost risk, each as often
    as the input has it, and it is sorted by display name in the bytewise
    lexicographic order, lowest first. *)
Theorem unlimitedCostAPIs_sorted
    (sort_Slice : (APIResult -> APIResult -> bool) ->
                  list APIResult -> list APIResult)
    (Sprintf_2f : float64 -> string) :
  sort_Slice_contract sort_Slice ->
  forall (now : Time) (results : list APIResult),
    let unlimited :=
      UnlimitedCostAPIs (CostAnalysisOf
        (GenerateReport sort_Slice Sprintf_2f now results)) in
    unlimited ≡ₚ List.filter is_unlimited_risk results /\
    StronglySorted
      (fun a b => String.leb (DisplayName a) (DisplayName b) = true)
      unlimited.
Proof.
  intros Hsort now results. cbn. rewrite tally_unlimited.
  cbn [unlimitedCostAPIs empty_tally app].
  destruct (Hsort by_display_name (List.filter is_unlimited_risk results))
    as [Hperm Hsorted].
  split; [by symmetry|].
  specialize (Hsorted (by_display_name_ordering _)).
  eapply (StronglySorted_weaken (fun _ => True));
    [by apply Forall_true| |exact Hsorted].
  intros a b _ _ Hab. unfold by_display_name in Hab.
  rewrite string_ltb_leb in Hab. by apply negb_false_iff in Hab.
Qed.

Lemma unlimitedCostAPIs_sorted_witness :
  UnlimitedCostAPIs (CostAnalysisOf
    (GenerateReport insertion_sort Sprintf_2f_fixture 0 sample_results))
  ≡ₚ List.filter is_unlimited_risk sample_results /\
  StronglySorted
    (fun a b => String.leb (DisplayName a) (DisplayName b) = true)
    (UnlimitedCostAPIs (CostAnalysisOf
       (GenerateReport insertion_sort Sprintf_2f_fixture 0 sample_results))).
Proof.
  exact (unlimitedCostAPIs_sorted insertion_sort Sprintf_2f_fixture
           insertion_sort_contract 0 sample_results).
Defined.

(** On the sample the list is BigQuery and then Cloud Firestore. *)
Example unlimitedCostAPIs_sample :
  DisplayName <$> UnlimitedCostAPIs (CostAnalysisOf
    (GenerateReport insertion_sort Sprintf_2f_fixture 0 sample_results)) =
  ["BigQuery API"; "Cloud Firestore API"].
Proof. vm_compute. reflexivity. Qed.

(** Run with the [sort.Slice] of the Go library on the thirteen results,
    whatever its generator: the call returns; [r00] stands before [r08]
    in the input and both are named "Alpha API"; in the unlimited-cost
    list [r08] is first and [r00] seventh. *)
Lemma unlimitedCostAPIs_ties_reordered :
  Name <$> thirteen_results =
    ["r00"; "r01"; "r02"; "r03"; "r04"; "r05"; "r06"; "r07"; "r08"; "r09";
     "r10"; "r11"; "r12"] /\
  List.filter is_unlimited_risk thirteen_results = thirteen_results /\
  DisplayName <$> thirteen_results !! 0%nat = Some "Alpha API" /\
  DisplayName <$> thirteen_results !! 8%nat = Some "Alpha API" /\
  forall xorshift_Next : Z -> Z,
    GoSort.Slice xorshift_Next by_display_name thirteen_results <> None /\
    Name <$> UnlimitedCostAPIs (CostAnalysisOf
      (GenerateReport (GoSort.sort_Slice xorshift_Next) Sprintf_2f_fixture 0
         thirteen_results)) =
    ["r08"; "r01"; "r02"; "r03"; "r04"; "r05"; "r00"; "r07"; "r06"; "r09";
     "r10"; "r11"; "r12"].
Proof.
  split; [reflexivity|]. split; [reflexivity|].
  split; [reflexivity|]. split; [reflexivity|].
  intros xorshift_Next. split; [vm_compute; discriminate|].
  vm_compute. reflexivity.
Qed.

(** A cost of exactly 50 is not a high cost. *)
Example cost_of_50_is_not_high :
  cost (Static.checkSingleAPI 0 "container.googleapis.com") = 50%float /\
  is_high_cost (Static.checkSingleAPI 0 "container.googleapis.com") = false.
Proof. split; vm_compute; reflexivity. Qed.

(** The report of the scenario: four results, two enabled, one disabled,
    one errored; the unlimited-cost block, the disabled advisory and the
    three general lines, in that order. *)
Example scenario_report :
  let report := GenerateReport insertion_sort Sprintf_2f_fixture 0 scenario in
  (TotalAPIs (Summary report), EnabledCount (Summary report),
   DisabledCount (Summary report), ErrorCount (Summary report)) = (4, 2, 1, 1) /\
  Name <$> UnlimitedCostAPIs (CostAnalysisOf report) = ["c"] /\
  HighCostAPIs (CostAnalysisOf report) = [] /\
  Recommendations report = [
    "⚠️  CRITICAL: Found 1 APIs with unlimited cost potential. Review and set usage limits immediately:";
    "   - c: No usage limits";
    "🔒 1 APIs are currently disabled. Review if any are needed for your application.";
    "📊 Set up billing alerts and budget limits in Google Cloud Console";
    "🔍 Regularly monitor API usage and costs";
    "⚡ Consider using quotas and rate limiting for high-cost APIs"
  ].
Proof. vm_compute. repeat split. Qed.

(** The catalogue has 93 entries and 77 distinct identifiers. *)
Example catalogue_sizes :
  length Static.getAvailableAPIs.1 = 93%nat /\
  length (remove_dups Static.getAvailableAPIs.1) = 77%nat.
Proof. split; vm_compute; reflexivity. Qed.

(** * Further properties of the code *)

(** ** The loop of [GenerateReport], continued *)

Lemma tally_result_enabled t r :
  enabledAPIs (tally_result t r) =
  enabledAPIs t ++ (if is_enabled r then [r] else []).
Proof.
  unfold tally_result, is_enabled, state_of.
  destruct (String.eqb (Error r) ""), (Enabled r),
    (HasPricing (CostInfoOf r)); cbn; by rewrite ?app_nil_r.
Qed.

Lemma tally_result_disabled t r :
  disabledAPIs (tally_result t r) =
  disabledAPIs t ++ (if is_disabled r then [r] else []).
Proof.
  unfold tally_result, is_disabled, state_of.
  destruct (String.eqb (Error r) ""), (Enabled r),
    (HasPricing (CostInfoOf r)); cbn; by rewrite ?app_nil_r.
Qed.

Lemma tally_result_errorCount t r :
  errorCount (tally_result t r) =
  errorCount t + (if is_errored r then 1 else 0).
Proof.
  unfold tally_result, is_errored, state_of.
  destruct (String.eqb (Error r) ""), (Enabled r),
    (HasPricing (CostInfoOf r)); cbn; lia.
Qed.

Lemma tally_result_totalCost t r :
  totalCost (tally_result t r) =
  if enabled_with_pricing r
  then PrimFloat.add (totalCost t) (cost r) else totalCost t.
Proof.
  unfold tally_result, enabled_with_pricing, is_enabled, state_of.
  by destruct (String.eqb (Error r) ""), (Enabled r),
    (HasPricing (CostInfoOf r)).
Qed.

Lemma tally_enabled rs t :
  enabledAPIs (fold_left tally_result rs t) =
  enabledAPIs t ++ List.filter is_enabled rs.
Proof.
  revert t. induction rs as [|r rs IH]; intros t; cbn.
  - by rewrite app_nil_r.
  - rewrite IH, tally_result_enabled.
    destruct (is_enabled r); by rewrite <- app_assoc.
Qed.

Lemma tally_disabled rs t :
  disabledAPIs (fold_left tally_result rs t) =
  disabledAPIs t ++ List.filter is_disabled rs.
Proof.
  revert t. induction rs as [|r rs IH]; intros t; cbn.
  - by rewrite app_nil_r.
  - rewrite IH, tally_result_disabled.
    destruct (is_disabled r); by rewrite <- app_assoc.
Qed.

Lemma tally_errorCount rs t :
  errorCount (fold_left tally_result rs t) =
  errorCount t + len (List.filter is_errored rs).
Proof.
  revert t. induction rs as [|r rs IH]; intros t; cbn.
  - unfold len; cbn; lia.
  - rewrite IH, tally_result_errorCount.
    destruct (is_errored r); unfold len; cbn [length]; lia.
Qed.

Lemma tally_totalCost rs t :
  totalCost (fold_left tally_result rs t) =
  add_costs (totalCost t) (cost <$> List.filter enabled_with_pricing rs).
Proof.
  revert t. induction rs as [|r rs IH]; intros t; cbn; [done|].
  rewrite IH, tally_result_totalCost.
  by destruct (enabled_with_pricing r).
Qed.

(** Every result is of exactly one class. *)
Lemma state_classes r :
  (if is_enabled r then 1 else 0) + (if is_disabled r then 1 else 0)
  + (if is_errored r then 1 else 0) = 1.
Proof.
  unfold is_enabled, is_disabled, is_errored. by destruct (state_of r).
Qed.

Lemma classes_add_up rs :
  len (List.filter is_enabled rs) + len (List.filter is_disabled rs)
  + len (List.filter is_errored rs) = len rs.
Proof.
  unfold len. induction rs as [|r rs IH]; cbn; [done|].
  pose proof (state_classes r).
  destruct (is_enabled r), (is_disabled r), (is_errored r);
    cbn [length]; lia.
Qed.

(** ** The report, continued *)

Section ReportFacts.
Variable sort_Slice :
  (APIResult -> APIResult -> bool) -> list APIResult -> list APIResult.
Variable Sprintf_2f : float64 -> string.

Local Abbreviation report_of := (GenerateReport sort_Slice Sprintf_2f).

(** X1. The summary counts every result once: the total is the number of
    results and is the sum of the enabled, disabled and error counts, and
    the enabled and disabled counts are the lengths of the two lists of
    the report. *)
Theorem summary_counts_add_up (now : Time) (results : list APIResult) :
  TotalAPIs (Summary (report_of now results)) = len results /\
  TotalAPIs (Summary (report_of now results)) =
    EnabledCount (Summary (report_of now results))
    + DisabledCount (Summary (report_of now results))
    + ErrorCount (Summary (report_of now results)) /\
  EnabledCount (Summary (report_of now results)) =
    len (EnabledAPIs (report_of now results)) /\
  DisabledCount (Summary (report_of now results)) =
    len (DisabledAPIs (report_of now results)).
Proof.
  cbn. rewrite tally_enabled, tally_disabled, tally_errorCount. cbn.
  repeat split. by rewrite classes_add_up.
Qed.

(** X2. The enabled list is the results with an empty [Error] and
    [Enabled] true, and the disabled list those with an empty [Error] and
    [Enabled] false, both in the order of the input; a result with a
    non-empty [Error] is in neither and is counted as an error, whatever
    its [Enabled] and [Status] say. *)
Theorem report_partitions_results (now : Time) (results : list APIResult) :
  EnabledAPIs (report_of now results) = List.filter is_enabled results /\
  DisabledAPIs (report_of now results) = List.filter is_disabled results /\
  ErrorCount (Summary (report_of now results)) =
    len (List.filter is_errored results) /\
  (forall r, r ∈ results -> Error r <> "" ->
     (r ∉ EnabledAPIs (report_of now results)) /\
     (r ∉ DisabledAPIs (report_of now results))).
Proof.
  cbn. rewrite tally_enabled, tally_disabled, tally_errorCount. cbn.
  repeat split.
  - intros Hin%list_elem_of_In%filter_In. destruct Hin as [_ Hin].
    unfold is_enabled, state_of in Hin.
    by destruct (String.eqb_spec (Error r) "").
  - intros Hin%list_elem_of_In%filter_In. destruct Hin as [_ Hin].
    unfold is_disabled, state_of in Hin.
    by destruct (String.eqb_spec (Error r) "").
Qed.

Lemma report_totalCost (now : Time) (results : list APIResult) :
  TotalCost (Summary (report_of now results)) =
  add_costs 0%float (cost <$> List.filter enabled_with_pricing results).
Proof. cbn. by rewrite tally_totalCost. Qed.

Lemma report_breakdown_dom (now : Time) (results : list APIResult) k :
  k ∈ dom (CostBreakdown (CostAnalysisOf (report_of now results))) <->
  exists r, r ∈ results /\ enabled_with_pricing r = true /\ DisplayName r = k.
Proof.
  rewrite elem_of_dom. cbn. rewrite tally_breakdown, <- last_priced_Some.
  cbn. rewrite lookup_empty. destruct (last_priced k results); [done|].
  split; by intros [? ?].
Qed.
End ReportFacts.

Lemma filter_Permutation_bool {A} (f : A -> bool) l l' :
  l ≡ₚ l' -> List.filter f l ≡ₚ List.filter f l'.
Proof.
  induction 1 as [|x l l' _ IH|x y l|l l' l'' _ IH _ IH']; cbn.
  - done.
  - destruct (f x); by rewrite IH.
  - destruct (f x), (f y); by try apply perm_swap.
  - by rewrite IH.
Qed.

Lemma len_Permutation {A} (l l' : list A) : l ≡ₚ l' -> len l = len l'.
Proof. intros H. unfold len. by rewrite (Permutation_length H). Qed.

(** X3. The counts of the summary and the display names that have an
    entry in the cost breakdown do not depend on the order of the results:
    two slices with the same results in another order give the same four
    counts and the same keys. The total cost is the sum of [float64]
    additions in the order of the input, and it does depend on it: the
    costs 1e16, 1, 1 give 1e16 in that order and 1e16 + 2 when the large
    cost comes last. *)
Theorem report_counts_ignore_order
    (sort_Slice : (APIResult -> APIResult -> bool) ->
                  list APIResult -> list APIResult)
    (Sprintf_2f : float64 -> string) (now : Time) :
  (forall results results', results ≡ₚ results' ->
     let s := Summary (GenerateReport sort_Slice Sprintf_2f now results) in
     let s' := Summary (GenerateReport sort_Slice Sprintf_2f now results') in
     TotalAPIs s = TotalAPIs s' /\ EnabledCount s = EnabledCount s' /\
     DisabledCount s = DisabledCount s' /\ ErrorCount s = ErrorCount s' /\
     dom (CostBreakdown (CostAnalysisOf
            (GenerateReport sort_Slice Sprintf_2f now results))) =
     dom (CostBreakdown (CostAnalysisOf
            (GenerateReport sort_Slice Sprintf_2f now results')))) /\
  (forall results,
     TotalCost (Summary (GenerateReport sort_Slice Sprintf_2f now results)) =
     add_costs 0%float (cost <$> List.filter enabled_with_pricing results)) /\
  large_first ≡ₚ large_last /\
  TotalCost (Summary (GenerateReport sort_Slice Sprintf_2f now large_first))
    = 1e16%float /\
  TotalCost (Summary (GenerateReport sort_Slice Sprintf_2f now large_last))
    = 10000000000000002%float.
Proof.
  split; [|split; [|split; [|split]]].
  - intros results results' Hperm.
    split; [|split; [|split; [|split]]].
    + cbn. by apply len_Permutation.
    + cbn. rewrite !tally_enabled. cbn.
      by apply len_Permutation, filter_Permutation_bool.
    + cbn. rewrite !tally_disabled. cbn.
      by apply len_Permutation, filter_Permutation_bool.
    + cbn. rewrite !tally_errorCount. cbn. f_equal.
      by apply len_Permutation, filter_Permutation_bool.
    + apply set_eq. intros k. rewrite !report_breakdown_dom.
      split; intros (r & Hr & Hq); exists r; (split; [|done]).
      * by rewrite <- Hperm.
      * by rewrite Hperm.
  - apply report_totalCost.
  - unfold large_first, large_last. solve_Permutation.
  - rewrite report_totalCost. vm_compute. reflexivity.
  - rewrite report_totalCost. vm_compute. reflexivity.
Qed.

(** X4. The cost lists are drawn from the enabled list: whatever
    [sort.Slice] does within what it promises, every result of the
    high-cost list and of the unlimited-cost list is in the enabled list
    and has its display name as a key of the cost breakdown. *)
Theorem cost_lists_within_enabled
    (sort_Slice : (APIResult -> APIResult -> bool) ->
                  list APIResult -> list APIResult)
    (Sprintf_2f : float64 -> string) :
  sort_Slice_contract sort_Slice ->
  forall (now : Time) (results : list APIResult) (r : APIResult),
    let report := GenerateReport sort_Slice Sprintf_2f now results in
    r ∈ HighCostAPIs (CostAnalysisOf report) \/
    r ∈ UnlimitedCostAPIs (CostAnalysisOf report) ->
    r ∈ EnabledAPIs report /\
    is_Some (CostBreakdown (CostAnalysisOf report) !! DisplayName r).
Proof.
  intros Hsort now results r report Hin.
  assert (r ∈ results /\ enabled_with_pricing r = true) as [Hr Hq].
  { subst report. cbn in Hin. rewrite tally_high, tally_unlimited in Hin.
    cbn [highCostAPIs unlimitedCostAPIs empty_tally app] in Hin.
    destruct Hin as [Hin|Hin];
      rewrite <- (proj1 (Hsort _ _)) in Hin;
      apply list_elem_of_In, filter_In in Hin as [Hin Hq];
      apply list_elem_of_In in Hin; (split; [done|]).
    - unfold is_high_cost in Hq. by apply andb_true_iff in Hq as [Hq _].
    - unfold is_unlimited_risk in Hq. by apply andb_true_iff in Hq as [Hq _]. }
  split.
  - subst report. cbn. rewrite tally_enabled. cbn.
    apply list_elem_of_In, filter_In. split; [by apply list_elem_of_In|].
    unfold enabled_with_pricing in Hq. by apply andb_true_iff in Hq as [Hq _].
  - apply elem_of_dom. subst report. rewrite report_breakdown_dom.
    by exists r.
Qed.

Lemma cost_lists_within_enabled_witness :
  Static.checkSingleAPI 0 "dataflow.googleapis.com" ∈
    EnabledAPIs (GenerateReport insertion_sort Sprintf_2f_fixture 0
                   sample_results) /\
  is_Some (CostBreakdown (CostAnalysisOf
             (GenerateReport insertion_sort Sprintf_2f_fixture 0
                sample_results)) !! "Dataflow API").
Proof.
  apply (cost_lists_within_enabled insertion_sort Sprintf_2f_fixture
           insertion_sort_contract 0 sample_results
           (Static.checkSingleAPI 0 "dataflow.googleapis.com")).
  left. vm_compute. apply list_elem_of_here.
Defined.

Lemma filter_none {A} (f : A -> bool) l :
  Forall (fun x => f x = false) l -> List.filter f l = [].
Proof. induction 1 as [|x l Hx _ IH]; cbn; [done|]. by rewrite Hx. Qed.

Lemma errored_only r :
  is_errored r = true ->
  is_enabled r = false /\ is_disabled r = false /\
  enabled_with_pricing r = false /\ is_high_cost r = false /\
  is_unlimited_risk r = false.
Proof.
  unfold is_high_cost, is_unlimited_risk, enabled_with_pricing, is_enabled,
    is_disabled, is_errored.
  by destruct (state_of r).
Qed.

(** X5. When every result carries an error (and when there is no result
    at all), the report has empty enabled, disabled, high-cost and
    unlimited-cost lists, an empty cost breakdown, a total cost of 0, an
    error count equal to the number of results, and its recommendations
    are the three general lines alone: no line speaks of the errors. *)
Theorem all_errored_report
    (sort_Slice : (APIResult -> APIResult -> bool) ->
                  list APIResult -> list APIResult)
    (Sprintf_2f : float64 -> string) :
  sort_Slice_contract sort_Slice ->
  forall (now : Time) (results : list APIResult),
    Forall (fun r => Error r <> "") results ->
    GenerateReport sort_Slice Sprintf_2f now results =
    mkReport (mkSummaryInfo (len results) 0 0 (len results) 0%float "USD")
      [] [] (mkCostAnalysis 0%float [] [] ∅) general_recommendations now.
Proof.
  intros Hsort now results Herr.
  assert (Forall (fun r => is_errored r = true) results) as Hall.
  { eapply Forall_impl; [exact Herr|]. intros r Hr.
    unfold is_errored, state_of. by destruct (String.eqb_spec (Error r) ""). }
  assert (forall f : APIResult -> bool,
            (forall r, is_errored r = true -> f r = false) ->
            List.filter f results = []) as Hnone.
  { intros f Hf. apply filter_none. eapply Forall_impl; [exact Hall|].
    intros r Hr. cbn. by apply Hf. }
  assert (fold_left tally_result results empty_tally =
          mkTally [] [] (len results) 0%float [] [] ∅) as Htally.
  { pose proof (tally_enabled results empty_tally) as He.
    pose proof (tally_disabled results empty_tally) as Hd.
    pose proof (tally_errorCount results empty_tally) as Hc.
    pose proof (tally_totalCost results empty_tally) as Ht.
    pose proof (tally_high results empty_tally) as Hh.
    pose proof (tally_unlimited results empty_tally) as Hu.
    assert (costBreakdown (fold_left tally_result results empty_tally) = ∅)
      as Hb.
    { apply map_eq. intros k. rewrite tally_breakdown, lookup_empty. cbn.
      destruct (last_priced k results) eqn:Hk; [|done].
      destruct (proj1 (last_priced_Some k results)) as (r & Hr & Hq & _);
        [by eexists|].
      rewrite Forall_forall in Hall.
      destruct (errored_only r (Hall r Hr)) as (_ & _ & Hq' & _).
      congruence. }
    rewrite (Hnone is_enabled) in He by (intros r Hr; apply errored_only, Hr).
    rewrite (Hnone is_disabled) in Hd by (intros r Hr; apply errored_only, Hr).
    rewrite (Hnone enabled_with_pricing) in Ht
      by (intros r Hr; apply errored_only, Hr).
    rewrite (Hnone is_high_cost) in Hh by (intros r Hr; apply errored_only, Hr).
    rewrite (Hnone is_unlimited_risk) in Hu
      by (intros r Hr; apply errored_only, Hr).
    assert (List.filter is_errored results = results) as Hsame.
    { clear -Hall. induction Hall as [|r rs Hr _ IH]; cbn; [done|].
      by rewrite Hr, IH. }
    rewrite Hsame in Hc.
    destruct (fold_left tally_result results empty_tally); cbn in *.
    by subst. }
  unfold GenerateReport. rewrite Htally. cbn [highCostAPIs unlimitedCostAPIs
    enabledAPIs disabledAPIs errorCount totalCost costBreakdown].
  assert (forall less, sort_Slice less [] = []) as Hnil.
  { intros less. apply Permutation_nil. exact (proj1 (Hsort less [])). }
  rewrite !Hnil. reflexivity.
Qed.

Lemma all_errored_report_witness :
  GenerateReport insertion_sort Sprintf_2f_fixture 5 (allResults both_failed) =
  mkReport (mkSummaryInfo 2 0 0 2 0%float "USD")
    [] [] (mkCostAnalysis 0%float [] [] ∅) general_recommendations 5.
Proof.
  apply (all_errored_report insertion_sort Sprintf_2f_fixture
           insertion_sort_contract 5 (allResults both_failed)).
  repeat constructor; discriminate.
Defined.

Lemma size_names (l : list string) :
  (size (list_to_set l : gset string) <= length l)%nat /\
  (size (list_to_set l : gset string) = length l <-> NoDup l).
Proof.
  induction l as [|x l [IHle IHeq]]; cbn.
  - split; [by rewrite size_empty|]. split; [constructor|by rewrite size_empty].
  - destruct (decide (x ∈ l)) as [Hin|Hnin].
    + assert ({[x]} ∪ list_to_set l = (list_to_set l : gset string)) as ->.
      { apply set_eq. intros y. rewrite elem_of_union, elem_of_singleton,
          elem_of_list_to_set. split; [intros [->|?]; done|by right]. }
      split; [lia|]. split; [lia|]. intros Hnd. by inversion Hnd.
    + rewrite size_union, size_singleton.
      2:{ apply disjoint_singleton_l. by rewrite elem_of_list_to_set. }
      split; [lia|]. split.
      * intros Hsize. constructor; [done|]. apply IHeq. lia.
      * intros Hnd. inversion Hnd; subst. f_equal. by apply IHeq.
Qed.

Lemma breakdown_dom_names
    (sort_Slice : (APIResult -> APIResult -> bool) ->
                  list APIResult -> list APIResult)
    (Sprintf_2f : float64 -> string) (now : Time) (results : list APIResult) :
  dom (CostBreakdown (CostAnalysisOf
         (GenerateReport sort_Slice Sprintf_2f now results))) =
  list_to_set (DisplayName <$> List.filter enabled_with_pricing results).
Proof.
  apply set_eq. intros k.
  rewrite report_breakdown_dom, elem_of_list_to_set, list_elem_of_fmap.
  split.
  - intros (r & Hr & Hq & <-). exists r. split; [done|].
    apply list_elem_of_In, filter_In. split; [by apply list_elem_of_In|done].
  - intros (r & -> & Hr%list_elem_of_In%filter_In). destruct Hr as [Hr Hq].
    exists r. split; [by apply list_elem_of_In|done].
Qed.

(** X6. The cost breakdown has at most one entry for each enabled result
    with pricing, and exactly one for each when, and only when, their
    display names are pairwise distinct: results that share a display
    name share one entry. *)
Theorem costBreakdown_size
    (sort_Slice : (APIResult -> APIResult -> bool) ->
                  list APIResult -> list APIResult)
    (Sprintf_2f : float64 -> string) (now : Time) (results : list APIResult) :
  let breakdown :=
    CostBreakdown (CostAnalysisOf
      (GenerateReport sort_Slice Sprintf_2f now results)) in
  let priced := List.filter enabled_with_pricing results in
  (size breakdown <= length priced)%nat /\
  (size breakdown = length priced <-> NoDup (DisplayName <$> priced)).
Proof.
  intros breakdown priced. subst breakdown priced.
  rewrite <- (size_dom (CostBreakdown _)), breakdown_dom_names.
  rewrite <- (length_fmap DisplayName (List.filter _ results)).
  apply size_names.
Qed.

(** ** The statistics of the HTML report *)

Lemma count_result_fields s r :
  HTML.enabledCount (HTML.count_result s r) =
    HTML.enabledCount s + (if is_enabled r then 1 else 0) /\
  HTML.disabledCount (HTML.count_result s r) =
    HTML.disabledCount s + (if is_disabled r then 1 else 0) /\
  HTML.errorCount (HTML.count_result s r) =
    HTML.errorCount s + (if is_errored r then 1 else 0) /\
  HTML.totalCost (HTML.count_result s r) =
    (if enabled_with_pricing r
     then PrimFloat.add (HTML.totalCost s) (cost r) else HTML.totalCost s).
Proof.
  unfold HTML.count_result, enabled_with_pricing, is_enabled, is_disabled,
    is_errored, state_of, cost.
  destruct (String.eqb (Error r) ""), (Enabled r),
    (HasPricing (CostInfoOf r)); cbn; repeat split; lia.
Qed.

Lemma calculate_statistics_fields rs s :
  HTML.enabledCount (fold_left HTML.count_result rs s) =
    HTML.enabledCount s + len (List.filter is_enabled rs) /\
  HTML.disabledCount (fold_left HTML.count_result rs s) =
    HTML.disabledCount s + len (List.filter is_disabled rs) /\
  HTML.errorCount (fold_left HTML.count_result rs s) =
    HTML.errorCount s + len (List.filter is_errored rs) /\
  HTML.totalCost (fold_left HTML.count_result rs s) =
    add_costs (HTML.totalCost s)
      (cost <$> List.filter enabled_with_pricing rs).
Proof.
  revert s. induction rs as [|r rs IH]; intros s; cbn.
  - unfold len; cbn. repeat split; lia.
  - destruct (IH (HTML.count_result s r)) as (-> & -> & -> & ->).
    destruct (count_result_fields s r) as (-> & -> & -> & ->).
    unfold len.
    destruct (is_enabled r), (is_disabled r), (is_errored r),
      (enabled_with_pricing r); cbn [length fmap list_fmap add_costs fold_left];
      repeat split; lia.
Qed.

(** X7. The counts and the total cost that the HTML report computes from
    the results are those of the summary of [GenerateReport] on the same
    results, the total cost to the last bit. *)
Theorem html_statistics_agree
    (sort_Slice : (APIResult -> APIResult -> bool) ->
                  list APIResult -> list APIResult)
    (Sprintf_2f : float64 -> string) (now : Time) (results : list APIResult) :
  let stats := HTML.calculate_statistics results in
  let summary := Summary (GenerateReport sort_Slice Sprintf_2f now results) in
  HTML.enabledCount stats = EnabledCount summary /\
  HTML.disabledCount stats = DisabledCount summary /\
  HTML.errorCount stats = ErrorCount summary /\
  HTML.totalCost stats = TotalCost summary /\
  HTML.enabledCount stats + HTML.disabledCount stats + HTML.errorCount stats
    = len results.
Proof.
  intros stats summary. subst stats summary. unfold HTML.calculate_statistics.
  destruct (calculate_statistics_fields results
              (HTML.mkStatistics 0 0 0 0%float)) as (-> & -> & -> & ->).
  cbn. rewrite tally_enabled, tally_disabled, tally_errorCount,
    tally_totalCost. cbn.
  repeat split. apply classes_add_up.
Qed.

(** ** The simulated source, continued *)

Lemma map_literal_None {V} (kvs : list (string * V)) k :
  map_literal kvs !! k = None <-> k ∉ kvs.*1.
Proof. symmetry. apply not_elem_of_list_to_map. Qed.

Lemma static_isAPIEnabled_ok a : (Static.isAPIEnabled a).2 = None.
Proof.
  unfold Static.isAPIEnabled.
  by destruct (map_literal Static.enabledAPIs !! a).
Qed.

Lemma static_getCostInfo_ok a : (Static.getCostInfo a).2 = None.
Proof.
  unfold Static.getCostInfo.
  by destruct (map_literal Static.costData !! a).
Qed.

Lemma static_probe now a :
  Static.checkSingleAPI now a =
  mkAPIResult a (Static.getAPIDisplayName a)
    (if (Static.isAPIEnabled a).1 then "ENABLED" else "DISABLED")
    (Static.isAPIEnabled a).1 (Static.getCostInfo a).1 now "".
Proof.
  pose proof (static_isAPIEnabled_ok a) as He.
  pose proof (static_getCostInfo_ok a) as Hc.
  unfold Static.checkSingleAPI.
  destruct (Static.isAPIEnabled a) as [b e] eqn:Hb. cbn in He. subst e.
  rewrite (checkSingleAPI_success _ _ _ now a b Hb).
  destruct (Static.getCostInfo a) as [c e]. cbn in Hc. by subst e.
Qed.

(** X8. The simulated source never fails: for every identifier the probe
    returns an empty [Error] and the status "ENABLED" or "DISABLED". An
    identifier that the tables do not know is reported enabled, under its
    own name, with the default cost information. *)
Theorem static_probe_never_fails (now : Time) (a : string) :
  Error (Static.checkSingleAPI now a) = "" /\
  (Status (Static.checkSingleAPI now a) = "ENABLED" \/
   Status (Static.checkSingleAPI now a) = "DISABLED") /\
  (a ∉ Static.enabledAPIs.*1 ->
   Enabled (Static.checkSingleAPI now a) = true /\
   Status (Static.checkSingleAPI now a) = "ENABLED") /\
  (a ∉ Static.displayNames.*1 ->
   DisplayName (Static.checkSingleAPI now a) = a) /\
  (a ∉ Static.costData.*1 ->
   CostInfoOf (Static.checkSingleAPI now a) = Static.default_CostInfo).
Proof.
  rewrite static_probe. cbn [Error Status Enabled DisplayName CostInfoOf].
  split; [done|]. split; [by destruct (Static.isAPIEnabled a).1; auto|].
  split; [|split].
  - intros Hno%map_literal_None. unfold Static.isAPIEnabled. by rewrite Hno.
  - intros Hno%map_literal_None. unfold Static.getAPIDisplayName.
    by rewrite Hno.
  - intros Hno%map_literal_None. unfold Static.getCostInfo. by rewrite Hno.
Qed.

Lemma displayNames_nonempty :
  Forall (fun kv : string * string => kv.2 <> "") Static.displayNames.
Proof. unfold Static.displayNames. repeat constructor; discriminate. Qed.

(** X9. [getAPIDisplayName] returns the empty string only for the empty
    identifier: every mapped display name is non-empty, and an identifier
    without one stands for itself. *)
Theorem display_name_empty_iff (a : string) :
  Static.getAPIDisplayName a = "" <-> a = "".
Proof.
  unfold Static.getAPIDisplayName.
  destruct (map_literal Static.displayNames !! a) as [d|] eqn:Hd.
  - apply map_literal_Some in Hd.
    pose proof displayNames_nonempty as Hall. rewrite Forall_forall in Hall.
    specialize (Hall _ Hd). cbn in Hall.
    split; [done|]. intros ->. exfalso. revert Hd. clear.
    unfold Static.displayNames. intros Hd.
    repeat (apply elem_of_cons in Hd as [Hd|Hd]; [discriminate|]).
    by apply elem_of_nil in Hd.
  - done.
Qed.

Lemma costData_sane :
  Forall (fun kc : string * CostInfo =>
            Currency kc.2 = "USD" /\
            PrimFloat.leb 0 (EstimatedCost kc.2) = true /\
            (UnlimitedCost kc.2 = true ->
             PrimFloat.eqb (EstimatedCost kc.2) 0 = true /\
             PrimFloat.ltb 50 (EstimatedCost kc.2) = false))
    Static.costData.
Proof.
  unfold Static.costData.
  repeat constructor; cbn; try done; by intros _.
Qed.

(** X10. For every identifier the cost information of the simulated
    source is in US dollars with a cost that is a number and not negative;
    an unlimited-cost entry has the cost 0, so that no probed result is
    both an unlimited-cost risk and a high-cost item of the report. *)
Theorem static_cost_info_sane (now : Time) (a : string) :
  Currency (Static.getCostInfo a).1 = "USD" /\
  PrimFloat.leb 0 (EstimatedCost (Static.getCostInfo a).1) = true /\
  (UnlimitedCost (Static.getCostInfo a).1 = true ->
   PrimFloat.eqb (EstimatedCost (Static.getCostInfo a).1) 0 = true) /\
  (is_unlimited_risk (Static.checkSingleAPI now a) = true ->
   is_high_cost (Static.checkSingleAPI now a) = false).
Proof.
  assert (Currency (Static.getCostInfo a).1 = "USD" /\
          PrimFloat.leb 0 (EstimatedCost (Static.getCostInfo a).1) = true /\
          (UnlimitedCost (Static.getCostInfo a).1 = true ->
           PrimFloat.eqb (EstimatedCost (Static.getCostInfo a).1) 0 = true /\
           PrimFloat.ltb 50 (EstimatedCost (Static.getCostInfo a).1) = false))
    as (Hcur & Hpos & Hunl).
  { unfold Static.getCostInfo.
    destruct (map_literal Static.costData !! a) as [c|] eqn:Hc; cbn.
    - apply map_literal_Some in Hc.
      pose proof costData_sane as Hall. rewrite Forall_forall in Hall.
      exact (Hall _ Hc).
    - by repeat split. }
  split; [done|]. split; [done|].
  split; [intros H; by destruct (Hunl H)|].
  rewrite static_probe.
  unfold is_unlimited_risk, is_high_cost, cost. cbn [CostInfoOf].
  intros [_ Hu]%andb_true_iff. destruct (Hunl Hu) as [_ ->].
  apply andb_false_r.
Qed.

(** ** The simulated source behind [CheckAllAPIs] and [GenerateReport] *)

Lemma filter_by_name (P : APIResult -> bool) (p : string -> bool) rs :
  Forall (fun r => P r = p (Name r)) rs ->
  Name <$> List.filter P rs = List.filter p (Name <$> rs).
Proof.
  induction 1 as [|r rs Hr _ IH]; cbn; [done|].
  rewrite <- Hr. destruct (P r); cbn; by rewrite IH.
Qed.

Lemma count_by_name (P : APIResult -> bool) (p : string -> bool) rs apis :
  Forall (fun r => P r = p (Name r)) rs -> Name <$> rs ≡ₚ apis ->
  len (List.filter P rs) = len (List.filter p apis).
Proof.
  intros Hall Hperm. unfold len.
  rewrite <- (length_fmap Name), (filter_by_name P p rs Hall).
  by rewrite (Permutation_length (filter_Permutation_bool p _ _ Hperm)).
Qed.

Lemma static_probed_classes r :
  probed Static.isAPIEnabled Static.getAPIDisplayName Static.getCostInfo r ->
  is_enabled r = static_enabled (Name r) /\
  is_disabled r = negb (static_enabled (Name r)) /\
  is_errored r = false /\
  enabled_with_pricing r = static_priced (Name r) /\
  DisplayName r = Static.getAPIDisplayName (Name r).
Proof.
  intros [now Hr]. rewrite Hr.
  change (checkSingleAPI Static.isAPIEnabled Static.getAPIDisplayName
            Static.getCostInfo) with Static.checkSingleAPI.
  rewrite static_probe.
  unfold enabled_with_pricing, is_enabled, is_disabled, is_errored, state_of,
    static_priced, static_enabled.
  cbn [Error Enabled Name CostInfoOf DisplayName String.eqb negb].
  by destruct (Static.isAPIEnabled (Name r)).1.
Qed.

Lemma report_counts
    (sort_Slice : (APIResult -> APIResult -> bool) ->
                  list APIResult -> list APIResult)
    (Sprintf_2f : float64 -> string) (now : Time) (results : list APIResult) :
  let summary := Summary (GenerateReport sort_Slice Sprintf_2f now results) in
  TotalAPIs summary = len results /\
  EnabledCount summary = len (List.filter is_enabled results) /\
  DisabledCount summary = len (List.filter is_disabled results) /\
  ErrorCount summary = len (List.filter is_errored results).
Proof.
  cbn. rewrite tally_enabled, tally_disabled, tally_errorCount. by cbn.
Qed.

Lemma static_catalogue_counts :
  length Static.getAvailableAPIs.1 = 93%nat /\
  len (List.filter static_enabled Static.getAvailableAPIs.1) = 90 /\
  len (List.filter (fun a => negb (static_enabled a))
         Static.getAvailableAPIs.1) = 3 /\
  length (List.filter static_priced Static.getAvailableAPIs.1) = 18%nat /\
  NoDup (Static.getAPIDisplayName <$>
           List.filter static_priced Static.getAvailableAPIs.1).
Proof.
  repeat split; try (vm_compute; reflexivity).
  refine (bool_decide_unpack _ _). vm_compute. exact I.
Qed.

(** X11. Behind the simulated source, every call of [CheckAllAPIs] with
    one worker or more, however its goroutines interleave, returns results
    of which [GenerateReport] counts 93 in all, 90 enabled, 3 disabled and
    no error, and for which the cost breakdown has 18 entries, one for
    each enabled result with pricing: no two of them share a display
    name. *)
Theorem static_pipeline_report
    (sort_Slice : (APIResult -> APIResult -> bool) ->
                  list APIResult -> list APIResult)
    (Sprintf_2f : float64 -> string) (now : Time)
    (c : GoogleAPIChecker) (r : run) (rs : list APIResult) (err : error) :
  1 <= threads c ->
  rtc (run_step Static.isAPIEnabled Static.getAPIDisplayName Static.getCostInfo)
    (CheckAllAPIs_start Static.getAvailableAPIs c) r ->
  returns r = Some (rs, err) ->
  let report := GenerateReport sort_Slice Sprintf_2f now rs in
  TotalAPIs (Summary report) = 93 /\
  EnabledCount (Summary report) = 90 /\
  DisabledCount (Summary report) = 3 /\
  ErrorCount (Summary report) = 0 /\
  size (CostBreakdown (CostAnalysisOf report)) = 18%nat /\
  length (List.filter enabled_with_pricing rs) = 18%nat.
Proof.
  intros Hn Hrun Hret report.
  destruct (run_returned Static.getAvailableAPIs Static.isAPIEnabled
              Static.getAPIDisplayName Static.getCostInfo c
              Static.getAvailableAPIs.1 r rs err eq_refl Hn Hrun Hret)
    as (_ & Hperm & Hlen & Hprobed).
  destruct static_catalogue_counts as (H93 & H90 & H3 & H18 & Hnd).
  assert (Forall (fun x =>
            is_enabled x = static_enabled (Name x) /\
            is_disabled x = negb (static_enabled (Name x)) /\
            is_errored x = false /\
            enabled_with_pricing x = static_priced (Name x) /\
            DisplayName x = Static.getAPIDisplayName (Name x)) rs) as Hcls.
  { eapply Forall_impl; [exact Hprobed|]. apply static_probed_classes. }
  destruct (report_counts sort_Slice Sprintf_2f now rs)
    as (Htot & Hen & Hdis & Herr).
  assert (Name <$> List.filter enabled_with_pricing rs ≡ₚ
          List.filter static_priced Static.getAvailableAPIs.1) as Hpriced.
  { rewrite (filter_by_name enabled_with_pricing static_priced).
    - by apply filter_Permutation_bool.
    - eapply Forall_impl; [exact Hcls|]. by intros x (_ & _ & _ & ? & _). }
  assert (length (List.filter enabled_with_pricing rs) = 18%nat) as Hlen18.
  { by rewrite <- (length_fmap Name), (Permutation_length Hpriced). }
  subst report. split; [|split; [|split; [|split; [|split]]]].
  - rewrite Htot. unfold len. by rewrite Hlen, H93.
  - rewrite Hen, <- H90. apply count_by_name; [|done].
    eapply Forall_impl; [exact Hcls|]. by intros x (? & _).
  - rewrite Hdis, <- H3. apply count_by_name; [|done].
    eapply Forall_impl; [exact Hcls|]. by intros x (_ & ? & _).
  - rewrite Herr. rewrite filter_none; [done|].
    eapply Forall_impl; [exact Hcls|]. by intros x (_ & _ & ? & _).
  - rewrite <- Hlen18, <- (size_dom (CostBreakdown _)), breakdown_dom_names.
    rewrite <- (length_fmap DisplayName (List.filter _ rs)).
    apply size_names.
    assert (DisplayName <$> List.filter enabled_with_pricing rs =
            Static.getAPIDisplayName <$>
              (Name <$> List.filter enabled_with_pricing rs)) as ->.
    { rewrite <- list_fmap_compose. apply list_fmap_ext.
      intros i x Hx%list_elem_of_lookup_2%list_elem_of_In%filter_In.
      destruct Hx as [Hx%list_elem_of_In _].
      rewrite Forall_forall in Hcls. by destruct (Hcls x Hx) as (_&_&_&_&?). }
    by rewrite Hpriced.
  - exact Hlen18.
Qed.

(** ** The worker pool, continued *)

Section PoolOrder.
Variable getAvailableAPIs : list string * error.
Variable isAPIEnabled : string -> bool * error.
Variable getAPIDisplayName : string -> string.
Variable getCostInfo : string -> CostInfo * error.

Local Abbreviation probe :=
  (checkSingleAPI isAPIEnabled getAPIDisplayName getCostInfo).
Local Abbreviation pstep :=
  (step isAPIEnabled getAPIDisplayName getCostInfo).
Local Abbreviation rstep :=
  (run_step isAPIEnabled getAPIDisplayName getCostInfo).
Local Abbreviation start := (CheckAllAPIs_start getAvailableAPIs).

(** With a single worker every step keeps the identifiers in sequence. *)
Lemma step_in_sequence p p' :
  length (workers p) = 1%nat -> pstep p p' ->
  length (workers p') = 1%nat /\ in_sequence p' = in_sequence p.
Proof.
  intros Hone Hstep. destruct Hstep; unfold in_sequence; cbn in *;
    try (split; [done|]);
    try match goal with
        | H : ?ws !! ?i = Some _ |- _ =>
            destruct ws as [|w [|? ?]]; try discriminate;
            destruct i as [|i]; [|discriminate];
            cbn in H; injection H as ->; cbn
        end;
    rewrite ?fmap_app, ?checkSingleAPI_Name; cbn;
    rewrite <- ?app_assoc; try done.
Qed.

Lemma reachable_in_sequence apis p :
  rtc pstep (init_pool apis 1) p ->
  length (workers p) = 1%nat /\ in_sequence p = apis.
Proof.
  revert p. apply rtc_ind_r.
  - split; [done|]. unfold in_sequence. by cbn.
  - intros p q _ Hstep [Hone Hseq].
    destruct (step_in_sequence p q Hone Hstep) as [Hone' Hseq'].
    split; [done|]. by rewrite Hseq'.
Qed.

(** Without a worker nothing is ever received. *)
Lemma reachable_no_worker apis n p :
  n <= 0 -> rtc pstep (init_pool apis n) p ->
  workers p = [] /\ results p = [] /\ allResults p = [] /\ current p = 0.
Proof.
  intros Hn. revert p. apply rtc_ind_r.
  - cbn. by rewrite Z2Nat.nonpos.
  - intros p q _ Hstep (Hws & Hrs & Hall & Hcur).
    destruct Hstep; cbn in *; subst; try done.
Qed.

(** The run of one worker that takes the catalogue in its order. *)
Lemma sending_run cap us js ws :
  (length js + length us <= cap)%nat ->
  rtc pstep (mkPool cap us js false ws [] false [] 0 false)
            (mkPool cap [] (js ++ us) false ws [] false [] 0 false).
Proof.
  revert js. induction us as [|api us IH]; intros js Hcap; cbn in *.
  - rewrite app_nil_r. apply rtc_refl.
  - eapply rtc_l; [apply step_send_job; lia|].
    replace (js ++ api :: us) with ((js ++ [api]) ++ us)
      by (by rewrite <- app_assoc).
    apply IH. rewrite length_app. cbn. lia.
Qed.

Lemma probing_run cap js all cur :
  (length js <= cap)%nat ->
  rtc pstep (mkPool cap [] js true [AtRange] [] false all cur false)
            (mkPool cap [] [] true [AtRange] [] false
               (all ++ (probe 0 <$> js)) (cur + len js) false).
Proof.
  revert all cur. induction js as [|api js IH]; intros all cur Hcap; cbn in *.
  - rewrite app_nil_r. unfold len. cbn. rewrite Z.add_0_r. apply rtc_refl.
  - eapply rtc_l.
    { apply (step_worker_receive _ _ _ _ _ _ _ _ _ 0%nat 0). reflexivity. }
    eapply rtc_l.
    { apply (step_worker_send _ _ _ _ _ _ _ _ 0%nat); [reflexivity|].
      cbn. lia. }
    eapply rtc_l; [apply step_collect|]. cbn.
    replace (all ++ probe 0 api :: (probe 0 <$> js))
      with ((all ++ [probe 0 api]) ++ (probe 0 <$> js))
      by (by rewrite <- app_assoc).
    replace (cur + len (api :: js)) with (cur + 1 + len js)
      by (unfold len; cbn [length]; lia).
    apply IH. lia.
Qed.

Lemma one_worker_run apis :
  rtc pstep (init_pool apis 1) (one_worker_done probe apis).
Proof.
  unfold init_pool, one_worker_done.
  change (replicate (Z.to_nat 1) AtRange) with [AtRange].
  etrans; [apply (sending_run _ apis []); cbn; lia|].
  eapply rtc_l; [apply step_close_jobs|]. cbn.
  etrans; [apply (probing_run _ apis [] 0); lia|]. cbn.
  eapply rtc_l; [apply (step_worker_exit _ _ _ _ _ _ 0%nat); reflexivity|].
  eapply rtc_l; [apply step_close_results; by repeat constructor|].
  eapply rtc_l; [apply step_return|]. cbn.
  apply rtc_refl.
Qed.
End PoolOrder.

Section RunOrder.
Variable getAvailableAPIs : list string * error.
Variable isAPIEnabled : string -> bool * error.
Variable getAPIDisplayName : string -> string.
Variable getCostInfo : string -> CostInfo * error.

Local Abbreviation probe :=
  (checkSingleAPI isAPIEnabled getAPIDisplayName getCostInfo).
Local Abbreviation pstep :=
  (step isAPIEnabled getAPIDisplayName getCostInfo).
Local Abbreviation rstep :=
  (run_step isAPIEnabled getAPIDisplayName getCostInfo).
Local Abbreviation start := (CheckAllAPIs_start getAvailableAPIs).

Lemma running_pool c apis p :
  getAvailableAPIs = (apis, None) -> rtc rstep (start c) (Running p) ->
  rtc pstep (init_pool apis (threads c)) p.
Proof.
  intros Hget Hrun. unfold CheckAllAPIs_start in Hrun. rewrite Hget in Hrun.
  apply pool_of_run in Hrun as (p' & Heq & Hrun). by injection Heq as ->.
Qed.

(** X12. The progress bar counts the collected results: in every state of
    a call [progress.current] is the length of [allResults] and lies
    between 0 and the length of the catalogue, a step of the call leaves
    it or adds one to it, and with one worker or more it is the length of
    the catalogue when the call returns. *)
Theorem progress_counts_results c apis p :
  getAvailableAPIs = (apis, None) ->
  rtc rstep (start c) (Running p) ->
  current p = len (allResults p) /\
  0 <= current p <= len apis /\
  (forall p', pstep p p' -> current p <= current p' <= current p + 1) /\
  (1 <= threads c -> returned p = true -> current p = len apis).
Proof.
  intros Hget Hrun. apply (running_pool c apis p Hget) in Hrun.
  apply reachable_inv in Hrun.
  pose proof (inv_current _ _ _ _ _ _ Hrun) as Hcur.
  pose proof (inv_lengths _ _ _ _ _ _ Hrun) as Hlen.
  split; [done|]. split; [unfold len in *; lia|]. split.
  - intros p' Hstep. destruct Hstep; cbn; lia.
  - intros Hn Hret.
    by destruct (pool_returned _ _ _ _ _ _ Hrun Hn Hret) as (_ & _ & _ & ?).
Qed.

(** X13. With no worker ([threads] zero or negative) the call still
    returns, without an error, and what it returns is the empty slice
    whatever the catalogue holds: nothing is probed. *)
Theorem no_worker_returns_nothing c apis r rs err :
  getAvailableAPIs = (apis, None) ->
  threads c <= 0 ->
  rtc rstep (start c) r ->
  (exists r', rtc rstep r r' /\ returns r' = Some ([], None)) /\
  (returns r = Some (rs, err) -> rs = [] /\ err = None).
Proof.
  intros Hget Hn Hrun. split.
  - destruct (run_completes getAvailableAPIs isAPIEnabled getAPIDisplayName
                getCostInfo c r) as (r' & rs' & Hrun' & Hret');
      [by rewrite Hget|done|].
    exists r'. split; [done|].
    assert (rtc rstep (start c) r') as Hall by (by etrans).
    unfold CheckAllAPIs_start in Hall. rewrite Hget in Hall.
    apply pool_of_run in Hall as (p' & -> & Hp').
    destruct (reachable_no_worker isAPIEnabled getAPIDisplayName getCostInfo
                apis (threads c) p' Hn Hp') as (_ & _ & Hnil & _).
    cbn in *. destruct (returned p'); [|done]. by rewrite Hnil.
  - intros Hret. unfold CheckAllAPIs_start in Hrun. rewrite Hget in Hrun.
    apply pool_of_run in Hrun as (p & -> & Hp).
    destruct (reachable_no_worker isAPIEnabled getAPIDisplayName getCostInfo
                apis (threads c) p Hn Hp) as (_ & _ & Hnil & _).
    cbn in Hret. destruct (returned p); [|done].
    injection Hret as <- <-. by rewrite Hnil.
Qed.

(** X14. With a single worker the results come back in the order of the
    catalogue: the identifiers of the returned slice are the catalogue,
    entry for entry. *)
Theorem single_worker_keeps_order c apis r rs err :
  getAvailableAPIs = (apis, None) ->
  threads c = 1 ->
  rtc rstep (start c) r ->
  returns r = Some (rs, err) ->
  Name <$> rs = apis.
Proof.
  intros Hget Hone Hrun Hret.
  unfold CheckAllAPIs_start in Hrun. rewrite Hget, Hone in Hrun.
  apply pool_of_run in Hrun as (p & -> & Hp).
  destruct (reachable_in_sequence isAPIEnabled getAPIDisplayName getCostInfo
              apis p Hp) as [_ Hseq].
  apply reachable_inv in Hp. cbn in Hret.
  destruct (returned p) eqn:Hdone; [|done]. injection Hret as <- <-.
  destruct (inv_returned _ _ _ _ _ _ Hp Hdone) as [Hrc Hrs].
  pose proof (inv_results_closed _ _ _ _ _ _ Hp Hrc) as Hex.
  assert (Exited ∈ workers p) as Hin.
  { pose proof (inv_workers _ _ _ _ _ _ Hp) as Hlen.
    destruct (workers p) as [|w ws]; [cbn in Hlen; lia|].
    inversion Hex; subst. apply elem_of_cons. by left. }
  destruct (inv_exited _ _ _ _ _ _ Hp Hin) as [Hjc Hjs].
  pose proof (inv_jobs_closed _ _ _ _ _ _ Hp Hjc) as Hus.
  unfold in_sequence in Hseq.
  rewrite Hus, Hjs, Hrs, (in_hand_exited _ Hex) in Hseq. cbn in Hseq.
  by rewrite !app_nil_r in Hseq.
Qed.
End RunOrder.

Lemma progress_counts_results_witness :
  current two_workers_done = len (allResults two_workers_done) /\
  0 <= current two_workers_done <= len two_apis.1.
Proof.
  destruct (progress_counts_results two_apis Static.isAPIEnabled
              Static.getAPIDisplayName Static.getCostInfo
              (NewGoogleAPIChecker "" 2) two_apis.1 two_workers_done
              eq_refl two_workers_run) as (H1 & H2 & _).
  exact (conj H1 H2).
Defined.

Lemma no_worker_returns_nothing_witness :
  exists r',
    rtc (run_step Static.isAPIEnabled Static.getAPIDisplayName
           Static.getCostInfo)
      (CheckAllAPIs_start two_apis (NewGoogleAPIChecker "" 0)) r' /\
    returns r' = Some ([], None).
Proof.
  exact (proj1 (no_worker_returns_nothing two_apis Static.isAPIEnabled
           Static.getAPIDisplayName Static.getCostInfo
           (NewGoogleAPIChecker "" 0) two_apis.1 _ [] None eq_refl
           ltac:(cbn; lia) (rtc_refl _ _))).
Defined.

Lemma single_worker_keeps_order_witness :
  Name <$> allResults (one_worker_done Static.checkSingleAPI
                         Static.getAvailableAPIs.1) =
  Static.getAvailableAPIs.1.
Proof.
  apply (single_worker_keeps_order Static.getAvailableAPIs
           Static.isAPIEnabled Static.getAPIDisplayName Static.getCostInfo
           (NewGoogleAPIChecker "" 1) Static.getAvailableAPIs.1
           (Running (one_worker_done Static.checkSingleAPI
                       Static.getAvailableAPIs.1))
           _ None eq_refl eq_refl).
  - apply run_of_pool. apply one_worker_run.
  - reflexivity.
Defined.

Lemma static_pipeline_report_witness :
  ErrorCount (Summary
    (GenerateReport insertion_sort Sprintf_2f_fixture 0
       (allResults (one_worker_done Static.checkSingleAPI
                      Static.getAvailableAPIs.1)))) = 0.
Proof.
  apply (static_pipeline_report insertion_sort Sprintf_2f_fixture 0
           (NewGoogleAPIChecker "" 1)
           (Running (one_worker_done Static.checkSingleAPI
                       Static.getAvailableAPIs.1))
           _ None ltac:(cbn; lia)).
  - apply run_of_pool. apply one_worker_run.
  - reflexivity.
Defined.

(** ** The exports *)

Lemma string_length_append (s1 s2 : string) :
  String.length (s1 +:+ s2) = (String.length s1 + String.length s2)%nat.
Proof.
  induction s1 as [|a s1 IH]; [done|].
  change (S (String.length (s1 +:+ s2)) =
          S (String.length s1 + String.length s2)).
  by rewrite IH.
Qed.

Lemma string_length_substring n s :
  (n <= String.length s)%nat -> String.length (String.substring 0 n s) = n.
Proof.
  revert s. induction n as [|n IH]; intros [|a s] Hn; cbn in *; try done.
  - lia.
  - rewrite IH; [done|lia].
Qed.

Lemma string_substring_prefix n s :
  exists rest, s = String.substring 0 n s +:+ rest.
Proof.
  revert s. induction n as [|n IH]; intros [|a s]; cbn.
  - by exists "".
  - by exists (String a s).
  - by exists "".
  - destruct (IH s) as [rest Hrest]. exists rest.
    change (String a s = String a (String.substring 0 n s +:+ rest)).
    by rewrite <- Hrest.
Qed.

(** X15. A row of the table of the PDF has five cells, as many as there
    are headers and column widths, so that [widths[i]] is in range for
    every cell. Its first cell is the display name when that has at most
    25 bytes, and otherwise the first 22 bytes of it followed by three
    dots: it never has more than 25 bytes. *)
Theorem pdf_row_fits (Sprintf_2f : float64 -> string) (result : APIResult) :
  length (pdf_row Sprintf_2f result) = length pdf_headers /\
  length (pdf_row Sprintf_2f result) = length pdf_widths /\
  (forall i cell, pdf_row Sprintf_2f result !! i = Some cell ->
     is_Some (pdf_widths !! i)) /\
  pdf_row Sprintf_2f result !! 0%nat =
    Some (truncate_name (DisplayName result)) /\
  (String.length (truncate_name (DisplayName result)) <= 25)%nat /\
  ((String.length (DisplayName result) <= 25)%nat ->
   truncate_name (DisplayName result) = DisplayName result) /\
  ((25 < String.length (DisplayName result))%nat ->
   String.length (truncate_name (DisplayName result)) = 25%nat /\
   exists rest,
     DisplayName result =
       String.substring 0 22 (DisplayName result) +:+ rest /\
     truncate_name (DisplayName result) =
       String.substring 0 22 (DisplayName result) +:+ "...").
Proof.
  split; [done|]. split; [done|]. split.
  { intros i cell Hi. apply lookup_lt_Some in Hi. apply lookup_lt_is_Some.
    exact Hi. }
  split; [done|]. unfold truncate_name.
  destruct (Z.ltb_spec 25 (Z.of_nat (String.length (DisplayName result))))
    as [Hlong|Hshort].
  - assert (String.length (String.substring 0 22 (DisplayName result)
                             +:+ "...") = 25%nat) as Hlen.
    { rewrite string_length_append, string_length_substring; [done|lia]. }
    split; [lia|]. split; [lia|]. intros _. split; [done|].
    destruct (string_substring_prefix 22 (DisplayName result)) as [rest Hrest].
    by exists rest.
  - split; [lia|]. split; [done|]. lia.
Qed.

Section ExportFacts.
Variable Sprintf_2f : float64 -> string.
Variable Format : Time -> string.
Variable write_error : list (list string) -> list string -> error.

Local Abbreviation row := (csv_row Sprintf_2f Format).
Local Abbreviation rows := (write_rows Sprintf_2f Format write_error).

Lemma write_rows_spec handed results :
  exists j,
    (rows handed results).2 = handed ++ take j (row <$> results) /\
    (forall i record, (row <$> results) !! i = Some record ->
       (S i < j)%nat ->
       write_error (handed ++ take i (row <$> results)) record = None) /\
    ((rows handed results).1 = None ->
     take j (row <$> results) = row <$> results /\
     forall i record, (row <$> results) !! i = Some record ->
       write_error (handed ++ take i (row <$> results)) record = None) /\
    ((rows handed results).1 <> None ->
     exists i record,
       j = S i /\ (row <$> results) !! i = Some record /\
       write_error (handed ++ take i (row <$> results)) record <> None).
Proof.
  revert handed. induction results as [|result results IH]; intros handed.
  - exists 0%nat. cbn. rewrite app_nil_r. repeat split; try done.
  - cbn [write_rows fmap list_fmap].
    destruct (write_error handed (row result)) as [e|] eqn:He.
    + exists 1%nat. cbn. repeat split; try done.
      * intros i record _ Hi. lia.
      * intros _. exists 0%nat, (row result). cbn.
        rewrite app_nil_r, He. done.
    + destruct (IH (handed ++ [row result]))
        as (j & Hout & Hbefore & Hnone & Hsome).
      exists (S j). split; [|split; [|split]].
      * rewrite Hout, <- app_assoc. done.
      * intros [|i] record Hi Hlt; cbn in Hi.
        { injection Hi as <-. cbn. by rewrite app_nil_r. }
        cbn. rewrite cons_middle, app_assoc.
        apply Hbefore; [done|lia].
      * intros Hok. destruct (Hnone Hok) as [Hall Hacc]. split.
        { cbn. by rewrite Hall. }
        intros [|i] record Hi; cbn in Hi.
        { injection Hi as <-. cbn. by rewrite app_nil_r. }
        cbn. rewrite cons_middle, app_assoc. by apply Hacc.
      * intros Hko. destruct (Hsome Hko) as (i & record & -> & Hi & Href).
        exists (S i), record. split; [done|]. split; [done|].
        cbn. by rewrite cons_middle, app_assoc.
Qed.

(** X16. When the file was created, [exportToCSV] hands the writer the
    header and then one record for each result, in the order of the
    results, up to and with the first record that [writer.Write] refuses;
    every record has the eleven fields of the header. It returns no error
    exactly when [writer.Write] accepted the header and the record of
    every result. At every return after the file was created it then
    flushes the writer once and closes the file, in this order, and it
    never asks [writer.Error]: that no error is returned says that every
    record was accepted by the buffered writer, not that the records are
    in the file. *)
Theorem exportToCSV_records (create_error : error) (results : list APIResult) :
  let out := exportToCSV Sprintf_2f Format write_error create_error results in
  (create_error <> None -> out.1 <> None /\ out.2 = []) /\
  (create_error = None ->
   exists handed,
     out.2 = (CallWrite <$> handed) ++ [CallFlush; CallClose] /\
     handed <> [] /\
     handed `prefix_of` csv_header :: (row <$> results) /\
     Forall (fun record => length record = length csv_header) handed /\
     (forall k record, handed !! k = Some record ->
        (S k < length handed)%nat ->
        write_error (take k handed) record = None) /\
     (out.1 = None <->
      handed = csv_header :: (row <$> results) /\
      forall k record, handed !! k = Some record ->
        write_error (take k handed) record = None) /\
     (out.1 <> None ->
      exists k record,
        length handed = S k /\ handed !! k = Some record /\
        write_error (take k handed) record <> None)) /\
  CallError ∉ out.2.
Proof.
  intros out. subst out. unfold exportToCSV.
  destruct create_error as [e|]; cbn [fst snd].
  { split; [done|]. split; [done|]. apply not_elem_of_nil. }
  split; [done|].
  assert (forall handed : list (list string),
            CallError ∉ (CallWrite <$> handed) ++ [CallFlush; CallClose])
    as Hnever.
  { intros handed Hin. apply elem_of_app in Hin as [Hin|Hin].
    - apply list_elem_of_fmap in Hin as (record & Heq & _). discriminate.
    - apply elem_of_cons in Hin as [Heq|Hin]; [discriminate|].
      apply elem_of_cons in Hin as [Heq|Hin]; [discriminate|].
      by apply elem_of_nil in Hin. }
  destruct (write_error [] csv_header) as [e|] eqn:Hheader.
  { cbn [fst snd]. split; [|apply Hnever]. intros _.
    exists [csv_header]. split; [done|]. split; [done|].
    split; [by exists (row <$> results)|].
    split; [by repeat constructor|].
    split; [intros k record _ Hk; cbn in Hk; lia|].
    split; [split; [done|]|].
    - intros [_ Hacc]. specialize (Hacc 0%nat csv_header eq_refl).
      cbn in Hacc. by rewrite Hheader in Hacc.
    - intros _. exists 0%nat, csv_header. cbn. by rewrite Hheader. }
  destruct (rows [csv_header] results) as [err handed] eqn:Hrows.
  cbn [fst snd]. split; [|apply Hnever]. intros _.
  destruct (write_rows_spec [csv_header] results)
    as (j & Hout & Hbefore & Hnone & Hsome).
  rewrite Hrows in Hout, Hnone, Hsome. cbn [fst snd] in Hout, Hnone, Hsome.
  change ([csv_header] ++ take j (row <$> results))
    with (csv_header :: take j (row <$> results)) in Hout.
  exists handed. split; [done|]. subst handed.
  assert (forall k record,
            (csv_header :: take j (row <$> results)) !! k = Some record ->
            (forall i, k = S i -> (row <$> results) !! i = Some record ->
               write_error ([csv_header] ++ take i (row <$> results)) record
               = None) ->
            write_error (take k (csv_header :: take j (row <$> results)))
              record = None) as Hlookup.
  { intros [|i] record Hk Hacc; cbn in Hk.
    - injection Hk as <-. done.
    - apply lookup_take_Some in Hk as [Hk Hij].
      cbn. rewrite take_take, Nat.min_l by lia.
      by apply (Hacc i). }
  split; [done|].
  split.
  { apply prefix_cons. exists (drop j (row <$> results)).
    by rewrite take_drop. }
  split.
  { constructor; [done|]. apply Forall_take, Forall_fmap, Forall_true. done. }
  split.
  { intros k record Hk Hlt. apply (Hlookup k record Hk).
    intros i -> Hi. apply Hbefore; [done|].
    cbn in Hlt. rewrite length_take in Hlt. lia. }
  split.
  { split.
    - intros Hok. destruct (Hnone Hok) as [Hall Hacc]. split.
      + by rewrite Hall.
      + intros k record Hk. apply (Hlookup k record Hk).
        intros i _ Hi. by apply Hacc.
    - intros [Hall Hacc]. destruct err as [e|]; [|done]. exfalso.
      destruct Hsome as (i & record & -> & Hi & Href); [done|].
      apply Href. specialize (Hacc (S i) record). cbn in Hacc.
      rewrite take_take, Nat.min_l in Hacc by lia.
      apply Hacc. apply lookup_take_Some. split; [done|lia]. }
  intros Hko. destruct (Hsome Hko) as (i & record & -> & Hi & Href).
  exists (S i), record.
  assert (i < length (row <$> results))%nat as Hlen
    by (by apply lookup_lt_Some in Hi).
  split; [cbn; rewrite length_take; lia|].
  split.
  { cbn. apply lookup_take_Some. split; [done|lia]. }
  cbn. by rewrite take_take, Nat.min_l by lia.
Qed.
End ExportFacts.

(** ** The names of the output files *)

Lemma strip_prefix_Some p s rest :
  strip_prefix p s = Some rest -> s = p +:+ rest.
Proof.
  revert s. induction p as [|a p IH]; intros [|b s] H; cbn in H;
    try by simplify_eq.
  destruct (Ascii.eqb_spec a b) as [->|]; [|done].
  change (String b s = String b (p +:+ rest)). f_equal. by apply IH.
Qed.

Lemma strip_prefix_app p rest : strip_prefix p (p +:+ rest) = Some rest.
Proof.
  induction p as [|a p IH]; [by destruct rest|].
  change (strip_prefix (String a p) (String a (p +:+ rest)) = Some rest).
  cbn. by rewrite Ascii.eqb_refl.
Qed.

Lemma Cut_Some s sep before after :
  Cut s sep = Some (before, after) -> s = before +:+ sep +:+ after.
Proof.
  revert before. induction s as [|c s IH]; intros before H; cbn in H.
  - destruct (strip_prefix sep "") as [rest|] eqn:Hp; [|done].
    injection H as <- <-. by apply strip_prefix_Some in Hp.
  - destruct (strip_prefix sep (String c s)) as [rest|] eqn:Hp.
    + injection H as <- <-. by apply strip_prefix_Some in Hp.
    + destruct (Cut s sep) as [[b a]|]; [|done]. injection H as <- <-.
      change (String c s = String c (b +:+ sep +:+ a)). f_equal. by apply IH.
Qed.

Lemma Cut_None s sep before after :
  Cut s sep = None -> s <> before +:+ sep +:+ after.
Proof.
  revert before. induction s as [|c s IH]; intros before H Heq; cbn in H.
  - destruct before; [|done].
    change (EmptyString = sep +:+ after) in Heq.
    by rewrite Heq, strip_prefix_app in H.
  - destruct (strip_prefix sep (String c s)) as [rest|] eqn:Hp; [done|].
    destruct before as [|b before].
    + change (String c s = sep +:+ after) in Heq.
      by rewrite Heq, strip_prefix_app in Hp.
    + change (String c s = String b (before +:+ sep +:+ after)) in Heq.
      injection Heq as -> Heq.
      destruct (Cut s sep) as [[? ?]|] eqn:Hc; [done|].
      by apply (IH before).
Qed.

Lemma Cut_first s sep before after b a :
  Cut s sep = Some (before, after) -> s = b +:+ sep +:+ a ->
  (String.length before <= String.length b)%nat.
Proof.
  revert before b. induction s as [|c s IH]; intros before b H Heq; cbn in H.
  - destruct (strip_prefix sep "") as [rest|] eqn:Hp; [|done].
    injection H as <- <-. cbn. lia.
  - destruct (strip_prefix sep (String c s)) as [rest|] eqn:Hp.
    + injection H as <- <-. cbn. lia.
    + destruct b as [|c' b].
      * change (String c s = sep +:+ a) in Heq.
        by rewrite Heq, strip_prefix_app in Hp.
      * change (String c s = String c' (b +:+ sep +:+ a)) in Heq.
        injection Heq as -> Heq.
        destruct (Cut s sep) as [[b0 a0]|] eqn:Hc; [|done].
        injection H as <- <-. cbn.
        specialize (IH b0 b eq_refl Heq). lia.
Qed.

(** X17. [runChecker] derives the names of the report and of the HTML
    report from the output path by replacing its first ".json". When the
    path holds no ".json" both names are the output path itself, and the
    file of the results ends up holding the HTML report. When it does,
    the first ".json" is replaced, the three paths are pairwise distinct,
    and each file holds what was written to it. *)
Theorem output_files_collide_without_json
    (output results_json report_json html : string)
    (files : gmap string string) :
  ((forall b a, output <> b +:+ ".json" +:+ a) ->
   reportFile output = output /\ htmlFile output = output /\
   write_outputs output results_json report_json html files !! output =
     Some html) /\
  (forall b a, output = b +:+ ".json" +:+ a ->
   exists before after,
     output = before +:+ ".json" +:+ after /\
     (String.length before <= String.length b)%nat /\
     reportFile output = before +:+ "_report.json" +:+ after /\
     htmlFile output = before +:+ "_report.html" +:+ after /\
     reportFile output <> output /\ htmlFile output <> output /\
     reportFile output <> htmlFile output /\
     write_outputs output results_json report_json html files !! output =
       Some results_json /\
     write_outputs output results_json report_json html files
       !! reportFile output = Some report_json /\
     write_outputs output results_json report_json html files
       !! htmlFile output = Some html).
Proof.
  split.
  - intros Hnone.
    assert (Cut output ".json" = None) as Hcut.
    { destruct (Cut output ".json") as [[b a]|] eqn:Hc; [|done].
      apply Cut_Some in Hc. by destruct (Hnone b a). }
    unfold write_outputs, reportFile, htmlFile, Replace_first.
    rewrite Hcut. split; [done|]. split; [done|].
    by rewrite lookup_insert_eq.
  - intros b a Hout.
    destruct (Cut output ".json") as [[before after]|] eqn:Hcut;
      [|by destruct (Cut_None _ _ b a Hcut)].
    pose proof (Cut_first _ _ _ _ b a Hcut Hout) as Hfirst.
    pose proof (Cut_Some _ _ _ _ Hcut) as Hsplit.
    exists before, after.
    assert (reportFile output = before +:+ "_report.json" +:+ after) as Hr.
    { unfold reportFile, Replace_first. by rewrite Hcut. }
    assert (htmlFile output = before +:+ "_report.html" +:+ after) as Hh.
    { unfold htmlFile, Replace_first. by rewrite Hcut. }
    assert (reportFile output <> output) as Hro.
    { rewrite Hr. intros Heq. rewrite Hsplit in Heq.
      apply (inj (String.app before)) in Heq. discriminate Heq. }
    assert (htmlFile output <> output) as Hho.
    { rewrite Hh. intros Heq. rewrite Hsplit in Heq.
      apply (inj (String.app before)) in Heq. discriminate Heq. }
    assert (reportFile output <> htmlFile output) as Hrh.
    { rewrite Hr, Hh.
      intros Heq%(inj (String.app before)). discriminate Heq. }
    repeat split; try done; unfold write_outputs.
    + rewrite lookup_insert_ne, lookup_insert_ne by done.
      by rewrite lookup_insert_eq.
    + rewrite lookup_insert_ne by done. by rewrite lookup_insert_eq.
    + by rewrite lookup_insert_eq.
Qed.

(** ** The live probe source *)

Lemma string_substring_app_l (s rest : string) :
  String.substring 0 (String.length s) (s +:+ rest) = s.
Proof.
  induction s as [|a s IH]; [by destruct rest|].
  change (String a (String.substring 0 (String.length s) (s +:+ rest)) =
          String a s).
  by rewrite IH.
Qed.

Lemma string_substring_all (s : string) :
  String.substring 0 (String.length s) s = s.
Proof. induction s as [|a s IH]; cbn; [done|]. by rewrite IH. Qed.

Lemma string_substring_app_r (s rest : string) (m : nat) :
  String.substring (String.length s) m (s +:+ rest) =
  String.substring 0 m rest.
Proof.
  induction s as [|a s IH]; [done|].
  change (String.substring (String.length s) m (s +:+ rest) =
          String.substring 0 m rest).
  exact IH.
Qed.

Lemma HasSuffix_app (s suffix : string) :
  Live.HasSuffix (s +:+ suffix) suffix = true.
Proof.
  unfold Live.HasSuffix. rewrite string_length_append.
  apply andb_true_intro. split; [apply Nat.leb_le; lia|].
  replace (String.length s + String.length suffix - String.length suffix)%nat
    with (String.length s) by lia.
  rewrite string_substring_app_r, string_substring_all.
  apply String.eqb_refl.
Qed.

(** Trimming a suffix that was appended gives the string back. *)
Lemma TrimSuffix_app (s suffix : string) :
  Live.TrimSuffix (s +:+ suffix) suffix = s.
Proof.
  unfold Live.TrimSuffix. rewrite HasSuffix_app, string_length_append.
  replace (String.length s + String.length suffix - String.length suffix)%nat
    with (String.length s) by lia.
  apply string_substring_app_l.
Qed.

Lemma names_in_length key result xs :
  result !! key = Some (Live.JArray xs) ->
  (length (Live.names_in key result) <= length xs)%nat.
Proof.
  intros H. unfold Live.names_in. rewrite H. clear H.
  induction xs as [|x xs IH]; cbn; [done|].
  destruct (Live.name_of x); cbn; lia.
Qed.

Section LiveFacts.
Variable NewRequest_error : string -> error.
Variable Do : Live.Request -> Live.Response * error.
Variable Decode : string -> gmap string Live.json * error.
Variable getAPIDisplayName : string -> string.
Variable getCostInfo : string -> CostInfo * error.

Local Abbreviation check_real :=
  (Live.checkAPIEnabledReal NewRequest_error Do Decode).
Local Abbreviation is_enabled_live :=
  (Live.isAPIEnabled NewRequest_error Do Decode).
Local Abbreviation list_real :=
  (Live.getAvailableAPIsReal NewRequest_error Do Decode).
Local Abbreviation list_live :=
  (Live.getAvailableAPIs NewRequest_error Do Decode).
Local Abbreviation probe_live c :=
  (checkSingleAPI (is_enabled_live c) getAPIDisplayName getCostInfo).

(** The three ways [checkAPIEnabledReal] returns. *)
Lemma checkAPIEnabledReal_cases (c : Live.GoogleAPIChecker) (apiName : string) :
  (exists e, check_real c apiName = (false, Some e) /\ e <> "") \/
  check_real c apiName = (false, None) \/
  (check_real c apiName = (true, None) /\
   Live.projectID c <> "" /\
   exists resp result,
     Do (Live.request c (Live.check_url c apiName)) = (resp, None) /\
     Live.StatusCode resp = 200 /\
     Decode (Live.Body resp) = (result, None) /\
     (result !! "state" = Some (Live.JString "ENABLED") \/
      forall state, result !! "state" <> Some (Live.JString state))).
Proof.
  unfold Live.checkAPIEnabledReal.
  destruct (NewRequest_error (Live.check_url c apiName)) as [e0|].
  { left. by eexists. }
  destruct (Do (Live.request c (Live.check_url c apiName)))
    as [resp [e0|]] eqn:HDo.
  { left. by eexists. }
  destruct (String.eqb_spec (Live.projectID c) "") as [Hp|Hp]; cbn [negb].
  { destruct (Z.eqb_spec (Live.StatusCode resp) 200); [by right; left|].
    destruct (Z.eqb_spec (Live.StatusCode resp) 404); [by right; left|].
    left. by eexists. }
  destruct (Z.eqb_spec (Live.StatusCode resp) 200) as [H200|H200].
  2:{ destruct (Z.eqb_spec (Live.StatusCode resp) 404); [by right; left|].
      left. by eexists. }
  destruct (Decode (Live.Body resp)) as [result [e0|]] eqn:HDec.
  { left. by eexists. }
  assert (forall b : bool,
            (b = true ->
             result !! "state" = Some (Live.JString "ENABLED") \/
             forall state, result !! "state" <> Some (Live.JString state)) ->
            (exists e, (b, @None string) = (false, Some e) /\ e <> "") \/
            (b, @None string) = (false, None) \/
            ((b, @None string) = (true, None) /\
             Live.projectID c <> "" /\
             exists resp0 result0,
               (resp, @None string) = (resp0, None) /\
               Live.StatusCode resp0 = 200 /\
               Decode (Live.Body resp0) = (result0, None) /\
               (result0 !! "state" = Some (Live.JString "ENABLED") \/
                forall state,
                  result0 !! "state" <> Some (Live.JString state))))
    as Hfinish.
  { intros [|] Hb; [|by right; left]. right; right.
    split; [done|]. split; [done|]. exists resp, result.
    split; [done|]. split; [done|]. split; [done|]. by apply Hb. }
  destruct (result !! "state") as [[| | |state| |]|] eqn:Hst;
    apply Hfinish; intros Hb; try (right; by intros state').
  left. by apply String.eqb_eq in Hb as ->.
Qed.

Lemma isAPIEnabled_live_error c a b e :
  is_enabled_live c a = (b, Some e) -> b = false /\ e <> "".
Proof.
  unfold Live.isAPIEnabled. destruct (Live.useRealAPI c).
  - destruct (checkAPIEnabledReal_cases c a)
      as [(e' & -> & He)|[->|(-> & _)]]; try done.
    by intros [= <- <-].
  - unfold Live.checkAPIEnabledSimulated.
    pose proof (static_isAPIEnabled_ok a) as Hok. intros H.
    rewrite H in Hok. done.
Qed.

Lemma isAPIEnabled_no_project c a :
  Live.useRealAPI c = true -> Live.projectID c = "" ->
  (is_enabled_live c a).1 = false.
Proof.
  intros Hreal Hp. unfold Live.isAPIEnabled. rewrite Hreal.
  by destruct (checkAPIEnabledReal_cases c a)
    as [(e' & -> & He)|[->|(_ & Hne & _)]].
Qed.

(** X18. The live check of one API answers "enabled" only with a project
    ID, a response of status 200 and a decoded body whose ["state"] is the
    string "ENABLED" or is no string at all. Without a project ID it never
    answers "enabled", whatever the Discovery service replies. Whenever it
    returns an error, the answer is [false] and the message is not
    empty. *)
Theorem live_check_enabled_only_with_project
    (c : Live.GoogleAPIChecker) (apiName : string) :
  (forall e, (check_real c apiName).2 = Some e ->
     (check_real c apiName).1 = false /\ e <> "") /\
  (Live.projectID c = "" -> (check_real c apiName).1 = false) /\
  ((check_real c apiName).1 = true ->
   (check_real c apiName).2 = None /\
   Live.projectID c <> "" /\
   exists resp result,
     Do (Live.request c (Live.check_url c apiName)) = (resp, None) /\
     Live.StatusCode resp = 200 /\
     Decode (Live.Body resp) = (result, None) /\
     (result !! "state" = Some (Live.JString "ENABLED") \/
      forall state, result !! "state" <> Some (Live.JString state))).
Proof.
  destruct (checkAPIEnabledReal_cases c apiName)
    as [(e' & -> & He)|[->|(-> & Hp & Hresp)]]; cbn.
  - split; [|done]. intros e [= <-]. by split.
  - by repeat split.
  - split; [done|]. split; [done|]. intros _. by split.
Qed.

(** X19. Behind the live source, with the real check or the simulated
    one, the status fields of a probe result agree without any
    assumption: [Status] is one of the three words, it is "ERROR" exactly
    when [Error] is not empty, [Enabled] is true exactly when [Status] is
    "ENABLED", and an errored result has no display name and the zero
    cost record. *)
Theorem live_probe_status_coherent
    (c : Live.GoogleAPIChecker) (now : Time) (a : string) :
  (Status (probe_live c now a) = "ENABLED" \/
   Status (probe_live c now a) = "DISABLED" \/
   Status (probe_live c now a) = "ERROR") /\
  (Status (probe_live c now a) = "ERROR" <->
   Error (probe_live c now a) <> "") /\
  (Enabled (probe_live c now a) = true <->
   Status (probe_live c now a) = "ENABLED") /\
  (Error (probe_live c now a) <> "" ->
   DisplayName (probe_live c now a) = "" /\
   CostInfoOf (probe_live c now a) = zero_CostInfo /\
   (is_enabled_live c a).2 = Some (Error (probe_live c now a))).
Proof.
  destruct (checkSingleAPI_cases (is_enabled_live c) getAPIDisplayName
              getCostInfo now a) as [(b & e & H & ->)|(b & H & ->)];
    cbn [Status Error Enabled DisplayName CostInfoOf].
  - destruct (isAPIEnabled_live_error c a b e H) as [_ He].
    rewrite H. repeat split; auto; done.
  - destruct b; repeat split; auto; done.
Qed.
(** What a call has returned was probed, whatever the number of
    workers. *)
Lemma returned_probed
    (catalogue : list string * error) (isAPIEnabled : string -> bool * error)
    (c : GoogleAPIChecker) (r : run) (rs : list APIResult) (err : error) :
  rtc (run_step isAPIEnabled getAPIDisplayName getCostInfo)
    (CheckAllAPIs_start catalogue c) r ->
  returns r = Some (rs, err) ->
  Forall (probed isAPIEnabled getAPIDisplayName getCostInfo) rs.
Proof.
  intros Hrun Hret.
  destruct (start_cases catalogue c)
    as [(apis & e & _ & Hstart)|(apis & _ & Hstart)];
    rewrite Hstart in Hrun.
  - apply failed_is_final in Hrun as ->. cbn in Hret.
    injection Hret as <- <-. constructor.
  - apply pool_of_run in Hrun as (p & -> & Hrun).
    apply reachable_inv in Hrun. cbn in Hret.
    destruct (returned p); [|discriminate]. injection Hret as <- <-.
    exact (inv_all_probed _ _ _ _ _ _ Hrun).
Qed.

(** The report of results of which none is enabled. *)
Lemma none_enabled_report
    (sort_Slice : (APIResult -> APIResult -> bool) ->
                  list APIResult -> list APIResult)
    (Sprintf_2f : float64 -> string) (now : Time) (rs : list APIResult) :
  sort_Slice_contract sort_Slice ->
  Forall (fun x => Enabled x = false) rs ->
  let report := GenerateReport sort_Slice Sprintf_2f now rs in
  EnabledAPIs report = [] /\
  EnabledCount (Summary report) = 0 /\
  TotalCost (Summary report) = 0%float /\
  CostAnalysisOf report = mkCostAnalysis 0%float [] [] ∅ /\
  DisabledCount (Summary report) + ErrorCount (Summary report) = len rs.
Proof.
  intros Hsort Hoff.
  assert (Forall (fun x => is_enabled x = false) rs) as Hall.
  { eapply Forall_impl; [exact Hoff|]. intros x Hx.
    unfold is_enabled, state_of. rewrite Hx.
    by destruct (negb (String.eqb (Error x) "")). }
  assert (forall f : APIResult -> bool,
            (forall x, is_enabled x = false -> f x = false) ->
            List.filter f rs = []) as Hnone.
  { intros f Hf. apply filter_none. eapply Forall_impl; [exact Hall|].
    intros x Hx. cbn. by apply Hf. }
  assert (forall x, is_enabled x = false -> enabled_with_pricing x = false)
    as Hpriced.
  { intros x Hx. unfold enabled_with_pricing. by rewrite Hx. }
  assert (forall x, is_enabled x = false -> is_high_cost x = false) as Hhigh.
  { intros x Hx. unfold is_high_cost. by rewrite (Hpriced x Hx). }
  assert (forall x, is_enabled x = false -> is_unlimited_risk x = false)
    as Hunl.
  { intros x Hx. unfold is_unlimited_risk. by rewrite (Hpriced x Hx). }
  assert (forall less, sort_Slice less [] = []) as Hnil.
  { intros less. apply Permutation_nil. exact (proj1 (Hsort less [])). }
  assert (costBreakdown (fold_left tally_result rs empty_tally) = ∅) as Hb.
  { apply map_eq. intros k. rewrite tally_breakdown, lookup_empty. cbn.
    destruct (last_priced k rs) eqn:Hk; [|done].
    destruct (proj1 (last_priced_Some k rs)) as (x & Hx & Hq & _);
      [by eexists|].
    rewrite Forall_forall in Hall.
    rewrite (Hpriced x (Hall x Hx)) in Hq. done. }
  pose proof (classes_add_up rs) as Hsum.
  rewrite (Hnone is_enabled) in Hsum by done.
  cbn. rewrite tally_enabled, tally_disabled, tally_errorCount,
    tally_totalCost, tally_high, tally_unlimited, Hb.
  rewrite (Hnone is_enabled), (Hnone enabled_with_pricing),
    (Hnone is_high_cost), (Hnone is_unlimited_risk) by done.
  cbn. rewrite !Hnil. by repeat split.
Qed.

(** X20. A checker made with a token and without a project ID never
    finds an API enabled: however the goroutines interleave, whatever the
    number of workers and whatever the services reply, every result that
    [CheckAllAPIs] returns has [Enabled] false, and the report of the
    results has no enabled API, a total cost of 0, no high-cost and no
    unlimited-cost API and an empty cost breakdown; every result is
    counted as disabled or as an error. *)
Theorem no_project_nothing_enabled
    (sort_Slice : (APIResult -> APIResult -> bool) ->
                  list APIResult -> list APIResult)
    (Sprintf_2f : float64 -> string) (now : Time)
    (tok : string) (n : Z) (r : run) (rs : list APIResult) (err : error) :
  sort_Slice_contract sort_Slice ->
  tok <> "" ->
  rtc (run_step (is_enabled_live (Live.NewGoogleAPIChecker tok "" n))
         getAPIDisplayName getCostInfo)
    (CheckAllAPIs_start (list_live (Live.NewGoogleAPIChecker tok "" n))
       (pool_checker (Live.NewGoogleAPIChecker tok "" n))) r ->
  returns r = Some (rs, err) ->
  Forall (fun x => Enabled x = false /\ Status x <> "ENABLED") rs /\
  let report := GenerateReport sort_Slice Sprintf_2f now rs in
  EnabledAPIs report = [] /\
  EnabledCount (Summary report) = 0 /\
  TotalCost (Summary report) = 0%float /\
  CostAnalysisOf report = mkCostAnalysis 0%float [] [] ∅ /\
  DisabledCount (Summary report) + ErrorCount (Summary report) = len rs.
Proof.
  intros Hsort Htok Hrun Hret.
  set (c := Live.NewGoogleAPIChecker tok "" n) in *.
  assert (Live.useRealAPI c = true) as Hreal.
  { cbn. by destruct (String.eqb_spec tok ""). }
  pose proof (returned_probed _ _ _ _ _ _ Hrun Hret) as Hprobed.
  assert (Forall (fun x => Enabled x = false /\ Status x <> "ENABLED") rs)
    as Hoff.
  { eapply Forall_impl; [exact Hprobed|]. intros x [t ->].
    pose proof (isAPIEnabled_no_project c (Name x) Hreal eq_refl) as Hno.
    destruct (checkSingleAPI_cases (is_enabled_live c) getAPIDisplayName
                getCostInfo t (Name x)) as [(b & e & H & ->)|(b & H & ->)];
      cbn [Enabled Status]; [done|].
    rewrite H in Hno. cbn in Hno. by subst b. }
  split; [exact Hoff|].
  apply none_enabled_report; [exact Hsort|].
  eapply Forall_impl; [exact Hoff|]. by intros x [? _].
Qed.

(** X21. The listing of the live source returns an empty catalogue with
    every error, and the message of the error is not empty. Without a
    project ID every identifier of the catalogue is a name of the
    Discovery list followed by ".googleapis.com", and the URL that the
    check of the identifier requests is the Discovery URL of that very
    name: [strings.TrimSuffix] undoes the suffix. A catalogue is returned
    only for a response of status 200, and it is no longer than the
    decoded array. *)
Theorem discovery_catalogue_round_trip (c : Live.GoogleAPIChecker) :
  (forall e, (list_real c).2 = Some e -> (list_real c).1 = [] /\ e <> "") /\
  ((list_real c).2 = None ->
   exists resp result,
     Do (Live.request c (Live.list_url c)) = (resp, None) /\
     Live.StatusCode resp = 200 /\
     Decode (Live.Body resp) = (result, None) /\
     (forall xs, result !! (if negb (String.eqb (Live.projectID c) "")
                            then "services" else "items")
                 = Some (Live.JArray xs) ->
        (length (list_real c).1 <= length xs)%nat)) /\
  (Live.projectID c = "" ->
   forall a, a ∈ (list_real c).1 ->
     exists name,
       a = name +:+ ".googleapis.com" /\
       Live.check_url c a =
         "https://www.googleapis.com/discovery/v1/apis/" +:+ name +:+ "/v1").
Proof.
  unfold Live.getAvailableAPIsReal.
  destruct (NewRequest_error (Live.list_url c)) as [e0|].
  { cbn. split; [|split; [done|]].
    - intros e [= <-]. by split.
    - intros _ a Ha. by apply elem_of_nil in Ha. }
  destruct (Do (Live.request c (Live.list_url c))) as [resp [e0|]] eqn:HDo.
  { cbn. split; [|split; [done|]].
    - intros e [= <-]. by split.
    - intros _ a Ha. by apply elem_of_nil in Ha. }
  destruct (Z.eqb_spec (Live.StatusCode resp) 200) as [H200|H200];
    cbn [negb].
  2:{ cbn. split; [|split; [done|]].
      - intros e [= <-]. by split.
      - intros _ a Ha. by apply elem_of_nil in Ha. }
  destruct (Decode (Live.Body resp)) as [result [e0|]] eqn:HDec.
  { cbn. split; [|split; [done|]].
    - intros e [= <-]. by split.
    - intros _ a Ha. by apply elem_of_nil in Ha. }
  destruct (String.eqb_spec (Live.projectID c) "") as [Hp|Hp]; cbn [negb].
  - cbn [fst snd]. split; [done|]. split.
    + intros _. exists resp, result. repeat split; try done.
      intros xs Hxs. rewrite length_fmap.
      by apply names_in_length.
    + intros _ a Ha. apply list_elem_of_fmap in Ha as (name & -> & _).
      exists name. split; [done|].
      unfold Live.check_url. rewrite Hp. cbn [String.eqb negb].
      by rewrite TrimSuffix_app.
  - cbn [fst snd]. split; [done|]. split; [|done].
    intros _. exists resp, result. repeat split; try done.
    intros xs Hxs. by apply names_in_length.
Qed.

Lemma static_catalogue_NoDup :
  length Live.getAvailableAPIsStatic.1 = 77%nat /\
  NoDup Live.getAvailableAPIsStatic.1.
Proof.
  split; [reflexivity|].
  refine (bool_decide_unpack _ _). vm_compute. exact I.
Qed.

(** X22. A checker made with an empty token runs on the simulated check
    and the static catalogue of the live source, which has 77 identifiers
    and none twice: with one worker or more every call of [CheckAllAPIs],
    however its goroutines interleave, returns 77 results without an
    error, no two of them for the same identifier, and none of them
    errored. *)
Theorem simulated_catalogue_probed_once
    (pid : string) (n : Z) (r : run) (rs : list APIResult) (err : error) :
  1 <= n ->
  rtc (run_step (is_enabled_live (Live.NewGoogleAPIChecker "" pid n))
         getAPIDisplayName getCostInfo)
    (CheckAllAPIs_start (list_live (Live.NewGoogleAPIChecker "" pid n))
       (pool_checker (Live.NewGoogleAPIChecker "" pid n))) r ->
  returns r = Some (rs, err) ->
  err = None /\ length rs = 77%nat /\ NoDup (Name <$> rs) /\
  Name <$> rs ≡ₚ Live.getAvailableAPIsStatic.1 /\
  Forall (fun x => Error x = "" /\ Status x <> "ERROR" /\
                   DisplayName x = getAPIDisplayName (Name x)) rs.
Proof.
  intros Hn Hrun Hret.
  destruct static_catalogue_NoDup as [H77 Hnd].
  destruct (run_returned Live.getAvailableAPIsStatic
              (is_enabled_live (Live.NewGoogleAPIChecker "" pid n))
              getAPIDisplayName getCostInfo
              (pool_checker (Live.NewGoogleAPIChecker "" pid n))
              Live.getAvailableAPIsStatic.1 r rs err eq_refl Hn Hrun Hret)
    as (-> & Hperm & Hlen & Hprobed).
  split; [done|]. split; [by rewrite Hlen|]. split; [by rewrite Hperm|].
  split; [done|].
  eapply Forall_impl; [exact Hprobed|]. intros x [t ->].
  destruct (checkSingleAPI_cases
              (is_enabled_live (Live.NewGoogleAPIChecker "" pid n))
              getAPIDisplayName getCostInfo t (Name x))
    as [(b & e & H & ->)|(b & H & ->)]; cbn [Error Status DisplayName Name].
  - exfalso. unfold Live.isAPIEnabled in H. cbn [Live.useRealAPI
      Live.NewGoogleAPIChecker String.eqb negb] in H.
    unfold Live.checkAPIEnabledSimulated in H.
    pose proof (static_isAPIEnabled_ok (Name x)) as Hok.
    rewrite H in Hok. done.
  - by destruct b.
Qed.
End LiveFacts.

Example live_fixture_answers :
  Live.getAvailableAPIs fixture_NewRequest_error fixture_Do fixture_Decode
    no_project =
    (["compute.googleapis.com"; "storage.googleapis.com"], None) /\
  Live.isAPIEnabled fixture_NewRequest_error fixture_Do fixture_Decode
    no_project "compute.googleapis.com" = (false, None) /\
  Live.isAPIEnabled fixture_NewRequest_error fixture_Do fixture_Decode
    with_project "compute.googleapis.com" = (true, None) /\
  Live.isAPIEnabled fixture_NewRequest_error fixture_Do fixture_Decode
    with_project "storage.googleapis.com" =
    (false, Some "API request failed with status: 500").
Proof. repeat split; vm_compute; reflexivity. Qed.

Lemma no_project_nothing_enabled_witness :
  EnabledAPIs
    (GenerateReport insertion_sort Sprintf_2f_fixture 0
       (allResults
          (one_worker_done (fixture_probe no_project)
             ["compute.googleapis.com"; "storage.googleapis.com"]))) = [].
Proof.
  refine (proj1 (proj2
    (no_project_nothing_enabled fixture_NewRequest_error fixture_Do
       fixture_Decode Static.getAPIDisplayName Static.getCostInfo
       insertion_sort Sprintf_2f_fixture 0 "key" 1
       (Running
          (one_worker_done (fixture_probe no_project)
             ["compute.googleapis.com"; "storage.googleapis.com"]))
       _ None insertion_sort_contract ltac:(done) _ _))).
  - replace (CheckAllAPIs_start _ _)
      with (Running
              (init_pool ["compute.googleapis.com"; "storage.googleapis.com"]
                 1))
      by (vm_compute; reflexivity).
    apply run_of_pool. apply one_worker_run.
  - reflexivity.
Defined.

Lemma simulated_catalogue_probed_once_witness :
  length
    (allResults
       (one_worker_done (fixture_probe simulated)
          Live.getAvailableAPIsStatic.1)) = 77%nat.
Proof.
  refine (proj1 (proj2
    (simulated_catalogue_probed_once fixture_NewRequest_error fixture_Do
       fixture_Decode Static.getAPIDisplayName Static.getCostInfo
       "" 1
       (Running
          (one_worker_done (fixture_probe simulated)
             Live.getAvailableAPIsStatic.1))
       _ None ltac:(lia) _ _))).
  - apply run_of_pool. apply one_worker_run.
  - reflexivity.
Defined.
